(** * gofipe: the FIPE backend-for-frontend (app/main.go)

    A shallow embedding of the Go program: the TTL cache, the price parser,
    the price handler with its Prometheus side effects and the price-history
    synthesizer, followed by the properties of the specification that are
    settled against them.

    Conventions.
    - A Go [string] and a Go [[]byte] are byte sequences: Rocq's [string].
    - A float64 produced by [strconv.ParseFloat] is represented by the exact
      decimal that was read, as a rational in lowest terms; Go's value is the
      float64 nearest to it.
    - A number that [encoding/json] decodes into an [interface{}] is a
      float64 in full: correctly rounded when read, written back with the
      fewest digits that identify it.
    - Package-level variables (the cache map, the metric vectors) are explicit
      state; [time.Now()] and the upstream API are inputs of the functions.
    - A handler runs alone: requests are taken one at a time. A handler that
      panics returns no response; what it did before stays done. *)

From stdpp Require Import gmap strings list fin_maps sorting.
From Stdlib Require Import ZArith NArith QArith Ascii DecimalString.
From Stdlib Require DecimalPos DecimalZ.

#[local] Set Warnings "-register-all".
#[local] Open Scope string_scope.
#[local] Open Scope list_scope.
#[local] Open Scope Z_scope.

(** ** Results: Go's [(value, error)] pairs *)

Inductive result (E A : Type) : Type :=
| Err (e : E)
| Ok (a : A).
Arguments Err {E A} e.
Arguments Ok {E A} a.

Definition is_ok {E A} (r : result E A) : bool :=
  match r with Ok _ => true | Err _ => false end.

(** ** Package strings *)

Module Strings.

(** The ASCII part of [unicode.IsSpace]: tab, newline, vertical tab, form
    feed, carriage return and space. *)
Definition isSpace (c : ascii) : bool :=
  let n := nat_of_ascii c in
  ((9 <=? n) && (n <=? 13))%nat || (n =? 32)%nat.

Fixpoint TrimLeft (s : string) : string :=
  match s with
  | String c s' => if isSpace c then TrimLeft s' else s
  | EmptyString => EmptyString
  end.

Fixpoint TrimRight (s : string) : string :=
  match s with
  | String c s' =>
      match TrimRight s' with
      | EmptyString => if isSpace c then EmptyString else String c EmptyString
      | t => String c t
      end
  | EmptyString => EmptyString
  end.

(** [strings.TrimSpace], on the single-byte white space. (The white space of
    several bytes is left in place; [parsePrice], the one caller, cannot tell:
    lemma [FindString_outside] below.) *)
Definition TrimSpace (s : string) : string := TrimRight (TrimLeft s).

(** [strings.Contains(s, substr)]. *)
Fixpoint Contains (s substr : string) : bool :=
  String.prefix substr s ||
  match s with
  | String _ s' => Contains s' substr
  | EmptyString => false
  end.

(** [strings.ReplaceAll(s, old, new)] for a non-empty [old]: the matches are
    taken from the left and do not overlap; [skip] counts the bytes of a
    match that are still to be dropped. *)
Fixpoint replaceFrom (skip : nat) (s old new : string) : string :=
  match s with
  | EmptyString => EmptyString
  | String c s' =>
      match skip with
      | S k => replaceFrom k s' old new
      | O =>
          if String.prefix old s
          then new +:+ replaceFrom (String.length old - 1) s' old new
          else String c (replaceFrom O s' old new)
      end
  end.

Definition ReplaceAll (s old new : string) : string :=
  match old with
  | EmptyString => s
  | _ => replaceFrom O s old new
  end.

(** [strings.Split(s, sep)] for a non-empty [sep]; [cur] is the piece being
    read, in reverse. *)
Fixpoint splitFrom (skip : nat) (cur : list ascii) (s sep : string) : list string :=
  match s with
  | EmptyString => [String.string_of_list_ascii (rev cur)]
  | String c s' =>
      match skip with
      | S k => splitFrom k cur s' sep
      | O =>
          if String.prefix sep s
          then String.string_of_list_ascii (rev cur)
                 :: splitFrom (String.length sep - 1) [] s' sep
          else splitFrom O (c :: cur) s' sep
      end
  end.

Definition Split (s sep : string) : list string := splitFrom O [] s sep.

(** ASCII lower case, the folding [encoding/json] applies to object keys
    (the field names of this program have no letter with a further fold). *)
Definition toLowerAscii (c : ascii) : ascii :=
  let n := nat_of_ascii c in
  if ((65 <=? n) && (n <=? 90))%nat then ascii_of_nat (n + 32) else c.

Fixpoint ToLower (s : string) : string :=
  match s with
  | String c s' => String (toLowerAscii c) (ToLower s')
  | EmptyString => EmptyString
  end.

End Strings.

(** ** Package unicode/utf8 *)

Module Utf8.

Definition between (lo hi : nat) (c : ascii) : bool :=
  let n := nat_of_ascii c in ((lo <=? n) && (n <=? hi))%nat.

(** A continuation byte, 0x80 to 0xBF. *)
Definition isCont (c : ascii) : bool := between 128 191 c.

(** What the first byte of an encoding announces: the number of bytes and the
    range of the second one (the table [first] and the [acceptRanges] of
    utf8.go). *)
Definition shape (c : ascii) : option (nat * nat * nat) :=
  if between 0 127 c then Some (1, 0, 0)%nat
  else if between 194 223 c then Some (2, 128, 191)%nat
  else if between 224 224 c then Some (3, 160, 191)%nat
  else if between 225 236 c then Some (3, 128, 191)%nat
  else if between 237 237 c then Some (3, 128, 159)%nat
  else if between 238 239 c then Some (3, 128, 191)%nat
  else if between 240 240 c then Some (4, 144, 191)%nat
  else if between 241 243 c then Some (4, 128, 191)%nat
  else if between 244 244 c then Some (4, 128, 143)%nat
  else None.

(** The bytes that follow the first one of an encoding of [n] bytes. *)
Definition tailOk (n lo hi : nat) (s : string) : bool :=
  match n, s with
  | 1%nat, _ => true
  | 2%nat, String c1 _ => between lo hi c1
  | 3%nat, String c1 (String c2 _) => between lo hi c1 && isCont c2
  | 4%nat, String c1 (String c2 (String c3 _)) =>
      between lo hi c1 && isCont c2 && isCont c3
  | _, _ => false
  end.

(** The width of the encoding at the front of [s]; 0 when there is none:
    [utf8.DecodeRuneInString] then returns [RuneError] (with width 1 when
    [s] is not empty). *)
Definition runeLen (s : string) : nat :=
  match s with
  | EmptyString => 0
  | String c s' =>
      match shape c with
      | Some (n, lo, hi) => if tailOk n lo hi s' then n else 0
      | None => 0
      end
  end.

(** [utf8.ValidString]; [skip] counts the bytes of the current encoding that
    are still to be passed. *)
Fixpoint validFrom (skip : nat) (s : string) : bool :=
  match s with
  | EmptyString => true
  | String _ s' =>
      match skip with
      | S k => validFrom k s'
      | O =>
          match runeLen s with
          | O => false
          | S k => validFrom k s'
          end
      end
  end.

Definition ValidString (s : string) : bool := validFrom 0 s.

(** U+FFFD, the replacement character. *)
Definition RuneError : string :=
  String (ascii_of_nat 239) (String (ascii_of_nat 191) (String (ascii_of_nat 189) "")).

(** The coercion to valid UTF-8 that [encoding/json] applies to every string
    it reads or writes: a byte that starts no encoding is replaced by
    U+FFFD. *)
Fixpoint coerceFrom (skip : nat) (s : string) : string :=
  match s with
  | EmptyString => EmptyString
  | String c s' =>
      match skip with
      | S k => String c (coerceFrom k s')
      | O =>
          match runeLen s with
          | O => RuneError +:+ coerceFrom 0 s'
          | S k => String c (coerceFrom k s')
          end
      end
  end.

Definition ToValid (s : string) : string := coerceFrom 0 s.

End Utf8.

(** ** Package regexp: the one pattern of the program, [[0-9,.]+] *)

Module Regexp.

Definition isDigit (c : ascii) : bool :=
  let n := nat_of_ascii c in ((48 <=? n) && (n <=? 57))%nat.

(** The character class [[0-9,.]]. *)
Definition numericClass (c : ascii) : bool :=
  isDigit c || Ascii.eqb c "," || Ascii.eqb c ".".

Fixpoint takeClass (s : string) : string :=
  match s with
  | String c s' => if numericClass c then String c (takeClass s') else EmptyString
  | EmptyString => EmptyString
  end.

(** [regexp.MustCompile(`[0-9,.]+`).FindString(s)]: the leftmost match, taken
    as long as it goes; the empty string when there is none. *)
Fixpoint FindString (s : string) : string :=
  match s with
  | String c s' => if numericClass c then takeClass s else FindString s'
  | EmptyString => EmptyString
  end.

End Regexp.

(** ** Package strconv *)

Module Strconv.

Definition float64 : Type := Q.

Inductive numErrKind := ErrSyntax | ErrRange.

(** [*strconv.NumError]: the function, the input and the kind. *)
Record NumError := { Func : string; Num : string; Kind : numErrKind }.

Definition digitVal (c : ascii) : Z := Z.of_nat (nat_of_ascii c) - 48.

(** [strconv.Itoa] and the verb [%d]. *)
Definition Itoa (z : Z) : string := NilZero.string_of_int (Z.to_int z).

Fixpoint readDigits (acc : Z) (s : string) : option Z :=
  match s with
  | EmptyString => Some acc
  | String c s' =>
      if Regexp.isDigit c then readDigits (10 * acc + digitVal c) s' else None
  end.

Definition minInt : Z := - 2 ^ 63.
Definition maxInt : Z := 2 ^ 63 - 1.

(** [strconv.Atoi] on a 64-bit platform: an optional sign and at least one
    decimal digit, the value within the range of [int]; [None] is any error. *)
Definition Atoi (s : string) : option Z :=
  let '(neg, ds) :=
    match s with
    | String "-" s' => (true, s')
    | String "+" s' => (false, s')
    | _ => (false, s)
    end in
  match ds with
  | EmptyString => None
  | _ =>
      match readDigits 0 ds with
      | Some n =>
          let z := if neg then - n else n in
          if (minInt <=? z) && (z <=? maxInt) then Some z else None
      | None => None
      end
  end.

(** The state of [readFloat] on a plain decimal: mantissa, number of digits
    after the point, and whether a point and a digit were seen. *)
Fixpoint readFloat (mant : Z) (frac : nat) (sawdot sawdigits : bool) (s : string)
  : option (Z * nat) :=
  match s with
  | EmptyString => if sawdigits then Some (mant, frac) else None
  | String c s' =>
      if Ascii.eqb c "." then
        if sawdot then None else readFloat mant frac true sawdigits s'
      else if Regexp.isDigit c then
        readFloat (10 * mant + digitVal c) (if sawdot then S frac else frac)
                  sawdot true s'
      else None
  end.

(** Decimals from this bound on round to infinity: the largest float64 plus
    half a unit in its last place. *)
Definition overflowBound : Z := 2 ^ 1024 - 2 ^ 970.

(** [strconv.ParseFloat(s, 64)] on the inputs [parsePrice] gives it, which
    are made of decimal digits and points (lemma [parsePrice_alphabet]
    below): at most one point and at least one digit, else a syntax error;
    a value that rounds to infinity is a range error. Signs, exponents,
    hexadecimal and the special values cannot occur there and are rejected
    here. *)
Definition ParseFloat (s : string) : result NumError float64 :=
  match readFloat 0 0 false false s with
  | None => Err {| Func := "ParseFloat"; Num := s; Kind := ErrSyntax |}
  | Some (mant, frac) =>
      if overflowBound * 10 ^ Z.of_nat frac <=? mant
      then Err {| Func := "ParseFloat"; Num := s; Kind := ErrRange |}
      else Ok (Qred (mant # Z.to_pos (10 ^ Z.of_nat frac)))
  end.

End Strconv.

(** ** parsePrice *)

Inductive priceError :=
| NoNumericPart                       (* fmt.Errorf("no numeric part") *)
| ParseFloatError (e : Strconv.NumError).

(** The pair [strconv.ParseFloat] returns, as [parsePrice] returns it. *)
Definition fromParseFloat (r : result Strconv.NumError Strconv.float64)
  : result priceError Strconv.float64 :=
  match r with
  | Ok f => Ok f
  | Err e => Err (ParseFloatError e)
  end.

(** [parsePrice] attempts to convert FIPE price strings to float64. *)
Definition parsePrice (s : string) : result priceError Strconv.float64 :=
  let s := Strings.TrimSpace s in
  let m := Regexp.FindString s in
  if String.eqb m "" then Err NoNumericPart
  else
    let m :=
      if Strings.Contains m "." && Strings.Contains m "," then
        Strings.ReplaceAll (Strings.ReplaceAll m "." "") "," "."
      else if Strings.Contains m "," && negb (Strings.Contains m ".") then
        Strings.ReplaceAll m "," "."
      else m in
    fromParseFloat (Strconv.ParseFloat m).

(** ** Package time: civil dates *)

Module Gotime.

(** What the program reads of a [time.Time]: its year, month and day in the
    local calendar. *)
Record date := { Year : Z; Month : Z; Day : Z }.

Definition isLeap (y : Z) : bool :=
  (y mod 4 =? 0) && (negb (y mod 100 =? 0) || (y mod 400 =? 0)).

Definition daysIn (y m : Z) : Z :=
  if m =? 2 then (if isLeap y then 29 else 28)
  else if (m =? 4) || (m =? 6) || (m =? 9) || (m =? 11) then 30
  else 31.

(** A date of the calendar. *)
Definition valid (t : date) : Prop :=
  1 <= Month t <= 12 /\ 1 <= Day t <= daysIn (Year t) (Month t).

(** [time.Date(year, month, day, ...)] for a day between 1 and 31: the month
    is normalized into 1..12, overflowing into the year, and a day past the
    end of that month runs over into the next one ("October 32 converts to
    November 1"). *)
Definition Date (year month day : Z) : date :=
  let m0 := month - 1 in
  let y := year + m0 / 12 in
  let m := m0 mod 12 + 1 in
  if day <=? daysIn y m
  then {| Year := y; Month := m; Day := day |}
  else {| Year := y; Month := m + 1; Day := day - daysIn y m |}.

(** [t.AddDate(0, months, 0)]: it "normalizes its result in the same way
    that Date does". *)
Definition AddMonths (t : date) (months : Z) : date :=
  Date (Year t) (Month t + months) (Day t).

(** Decimal with leading zeros up to [width] digits; a minus sign goes in
    front. *)
Fixpoint zeros (n : nat) : string :=
  match n with O => "" | S k => String "0" (zeros k) end.

Definition pad (width : nat) (z : Z) : string :=
  let ds := Strconv.Itoa (Z.abs z) in
  let body := zeros (width - String.length ds) +:+ ds in
  if z <? 0 then "-" +:+ body else body.

(** [t.Format("2006-01")]. *)
Definition Format_2006_01 (t : date) : string :=
  pad 4 (Year t) +:+ "-" +:+ pad 2 (Month t).

End Gotime.

(** [fmt.Sprintf("%02d/%d", int(ref.Month()), ref.Year())]; the month is
    between 1 and 12. *)
Definition monthLabel (ref : Gotime.date) : string :=
  Gotime.pad 2 (Gotime.Month ref) +:+ "/" +:+ Strconv.Itoa (Gotime.Year ref).

(** ** float64, as [encoding/json] reads and writes it *)

Module Float64.

(** A finite float64: (-1)^neg * mant * 2^exp. Zero has the mantissa 0 and the
    exponent 0; every other value has its mantissa in 2^52..2^53-1 and its
    exponent in -1074..971, or is subnormal (mantissa below 2^52, exponent
    -1074). *)
Record t := { neg : bool; mant : Z; exp : Z }.

Definition eqb (f g : t) : bool :=
  Bool.eqb (neg f) (neg g) && (mant f =? mant g) && (exp f =? exp g).

Definition zero (s : bool) : t := {| neg := s; mant := 0; exp := 0 |}.

(** The fraction n / (d * 2^e). *)
Definition scale2 (n d e : Z) : Z * Z :=
  if 0 <=? e then (n, d * 2 ^ e) else (n * 2 ^ (- e), d).

(** The fraction n / (d * 10^e). *)
Definition scale10 (n d e : Z) : Z * Z :=
  if 0 <=? e then (n, d * 10 ^ e) else (n * 10 ^ (- e), d).

(** The integer nearest to n / d, the even one of two that are as near. *)
Definition roundHalfEven (nd : Z * Z) : Z :=
  let '(n, d) := nd in
  let q := n / d in
  match 2 * (n mod d) ?= d with
  | Lt => q
  | Gt => q + 1
  | Eq => if Z.even q then q else q + 1
  end.

(** The float64 nearest to n / d (n and d positive), ties to even; [None]
    when n / d is beyond the largest float64 by half a unit in the last place
    or more (the conversion gives an infinity). *)
Definition ofRatio (s : bool) (n d : Z) : option t :=
  let l := Z.log2 n - Z.log2 d in
  let '(n1, d1) := scale2 n d (l - 52) in
  let e := if n1 / d1 <? 2 ^ 52 then l - 53 else l - 52 in
  let e := Z.max e (-1074) in
  let m := roundHalfEven (scale2 n d e) in
  let '(m, e) := if m =? 2 ^ 53 then (2 ^ 52, e + 1) else (m, e) in
  if 971 <? e then None
  else if m =? 0 then Some (zero s)
  else Some {| neg := s; mant := m; exp := e |}.

(** [strconv.ParseFloat(lit, 64)] on the decimal (-1)^s * digits * 10^e10:
    [None] is the range error. *)
Definition ofDecimal (s : bool) (digits : N) (e10 : Z) : option t :=
  if (digits =? 0)%N then Some (zero s)
  else
    let '(n, d) := scale10 (Z.of_N digits) 1 (- e10) in
    ofRatio s n d.

(** The least p with n / d < 10^p, searched upwards from [p]. *)
Fixpoint magnitude (fuel : nat) (n d p : Z) : Z :=
  match fuel with
  | O => p
  | S k =>
      let '(n', d') := scale10 n d p in
      if n' <? d' then p else magnitude k n d (p + 1)
  end.

Fixpoint stripZeros (fuel : nat) (ds e10 : Z) : Z * Z :=
  match fuel with
  | O => (ds, e10)
  | S k => if (ds mod 10 =? 0) && negb (ds =? 0)
           then stripZeros k (ds / 10) (e10 + 1) else (ds, e10)
  end.

(** The decimal of [k] digits for n / d, which is below 10^p: the one just
    below or the one just above, whichever converts back to [f]; the nearer
    one when both do (the even one of two that are as near); none when
    neither does. *)
Definition candidate (f : t) (n d p k : Z) : option Z :=
  let '(n', d') := scale10 n d (p - k) in
  let lo := n' / d' in
  let back (x : Z) :=
    match ofDecimal (neg f) (Z.to_N x) (p - k) with
    | Some g => eqb f g
    | None => false
    end in
  let okLo := back lo in
  let okHi := back (lo + 1) in
  if okLo && okHi then Some (roundHalfEven (n', d'))
  else if okLo then Some lo
  else if okHi then Some (lo + 1)
  else None.

Fixpoint firstCandidate (fuel : nat) (f : t) (n d p k : Z) : Z * Z :=
  match fuel with
  | O => (0, 0)
  | S fuel' =>
      match candidate f n d p k with
      | Some ds => stripZeros 20 ds (p - k)
      | None => firstCandidate fuel' f n d p (k + 1)
      end
  end.

(** The digits of [strconv.FormatFloat(f, fmt, -1, 64)] for [f] other than
    zero: the shortest decimal that converts back to [f], one digit tried
    before two and so on up to seventeen. The result is (digits, e10, p):
    the decimal is digits * 10^e10, and 10^(p-1) <= |f| < 10^p. *)
Definition shortest (f : t) : Z * Z * Z :=
  let '(n, d) := scale2 (mant f) 1 (- exp f) in
  let l := Z.log2 n - Z.log2 d in
  let p := magnitude 8 n d ((l - 1) * 30103 / 100000 - 1) in
  let '(ds, e10) := firstCandidate 17 f n d p 1 in
  (ds, e10, p).

End Float64.

(** ** Package encoding/json *)

Module Json.

(** A number of a JSON text: a literal of digits only, with its sign, or a
    literal with a fraction or an exponent, (-1)^neg * digits * 10^e10. An
    [int] field takes the first kind only. *)
Inductive number :=
| NInteger (neg : bool) (digits : N)
| NDecimal (neg : bool) (digits : N) (e10 : Z).

(** The literal of an integer. *)
Definition NInt (z : Z) : number := NInteger (z <? 0) (Z.abs_N z).

(** [strconv.ParseInt(lit, 10, 64)] as far as the syntax goes. *)
Definition intOf (n : number) : option Z :=
  match n with
  | NInteger s d => Some (if s then - Z.of_N d else Z.of_N d)
  | NDecimal _ _ _ => None
  end.

(** [strconv.ParseFloat(lit, 64)]: [None] when the number is out of range. *)
Definition toFloat64 (n : number) : option Float64.t :=
  match n with
  | NInteger s d => Float64.ofDecimal s d 0
  | NDecimal s d e => Float64.ofDecimal s d e
  end.

(** The literal the encoder writes for a float64: the shortest digits, in the
    format 'f' below 1e21 (digits only when there is no fraction) and with
    an exponent from 1e21 on. (Below 1e-6 the encoder writes an exponent
    too; the digits and the power of ten are those of the format 'f'.) *)
Definition ofFloat64 (f : Float64.t) : number :=
  if Float64.mant f =? 0 then NInteger (Float64.neg f) 0
  else
    let '(ds, e10, p) := Float64.shortest f in
    if 22 <=? p then NDecimal (Float64.neg f) (Z.to_N ds) e10
    else if 0 <=? e10 then NInteger (Float64.neg f) (Z.to_N (ds * 10 ^ e10))
    else NDecimal (Float64.neg f) (Z.to_N ds) e10.

(** A JSON text, as the decoder reads it: the members of an object in the
    order of the text, duplicates included; a string with its escapes
    resolved. *)
Inductive json :=
| JNull
| JBool (b : bool)
| JNum (n : number)
| JStr (s : string)
| JArr (l : list json)
| JObj (l : list (string * json)).

(** The Go value [json.Unmarshal] stores into an [interface{}]: a float64
    for a number, [map[string]interface{}] for an object, [[]interface{}]
    for an array. *)
Inductive value :=
| VNil
| VBool (b : bool)
| VNum (f : Float64.t)
| VStr (s : string)
| VArr (l : list value)
| VMap (m : gmap string value).

(** Bytes on the wire: either a JSON text or bytes the decoder rejects with
    a syntax error. *)
Inductive payload :=
| Raw (b : string)
| Json (j : json).

(** [len(p) > 0]. *)
Definition nonEmpty (p : payload) : bool :=
  match p with
  | Raw b => negb (String.eqb b "")
  | Json _ => true
  end.

(** Decoding into [interface{}]: a number becomes the nearest float64 and is
    an error ([None]) when it is out of range; a string is coerced to valid
    UTF-8; a later member of an object replaces an earlier one with the same
    key. The decoder goes on after an error, but [json.Unmarshal] returns it
    and every caller drops the value then. *)
Fixpoint decode (j : json) : option value :=
  match j with
  | JNull => Some VNil
  | JBool b => Some (VBool b)
  | JNum n => VNum <$> toFloat64 n
  | JStr s => Some (VStr (Utf8.ToValid s))
  | JArr l =>
      VArr <$> (fix go (l : list json) : option (list value) :=
                  match l with
                  | [] => Some []
                  | x :: l' =>
                      match decode x, go l' with
                      | Some v, Some vs => Some (v :: vs)
                      | _, _ => None
                      end
                  end) l
  | JObj l =>
      VMap <$> fold_left (fun (acc : option (gmap string value)) kv =>
                            match acc, decode kv.2 with
                            | Some m, Some v => Some (<[Utf8.ToValid kv.1 := v]> m)
                            | _, _ => None
                            end) l (Some ∅)
  end.

Definition keyLe (a b : string * json) : Prop := String.leb a.1 b.1 = true.

#[global] Instance keyLe_dec a b : Decision (keyLe a b).
Proof. unfold keyLe. apply _. Defined.

(** Encoding: the keys of a map are sorted, then written like every string,
    coerced to valid UTF-8. *)
Fixpoint encode (v : value) : json :=
  match v with
  | VNil => JNull
  | VBool b => JBool b
  | VNum f => JNum (ofFloat64 f)
  | VStr s => JStr (Utf8.ToValid s)
  | VArr l => JArr (map encode l)
  | VMap m =>
      JObj (map (fun kv => (Utf8.ToValid kv.1, kv.2))
                (merge_sort keyLe (map_to_list (encode <$> m))))
  end.

(** [json.Unmarshal(data, &raw)] with [raw interface{}]. *)
Definition UnmarshalAny (data : payload) : option value :=
  match data with
  | Raw _ => None
  | Json j => decode j
  end.

(** [json.Unmarshal(data, &raw)] with [raw map[string]interface{}]: an
    object, or [null], which leaves the map nil (here: empty). *)
Definition UnmarshalMap (data : payload) : option (gmap string value) :=
  match data with
  | Json j =>
      match decode j with
      | Some (VMap m) => Some m
      | Some VNil => Some ∅
      | _ => None
      end
  | Raw _ => None
  end.

(** [json.Marshal] of a value decoded before; it cannot fail. *)
Definition MarshalValue (v : value) : payload := Json (encode v).

(** The member of an object a reader finds under [key] (the last one). *)
Fixpoint member (key : string) (l : list (string * json)) : option json :=
  match l with
  | [] => None
  | (k, v) :: l' =>
      match member key l' with
      | Some v' => Some v'
      | None => if String.eqb k key then Some v else None
      end
  end.

End Json.
Export Json.

(** ** Data structs *)

(** v2 Price response uses English keys. *)
Record PriceResponse := {
  Price : string;
  Brand : string;
  Model : string;
  ModelYear : Z;
  Fuel : string;
  CodeFipe : string;
  ReferenceMonth : string;
  VehicleType : Z;
  AcronymFuel : string
}.

Definition zeroPriceResponse : PriceResponse :=
  {| Price := ""; Brand := ""; Model := ""; ModelYear := 0; Fuel := "";
     CodeFipe := ""; ReferenceMonth := ""; VehicleType := 0; AcronymFuel := "" |}.

Definition withReferenceMonth (pr : PriceResponse) (s : string) : PriceResponse :=
  {| Price := Price pr; Brand := Brand pr; Model := Model pr;
     ModelYear := ModelYear pr; Fuel := Fuel pr; CodeFipe := CodeFipe pr;
     ReferenceMonth := s; VehicleType := VehicleType pr;
     AcronymFuel := AcronymFuel pr |}.

(** The fields with their [json:"..."] tags, in the order of the struct. *)
Inductive field :=
| FPrice | FBrand | FModel | FModelYear | FFuel
| FCodeFipe | FReferenceMonth | FVehicleType | FAcronymFuel.

Definition fieldTag (f : field) : string :=
  match f with
  | FPrice => "price" | FBrand => "brand" | FModel => "model"
  | FModelYear => "modelYear" | FFuel => "fuel" | FCodeFipe => "codeFipe"
  | FReferenceMonth => "referenceMonth" | FVehicleType => "vehicleType"
  | FAcronymFuel => "acronymFuel"
  end.

Definition fields : list field :=
  [FPrice; FBrand; FModel; FModelYear; FFuel; FCodeFipe; FReferenceMonth;
   FVehicleType; FAcronymFuel].

(** The field an object key decodes into: "preferring an exact match but also
    accepting a case-insensitive match". *)
Definition fieldOfKey (key : string) : option field :=
  match List.find (fun f => String.eqb (fieldTag f) key) fields with
  | Some f => Some f
  | None =>
      List.find (fun f => String.eqb (Strings.ToLower (fieldTag f))
                                     (Strings.ToLower key)) fields
  end.

Definition setString (f : field) (s : string) (pr : PriceResponse) : PriceResponse :=
  {| Price := if f is FPrice then s else Price pr;
     Brand := if f is FBrand then s else Brand pr;
     Model := if f is FModel then s else Model pr;
     ModelYear := ModelYear pr;
     Fuel := if f is FFuel then s else Fuel pr;
     CodeFipe := if f is FCodeFipe then s else CodeFipe pr;
     ReferenceMonth := if f is FReferenceMonth then s else ReferenceMonth pr;
     VehicleType := VehicleType pr;
     AcronymFuel := if f is FAcronymFuel then s else AcronymFuel pr |}.

Definition setInt (f : field) (z : Z) (pr : PriceResponse) : PriceResponse :=
  {| Price := Price pr; Brand := Brand pr; Model := Model pr;
     ModelYear := if f is FModelYear then z else ModelYear pr;
     Fuel := Fuel pr; CodeFipe := CodeFipe pr;
     ReferenceMonth := ReferenceMonth pr;
     VehicleType := if f is FVehicleType then z else VehicleType pr;
     AcronymFuel := AcronymFuel pr |}.

Definition isIntField (f : field) : bool :=
  match f with FModelYear | FVehicleType => true | _ => false end.

(** Storing one member into its field. [null] leaves the field as it is; a
    string field takes a JSON string, coerced to valid UTF-8; an [int] field
    takes a literal of digits within the range of [int]; anything else is an
    [UnmarshalTypeError] ([None]). *)
Definition setField (f : field) (v : json) (pr : PriceResponse) : option PriceResponse :=
  match v with
  | JNull => Some pr
  | JStr s => if isIntField f then None else Some (setString f (Utf8.ToValid s) pr)
  | JNum n =>
      match intOf n with
      | Some z =>
          if isIntField f && (Strconv.minInt <=? z) && (z <=? Strconv.maxInt)
          then Some (setInt f z pr) else None
      | None => None
      end
  | _ => None
  end.

(** The members of an object, in the order of the text; a key that matches no
    field is skipped. *)
Fixpoint decodeMembers (l : list (string * json)) (pr : PriceResponse)
  : option PriceResponse :=
  match l with
  | [] => Some pr
  | (k, v) :: l' =>
      match fieldOfKey (Utf8.ToValid k) with
      | Some f =>
          match setField f v pr with
          | Some pr' => decodeMembers l' pr'
          | None => None
          end
      | None => decodeMembers l' pr
      end
  end.

(** [var pr PriceResponse; json.Unmarshal(data, &pr)]: [Some pr] when the
    error is nil. A type error is reported after the other members were
    decoded; every caller drops [pr] then. *)
Definition UnmarshalPriceResponse (data : payload) : option PriceResponse :=
  match data with
  | Raw _ => None
  | Json JNull => Some zeroPriceResponse
  | Json (JObj l) => decodeMembers l zeroPriceResponse
  | Json _ => None
  end.

(** [json.Marshal(pr)]; it cannot fail. Every string is written coerced to
    valid UTF-8. *)
Definition MarshalPriceResponse (pr : PriceResponse) : payload :=
  Json (JObj [("price", JStr (Utf8.ToValid (Price pr)));
              ("brand", JStr (Utf8.ToValid (Brand pr)));
              ("model", JStr (Utf8.ToValid (Model pr)));
              ("modelYear", JNum (NInt (ModelYear pr)));
              ("fuel", JStr (Utf8.ToValid (Fuel pr)));
              ("codeFipe", JStr (Utf8.ToValid (CodeFipe pr)));
              ("referenceMonth", JStr (Utf8.ToValid (ReferenceMonth pr)));
              ("vehicleType", JNum (NInt (VehicleType pr)));
              ("acronymFuel", JStr (Utf8.ToValid (AcronymFuel pr)))]).

(** ** Simple in-memory cache *)

(** An instant of [time.Time] and a [time.Duration], both in nanoseconds. *)
Definition instant : Type := Z.

Record cacheItem := { data : payload; expiresAt : instant }.

(** The nil slice. *)
Definition nilBytes : payload := Raw "".

(** [getCached]; [now] is the reading of [time.Now()], [c] the package
    variable [cache]. *)
Definition getCached (now : instant) (c : gmap string cacheItem) (key : string)
  : payload * bool :=
  match c !! key with
  | Some it => if now >? expiresAt it then (nilBytes, false) else (data it, true)
  | None => (nilBytes, false)
  end.

(** [setCached] returns the cache after the assignment. *)
Definition setCached (now : instant) (c : gmap string cacheItem)
    (key : string) (d : payload) (ttl : Z) : gmap string cacheItem :=
  <[key := {| data := d; expiresAt := now + ttl |}]> c.

(** [time.Hour]. *)
Definition Hour : Z := 3600 * 10 ^ 9.

(** ** Prometheus metrics *)

Inductive counterVec :=
| httpRequestsTotal | vehicleSearchStats | fuelCounter | brandCounter.

Inductive gaugeVec := priceMinGauge | priceMaxGauge.

#[global] Instance counterVec_eq_dec : EqDecision counterVec.
Proof. solve_decision. Defined.

#[global] Instance gaugeVec_eq_dec : EqDecision gaugeVec.
Proof. solve_decision. Defined.

(** The number of labels each vector is declared with. *)
Definition counterLabels (c : counterVec) : nat :=
  match c with
  | httpRequestsTotal => 2
  | vehicleSearchStats => 3
  | fuelCounter => 1
  | brandCounter => 1
  end.

Definition gaugeLabels (g : gaugeVec) : nat := 3.

(** What [WithLabelValues(lvs...)] insists on, and panics without: as many
    values as the vector has labels, each of them valid UTF-8. *)
Definition validLabelValues (n : nat) (lvs : list string) : bool :=
  (length lvs =? n)%nat && forallb Utf8.ValidString lvs.

(** The registered vectors: each maps the values of its labels to the child
    metric's value (absent: no child yet; a fresh counter child starts at 0). *)
Record registry := {
  counters : counterVec -> gmap (list string) nat;
  gauges : gaugeVec -> gmap (list string) Strconv.float64
}.

Definition counterValue (reg : registry) (c : counterVec) (lvs : list string) : nat :=
  default 0%nat (counters reg c !! lvs).

Definition gaugeValue (reg : registry) (g : gaugeVec) (lvs : list string)
  : option Strconv.float64 :=
  gauges reg g !! lvs.

(** What the goroutine serving a request does to the world, in order. *)
Inductive event :=
| EvInc (c : counterVec) (lvs : list string)
| EvSet (g : gaugeVec) (lvs : list string) (v : Strconv.float64)
| EvFetch (url : string).

(** The package-level state and the trace of the serving goroutine. *)
Record world := {
  metrics : registry;
  cache : gmap string cacheItem;
  trace : list event
}.

(** Handlers are programs over the world. A run gives a value and the world
    it leaves, or panics ([None]) and leaves the world as it was at the
    panic: net/http recovers from the panic of a handler and closes the
    connection, and nothing more of the handler is run. *)
Definition M (A : Type) : Type := world -> option A * world.

#[global] Instance M_ret : MRet M := fun A (a : A) w => (Some a, w).

#[global] Instance M_bind : MBind M :=
  fun A B (k : A -> M B) (m : M A) w =>
    match m w with
    | (Some a, w') => k a w'
    | (None, w') => (None, w')
    end.

Definition ret {A} (a : A) : M A := mret a.

Definition panic {A} : M A := fun w => (None, w).

Definition emit (e : event) : M unit :=
  fun w => (Some tt,
            {| metrics := metrics w; cache := cache w; trace := trace w ++ [e] |}).

Definition updateRegistry (f : registry -> registry) : M unit :=
  fun w => (Some tt, {| metrics := f (metrics w); cache := cache w; trace := trace w |}).

(** [getCached(key)] at the instant [now]. *)
Definition lookupCache (now : instant) (key : string) : M (payload * bool) :=
  fun w => (Some (getCached now (cache w) key), w).

(** [setCached(key, d, ttl)] at the instant [now]. *)
Definition storeCache (now : instant) (key : string) (d : payload) (ttl : Z) : M unit :=
  fun w => (Some tt, {| metrics := metrics w;
                        cache := setCached now (cache w) key d ttl;
                        trace := trace w |}).

(** [c.WithLabelValues(lvs...).Inc()]. *)
Definition Inc (c : counterVec) (lvs : list string) : M unit :=
  if validLabelValues (counterLabels c) lvs then
    emit (EvInc c lvs) ;;
    updateRegistry (fun reg =>
      {| counters := fun c' =>
           if decide (c' = c)
           then <[lvs := S (counterValue reg c lvs)]> (counters reg c')
           else counters reg c';
         gauges := gauges reg |})
  else panic.

(** [g.WithLabelValues(lvs...).Set(v)]. *)
Definition SetGauge (g : gaugeVec) (lvs : list string) (v : Strconv.float64) : M unit :=
  if validLabelValues (gaugeLabels g) lvs then
    emit (EvSet g lvs v) ;;
    updateRegistry (fun reg =>
      {| counters := counters reg;
         gauges := fun g' =>
           if decide (g' = g) then <[lvs := v]> (gauges reg g') else gauges reg g' |})
  else panic.

(** ** The upstream API and HTTP *)

(** What one GET does: the request cannot be built or sent, or the body cannot
    be read ([Failed], with the error's text), or a response arrives. *)
Inductive outcome :=
| Failed (err : string)
| Replied (status : Z) (body : payload).

Definition upstream : Type := string -> outcome.

(** [fetchExternal]; an error is represented by its text. *)
Definition fetchExternal (net : upstream) (url : string) : result string payload :=
  match net url with
  | Failed err => Err err
  | Replied status body =>
      if negb (status =? 200)
      then Err ("external API returned status: " +:+ Strconv.Itoa status
                +:+ " for url: " +:+ url)
      else Ok body
  end.

(** A fetch by the goroutine that serves the request. *)
Definition fetch (net : upstream) (url : string) : M (result string payload) :=
  emit (EvFetch url) ;; ret (fetchExternal net url).

(** A byte of a token ([httpguts.IsTokenRune]). *)
Definition isTokenByte (c : ascii) : bool :=
  Utf8.between 48 57 c || Utf8.between 65 90 c || Utf8.between 97 122 c
  || existsb (Ascii.eqb c)
       ["!"; "#"; "$"; "%"; "&"; "'"; "*"; "+"; "-"; "."; "^"; "_"; "`"; "|"; "~"]%char.

(** [validMethod] of net/http: the method is a token. The server answers a
    request whose method is not one with 400 and calls no handler. *)
Definition validMethod (m : string) : bool :=
  negb (String.eqb m "") && forallb isTokenByte (String.list_ascii_of_string m).

(** What a handler reads of the request it is called with. *)
Record Request := {
  Method : string;
  Query : gmap string (list string);
  MethodOk : validMethod Method = true
}.

(** [r.URL.Query().Get(key)]: the first value of the key, or the empty
    string. *)
Definition QueryGet (r : Request) (key : string) : string :=
  match Query r !! key with
  | Some (v :: _) => v
  | _ => ""
  end.

Record Response := { Status : Z; ContentType : string; Body : payload }.

Definition StatusOK : Z := 200.
Definition StatusBadGateway : Z := 502.

Definition newline : string := String (ascii_of_nat 10) "".

(** [http.Error(w, msg, code)]. *)
Definition httpError (msg : string) (code : Z) : Response :=
  {| Status := code; ContentType := "text/plain; charset=utf-8";
     Body := Raw (msg +:+ newline) |}.

(** [w.Header().Set("Content-Type", "application/json"); w.Write(b)]. *)
Definition writeJSON (b : payload) : Response :=
  {| Status := StatusOK; ContentType := "application/json"; Body := b |}.

(** Base URL for v2. *)
Definition BaseURL : string := "https://fipe.parallelum.com.br/api/v2".

Definition recordMetrics (path method : string) : M unit :=
  Inc httpRequestsTotal [path; method].

(** [fmt.Sprintf("%s/%s/brands/%s/models/%s/years/%s", BaseURL, ...)]. *)
Definition yearURL (vType brandId modelId yearId : string) : string :=
  BaseURL +:+ "/" +:+ vType +:+ "/brands/" +:+ brandId +:+ "/models/" +:+ modelId
          +:+ "/years/" +:+ yearId.

(** ** The cached handlers

    [now] is the reading of [time.Now()] in [getCached], [later] the one in
    [setCached], after the fetch. *)

(** Get Brands: /api/brands?type=cars *)
Definition handleGetBrands (net : upstream) (now later : instant) (r : Request)
  : M Response :=
  recordMetrics "/api/brands" (Method r) ;;
  let vType := QueryGet r "type" in
  let vType := if String.eqb vType "" then "cars" else vType in
  let key := "brands:" +:+ vType in
  lookupCache now key ≫= fun hit : payload * bool =>
  let '(cached, ok) := hit in
  if ok then ret (writeJSON cached)
  else
    let url := BaseURL +:+ "/" +:+ vType +:+ "/brands" in
    res ← fetch net url;
    match res with
    | Err err => ret (httpError err StatusBadGateway)
    | Ok d =>
        storeCache later key d (12 * Hour) ;;
        ret (writeJSON d)
    end.

(** Get Models: /api/models?type=cars&brandId=23 *)
Definition handleGetModels (net : upstream) (now later : instant) (r : Request)
  : M Response :=
  recordMetrics "/api/models" (Method r) ;;
  let vType := QueryGet r "type" in
  let brandId := QueryGet r "brandId" in
  let key := "models:" +:+ vType +:+ ":" +:+ brandId in
  lookupCache now key ≫= fun hit : payload * bool =>
  let '(cached, ok) := hit in
  if ok then ret (writeJSON cached)
  else
    let url := BaseURL +:+ "/" +:+ vType +:+ "/brands/" +:+ brandId +:+ "/models" in
    res ← fetch net url;
    match res with
    | Err err => ret (httpError err StatusBadGateway)
    | Ok d =>
        storeCache later key d (12 * Hour) ;;
        ret (writeJSON d)
    end.

(** Get Years: /api/years?type=cars&brandId=23&modelId=5585 *)
Definition handleGetYears (net : upstream) (now later : instant) (r : Request)
  : M Response :=
  recordMetrics "/api/years" (Method r) ;;
  let vType := QueryGet r "type" in
  let brandId := QueryGet r "brandId" in
  let modelId := QueryGet r "modelId" in
  let key := "years:" +:+ vType +:+ ":" +:+ brandId +:+ ":" +:+ modelId in
  lookupCache now key ≫= fun hit : payload * bool =>
  let '(cached, ok) := hit in
  if ok then ret (writeJSON cached)
  else
    let url := BaseURL +:+ "/" +:+ vType +:+ "/brands/" +:+ brandId
                       +:+ "/models/" +:+ modelId +:+ "/years" in
    res ← fetch net url;
    match res with
    | Err err => ret (httpError err StatusBadGateway)
    | Ok d =>
        storeCache later key d (24 * Hour) ;;
        ret (writeJSON d)
    end.

(** ** Get Price: /api/price?type=cars&brandId=23&modelId=5585&yearId=2022-3 *)

(** The part of [handleGetPrice] after a successful fetch that updates the
    min/max gauges and the fuel counts. *)
Definition observePrice (yearId : string) (data : payload) : M unit :=
  match UnmarshalPriceResponse data with
  | Some pr =>
      match parsePrice (Price pr) with
      | Ok f =>
          SetGauge priceMinGauge [Brand pr; Model pr; yearId] f ;;
          SetGauge priceMaxGauge [Brand pr; Model pr; yearId] f
      | Err _ => ret tt
      end ;;
      if negb (String.eqb (Fuel pr) "") then Inc fuelCounter [Fuel pr] else ret tt
  | None => ret tt
  end.

Definition handleGetPrice (net : upstream) (r : Request) : M Response :=
  recordMetrics "/api/price" (Method r) ;;
  let vType := QueryGet r "type" in
  let brandId := QueryGet r "brandId" in
  let modelId := QueryGet r "modelId" in
  let yearId := QueryGet r "yearId" in
  let brandName := QueryGet r "brandName" in
  let modelName := QueryGet r "modelName" in
  Inc vehicleSearchStats [brandName; modelName; yearId] ;;
  Inc brandCounter [brandName] ;;
  let url := yearURL vType brandId modelId yearId in
  res ← fetch net url;
  match res with
  | Err err => ret (httpError err StatusBadGateway)
  | Ok data =>
      observePrice yearId data ;;
      ret (writeJSON data)
  end.

(** ** Price history: /api/priceHistory *)

(** The [months] parameter: 12 when it is absent, not a number or not
    positive. *)
Definition monthsOf (r : Request) : Z :=
  let monthsStr := QueryGet r "months" in
  let monthsStr := if String.eqb monthsStr "" then "12" else monthsStr in
  match Strconv.Atoi monthsStr with
  | Some months => if months <=? 0 then 12 else months
  | None => 12
  end.

(** [ref := time.Now().AddDate(0, -i, 0)] followed by
    [fmt.Sprintf("%02d/%d", int(ref.Month()), ref.Year())]. *)
Definition labelAt (now : Gotime.date) (i : nat) : string :=
  monthLabel (Gotime.AddMonths now (- Z.of_nat i)).

(** The body of the loop over the native history array: an element that is a
    map gets its normalized reference label. *)
Definition relabelItem (now : Gotime.date) (i : nat) (x : value) : value :=
  match x with
  | VMap item => VMap (<["referenceMonth" := VStr (labelAt now i)]> item)
  | _ => x
  end.

(** What is written when the native history endpoint answered: the normalized
    payload, or the raw data when it has not the expected shape. (The line
    logged on the way is not part of the model.) *)
Definition normalizeDirect (now : Gotime.date) (data : payload) : payload :=
  match UnmarshalAny data with
  | Some (VMap m) =>
      match m !! "history" with
      | Some (VArr arr) =>
          MarshalValue (VMap (<["history" := VArr (imap (relabelItem now) arr)]> m))
      | _ => data
      end
  | _ => data
  end.

(** The candidate endpoints for one reference month, in the order tried. *)
Definition candidates (vType brandId modelId yearId ref : string) : list string :=
  let base := yearURL vType brandId modelId yearId in
  [base +:+ "?referenceMonth=" +:+ ref;
   base +:+ "?reference=" +:+ ref;
   base +:+ "?month=" +:+ ref;
   base +:+ "/history/" +:+ ref;
   base +:+ "/historico/" +:+ ref].

(** The minimal wrapper around a body that is an object but not a
    [PriceResponse]. *)
Definition wrapRaw (ref : string) (raw : gmap string value) : gmap string value :=
  let raw :=
    match raw !! "referenceMonth" with
    | None | Some VNil => <["referenceMonth" := VStr ref]> raw
    | Some _ => raw
    end in
  match raw !! "price" with
  | Some _ => raw
  | None =>
      match raw !! "Valor" with
      | Some v => <["price" := v]> raw
      | None => raw
      end
  end.

(** [parts[1] + "/" + parts[0]] when [ref] splits in two at "-". *)
Definition refLabel (ref : string) : string :=
  match Strings.Split ref "-" with
  | [y; m] => m +:+ "/" +:+ y
  | _ => ref
  end.

(** The loop over the candidates inside one goroutine: [Some b] is the
    assignment [results[offset] = b], [None] leaves the slot nil. *)
Fixpoint tryCandidates (net : upstream) (ref : string) (us : list string)
  : option payload :=
  match us with
  | [] => None
  | u :: us' =>
      match fetchExternal net u with
      | Err _ => tryCandidates net ref us'
      | Ok b =>
          match UnmarshalPriceResponse b with
          | Some pr =>
              let pr :=
                if String.eqb (ReferenceMonth pr) ""
                then withReferenceMonth pr (refLabel ref) else pr in
              if String.eqb (Price pr) ""
              then tryCandidates net ref us'
              else Some (MarshalPriceResponse pr)
          | None =>
              match UnmarshalMap b with
              | Some raw => Some (MarshalValue (VMap (wrapRaw ref raw)))
              | None => Some b
              end
          end
      end
  end.

(** The goroutine of one offset. *)
Definition probeMonth (net : upstream) (now : Gotime.date)
    (vType brandId modelId yearId : string) (offset : nat) : option payload :=
  let ref := Gotime.Format_2006_01 (Gotime.AddMonths now (- Z.of_nat offset)) in
  tryCandidates net ref (candidates vType brandId modelId yearId ref).

(** Every goroutine writes its own slot only, and the handler waits for all of
    them: the slots after [wg.Wait()]. *)
Definition probeAll (net : upstream) (now : Gotime.date)
    (vType brandId modelId yearId : string) (months : Z) : list (option payload) :=
  map (probeMonth net now vType brandId modelId yearId) (seq 0 (Z.to_nat months)).

(** Collect non-empty results preserving month order (current -> past). *)
Definition collect (results : list (option payload)) : list payload :=
  omap (fun slot =>
          match slot with
          | Some p => if nonEmpty p then Some p else None
          | None => None
          end) results.

(** The body of the final loop: ensure the history item has its
    ReferenceMonth label. *)
Definition normalizeEntry (now : Gotime.date) (i : nat) (p : payload) : payload :=
  match UnmarshalPriceResponse p with
  | Some pr => MarshalPriceResponse (withReferenceMonth pr (labelAt now i))
  | None =>
      match UnmarshalMap p with
      | Some raw => MarshalValue (VMap (<["referenceMonth" := VStr (labelAt now i)]> raw))
      | None => p
      end
  end.

Definition jsonOf (p : payload) : option json :=
  match p with Json j => Some j | Raw _ => None end.

(** [json.Marshal(map[string]interface{}{"history": history})] with
    [history []json.RawMessage]: an element that is not a JSON text makes it
    fail. *)
Definition MarshalHistory (history : list payload) : option payload :=
  js ← mapM jsonOf history; Some (Json (JObj [("history", JArr js)])).

(** [b, _ := json.Marshal(resp)] and the write of [b]: nil on an error. *)
Definition writeHistory (history : list payload) : Response :=
  match MarshalHistory history with
  | Some b => writeJSON b
  | None => writeJSON nilBytes
  end.

Definition finishHistory (now : Gotime.date) (history : list payload) : Response :=
  writeHistory (imap (normalizeEntry now) history).

(** [handleGetPriceHistory] attempts to return a price history for the
    vehicle. [now] is the date all the readings of [time.Now()] fall on. *)
Definition handleGetPriceHistory (net : upstream) (now : Gotime.date) (r : Request)
  : M Response :=
  recordMetrics "/api/priceHistory" (Method r) ;;
  let vType := QueryGet r "type" in
  let brandId := QueryGet r "brandId" in
  let modelId := QueryGet r "modelId" in
  let yearId := QueryGet r "yearId" in
  let months := monthsOf r in
  let histURL := yearURL vType brandId modelId yearId
                   +:+ "/history?months=" +:+ Strconv.Itoa months in
  res ← fetch net histURL;
  match res with
  | Ok data => ret (writeJSON (normalizeDirect now data))
  | Err err =>
      let results := probeAll net now vType brandId modelId yearId months in
      let history := collect results in
      match history with
      | [] =>
          let singleURL := yearURL vType brandId modelId yearId in
          res2 ← fetch net singleURL;
          match res2 with
          | Err err2 =>
              ret (httpError ("history fetch failed: " +:+ err
                              +:+ ", fallback failed: " +:+ err2) StatusBadGateway)
          | Ok single => ret (finishHistory now [single])
          end
      | _ => ret (finishHistory now history)
      end
  end.

(** ** Initial state and running a handler *)

Definition emptyRegistry : registry :=
  {| counters := fun _ => ∅; gauges := fun _ => ∅ |}.

Definition emptyWorld : world :=
  {| metrics := emptyRegistry; cache := ∅; trace := [] |}.

Definition responseOf {A} (m : M A) (w : world) : option A := (m w).1.
Definition worldAfter {A} (m : M A) (w : world) : world := (m w).2.

(** The URL and the label values [handleGetPrice] computes from a request. *)
Definition priceURL (r : Request) : string :=
  yearURL (QueryGet r "type") (QueryGet r "brandId") (QueryGet r "modelId")
          (QueryGet r "yearId").

Definition searchLabels (r : Request) : list string :=
  [QueryGet r "brandName"; QueryGet r "modelName"; QueryGet r "yearId"].

Definition brandLabels (r : Request) : list string := [QueryGet r "brandName"].

(** The world of [handleGetPrice] when the upstream fetch has just been
    issued. *)
Definition atFetch (net : upstream) (r : Request) (w : world) : world :=
  worldAfter (fetch net (priceURL r))
    (worldAfter (Inc brandCounter (brandLabels r))
       (worldAfter (Inc vehicleSearchStats (searchLabels r))
          (worldAfter (recordMetrics "/api/price" (Method r)) w))).

(** After the fetch [handleGetPrice] only sets gauges and counts the fuel. *)
Definition afterFetchEvent (e : event) : Prop :=
  match e with
  | EvFetch _ => False
  | EvInc c _ => c = fuelCounter
  | EvSet _ _ _ => True
  end.

(** The vehicle type, the cache key and the URL [handleGetBrands] computes
    from a request. *)
Definition brandsType (r : Request) : string :=
  if String.eqb (QueryGet r "type") "" then "cars" else QueryGet r "type".

Definition brandsKey (r : Request) : string := "brands:" +:+ brandsType r.

Definition brandsURL (r : Request) : string :=
  BaseURL +:+ "/" +:+ brandsType r +:+ "/brands".

(** The world of [handleGetBrands] once the request is counted. *)
Definition brandsCounted (r : Request) (w : world) : world :=
  worldAfter (recordMetrics "/api/brands" (Method r)) w.

(** ** The history handler's URLs and probes, by request *)

Definition histURL (r : Request) : string :=
  yearURL (QueryGet r "type") (QueryGet r "brandId") (QueryGet r "modelId")
          (QueryGet r "yearId")
    +:+ "/history?months=" +:+ Strconv.Itoa (monthsOf r).

(** The reference string and the candidates of the goroutine of [offset]. *)
Definition refAt (now : Gotime.date) (offset : nat) : string :=
  Gotime.Format_2006_01 (Gotime.AddMonths now (- Z.of_nat offset)).

Definition candidatesAt (now : Gotime.date) (r : Request) (offset : nat) : list string :=
  candidates (QueryGet r "type") (QueryGet r "brandId") (QueryGet r "modelId")
             (QueryGet r "yearId") (refAt now offset).

Definition probeAt (net : upstream) (now : Gotime.date) (r : Request) (offset : nat)
  : option payload :=
  probeMonth net now (QueryGet r "type") (QueryGet r "brandId")
             (QueryGet r "modelId") (QueryGet r "yearId") offset.

(** The test [len(results[i]) > 0] fails: the slot is nil, or the bytes
    stored in it are none. *)
Definition slotEmpty (slot : option payload) : bool :=
  match slot with
  | Some p => negb (nonEmpty p)
  | None => true
  end.

(** A candidate the loop passes over: its fetch fails, or its body decodes as
    a [PriceResponse] with an empty price. *)
Definition passedOver (net : upstream) (u : string) : Prop :=
  match fetchExternal net u with
  | Err _ => True
  | Ok b => exists pr, UnmarshalPriceResponse b = Some pr /\ Price pr = ""
  end.

(** "Current month minus i": the year and the month [i] calendar months before
    the month of [now]. *)
Definition monthMinus (now : Gotime.date) (i : nat) : Z * Z :=
  let k := 12 * Gotime.Year now + (Gotime.Month now - 1) - Z.of_nat i in
  (k / 12, k mod 12 + 1).

(** A year and a month formatted MM/YYYY. *)
Definition specLabel (ym : Z * Z) : string :=
  Gotime.pad 2 ym.2 +:+ "/" +:+ Strconv.Itoa ym.1.

(** The reference-month label a history entry carries. *)
Definition refMonthOf (j : json) : option json :=
  match j with
  | JObj l => member "referenceMonth" l
  | _ => None
  end.

Definition isObject (p : payload) : Prop := exists l, p = Json (JObj l).

(** ** The price parser, in the words of the specification *)

Definition bytes (s : string) : list ascii := String.list_ascii_of_string s.

Definition isPoint (c : ascii) : bool := Ascii.eqb c ".".
Definition isComma (c : ascii) : bool := Ascii.eqb c ",".
Definition commaToPoint (c : ascii) : ascii := if isComma c then "."%char else c.

(** "If both appear, dot is thousands-separator and comma is decimal; if only
    comma appears, treat comma as decimal; otherwise parse as-is": the text
    handed to the float parser for the numeric part [m]. *)
Definition specDecimalText (m : string) : string :=
  if existsb isPoint (bytes m) && existsb isComma (bytes m) then
    String.string_of_list_ascii
      (map commaToPoint (List.filter (fun c => negb (isPoint c)) (bytes m)))
  else if existsb isComma (bytes m) then
    String.string_of_list_ascii (map commaToPoint (bytes m))
  else m.

(** A string that does not go on with a byte of the class [[0-9,.]]. *)
Definition startsOutside (s : string) : Prop :=
  match s with
  | String c _ => Regexp.numericClass c = false
  | EmptyString => True
  end.

(** The bytes are all below 0x80. *)
Definition isASCII (s : string) : bool :=
  forallb (Utf8.between 0 127) (String.list_ascii_of_string s).

(** Every string of the record is valid UTF-8, as the strings of a record
    decoded from JSON are. *)
Definition validStrings (pr : PriceResponse) : Prop :=
  Forall (fun s => Utf8.ValidString s = true)
    [Price pr; Brand pr; Model pr; Fuel pr; CodeFipe pr; ReferenceMonth pr;
     AcronymFuel pr].

(** The label values [handleGetPrice] takes from the request are accepted by
    [WithLabelValues]: brandName, modelName and yearId are valid UTF-8. *)
Definition validSearch (r : Request) : bool :=
  validLabelValues (counterLabels vehicleSearchStats) (searchLabels r).

(** The final pass of the history handler can decode the entry: as a price
    record, or as an object (all of whose numbers fit a float64). *)
Definition decodable (p : payload) : bool :=
  match UnmarshalPriceResponse p, UnmarshalMap p with
  | None, None => false
  | _, _ => true
  end.

(** The bytes are a JSON text. *)
Definition isJson (p : payload) : bool :=
  match p with Json _ => true | Raw _ => false end.

(** A decimal numeral: a sign, which may be absent, and the digits [d]; its
    value. *)
Definition isSign (sign : string) : Prop := sign = "" \/ sign = "+" \/ sign = "-".

Definition numeral (sign : string) (d : Decimal.uint) : string :=
  sign +:+ NilEmpty.string_of_uint d.

Definition numeralValue (sign : string) (d : Decimal.uint) : Z :=
  if String.eqb sign "-" then - Z.of_uint d else Z.of_uint d.

(** A request for the history of as many months as the text says. *)
Definition monthsRequest (months : string) : Request :=
  {| Method := "GET"; Query := {["months" := [months]]}; MethodOk := eq_refl |}.

(** ** Sample inputs *)

Definition sampleRequest : Request :=
  {| Method := "GET";
     Query := list_to_map [("type", ["cars"]); ("brandId", ["23"]);
                           ("modelId", ["5585"]); ("yearId", ["2014-1"]);
                           ("brandName", ["VW"]); ("modelName", ["Gol"])];
     MethodOk := eq_refl |}.

Definition samplePrice : PriceResponse :=
  {| Price := "R$ 10.000,00"; Brand := "VW"; Model := "Gol 1.0"; ModelYear := 2014;
     Fuel := "Gasoline"; CodeFipe := "005004-1"; ReferenceMonth := "marco de 2025";
     VehicleType := 1; AcronymFuel := "G" |}.

Definition samplePayload : payload := MarshalPriceResponse samplePrice.

Definition sampleUpstream : upstream := fun _ => Replied 200 samplePayload.

(** A price payload without the fuel. *)
Definition noFuelPayload : payload :=
  Json (JObj [("price", JStr "R$ 10.000,00"); ("brand", JStr "VW");
              ("model", JStr "Gol 1.0"); ("modelYear", JNum (NInt 2014))]).

Definition dearerPayload : payload :=
  Json (JObj [("price", JStr "R$ 12.000,00"); ("brand", JStr "VW");
              ("model", JStr "Gol 1.0"); ("modelYear", JNum (NInt 2014))]).

(** A request for three months of history. *)
Definition historyRequest : Request :=
  {| Method := "GET";
     Query := list_to_map [("type", ["cars"]); ("brandId", ["23"]);
                           ("modelId", ["5585"]); ("yearId", ["2014-1"]);
                           ("months", ["3"])];
     MethodOk := eq_refl |}.

Definition midMonth : Gotime.date :=
  {| Gotime.Year := 2025; Gotime.Month := 3; Gotime.Day := 15 |}.

Definition monthEnd : Gotime.date :=
  {| Gotime.Year := 2025; Gotime.Month := 3; Gotime.Day := 31 |}.

(** An upstream that answers every request with status 200 and an error
    object. *)
Definition errorObjectUpstream : upstream :=
  fun _ => Replied 200 (Json (JObj [("error", JStr "invalid reference")])).

(** An upstream that answers every URL with status 200 and no body. *)
Definition emptyBodyUpstream : upstream := fun _ => Replied 200 (Raw "").

(** An upstream that knows the price endpoint only and serves an HTML page
    there. *)
Definition htmlUpstream : upstream :=
  fun u =>
    if String.eqb u (priceURL historyRequest)
    then Replied 200 (Raw "<html>maintenance</html>")
    else Replied 404 (Raw "Not Found").

(** An upstream that knows the price endpoint only. *)
Definition priceOnlyUpstream : upstream :=
  fun u =>
    if String.eqb u (priceURL historyRequest)
    then Replied 200 (Json (JObj [("price", JStr "R$ 10.000,00")]))
    else Replied 404 (Raw "Not Found").

(** An upstream that is down. *)
Definition downUpstream : upstream := fun _ => Failed "connection refused".

(** A price record that reports a reference month of its own. *)
Definition datedPayload : payload :=
  Json (JObj [("price", JStr "R$ 10.000,00"); ("brand", JStr "VW");
              ("model", JStr "Gol 1.0"); ("modelYear", JNum (NInt 2014));
              ("fuel", JStr "Gasoline"); ("referenceMonth", JStr "fevereiro de 2020")]).

(** An upstream that answers the first candidate of every month with status
    200 and no body, and everything else with [datedPayload]. *)
Definition emptyFirstUpstream : upstream :=
  fun u =>
    if Strings.Contains u "?referenceMonth="
    then Replied 200 (Raw "")
    else Replied 200 datedPayload.

(** An upstream without the native history endpoint that answers the first
    candidate of every month with [datedPayload]. *)
Definition datedUpstream : upstream :=
  fun u =>
    if Strings.Contains u "?referenceMonth="
    then Replied 200 datedPayload
    else Replied 404 (Raw "Not Found").



(** A price object whose model year is the number 1e999. *)
Definition hugeYearBody : json :=
  JObj [("price", JStr "R$ 10.000,00"); ("modelYear", JNum (NDecimal false 1 999))].

Definition hugeYearUpstream : upstream :=
  fun u =>
    if Strings.Contains u "?referenceMonth="
    then Replied 200 (Json hugeYearBody)
    else Replied 404 (Raw "Not Found").

(** The body of the native history endpoint, as the text and as the Go value
    decoded from it. *)
Definition nativeDocument : json :=
  JObj [("history",
         JArr [JObj [("price", JStr "R$ 10.000,00")];
               JObj [("price", JStr "R$ 9.900,00")];
               JObj [("price", JStr "R$ 9.800,00")]])].

Definition nativeItems : list value :=
  [VMap {["price" := VStr "R$ 10.000,00"]};
   VMap {["price" := VStr "R$ 9.900,00"]};
   VMap {["price" := VStr "R$ 9.800,00"]}].

Definition nativeBody : gmap string value := {["history" := VArr nativeItems]}.

(** An upstream with the native history endpoint. *)
Definition nativeUpstream : upstream :=
  fun u =>
    if String.eqb u (histURL historyRequest)
    then Replied 200 (Json nativeDocument)
    else Replied 404 (Raw "Not Found").

(** A price request whose brandName is the single byte 0xFF (brandName=%FF
    in the URL). *)
Definition badLabelRequest : Request :=
  {| Method := "GET";
     Query := list_to_map [("type", ["cars"]); ("brandId", ["23"]);
                           ("modelId", ["5585"]); ("yearId", ["2014-1"]);
                           ("brandName", [String (ascii_of_nat 255) ""]);
                           ("modelName", ["Gol"])];
     MethodOk := eq_refl |}.

(** A brands request without a type. *)
Definition brandsRequest : Request :=
  {| Method := "GET"; Query := ∅; MethodOk := eq_refl |}.

(** ** More notions for stating properties *)

(** The number of bytes of [s] that satisfy [p]. *)
Definition countBytes (p : ascii -> bool) (s : string) : nat :=
  length (List.filter p (bytes s)).

Definition hasDigit (s : string) : bool := existsb Regexp.isDigit (bytes s).

(** The decimal points the float parser will see in the numeric part [m]:
    its commas when it has one (the points, if any, are dropped), its points
    otherwise. *)
Definition separators (m : string) : nat :=
  if existsb isComma (bytes m) then countBytes isComma m else countBytes isPoint m.

(** The range of Go's [int] on a 64-bit platform, and the records whose [int]
    fields are within it (every record of the program is). *)
Definition inIntRange (z : Z) : Prop := Strconv.minInt <= z <= Strconv.maxInt.

Definition wellRanged (pr : PriceResponse) : Prop :=
  inIntRange (ModelYear pr) /\ inIntRange (VehicleType pr).

(** ** The cached handlers' keys and URLs, by request *)

Definition modelsKey (r : Request) : string :=
  "models:" +:+ QueryGet r "type" +:+ ":" +:+ QueryGet r "brandId".

Definition modelsURL (r : Request) : string :=
  BaseURL +:+ "/" +:+ QueryGet r "type" +:+ "/brands/" +:+ QueryGet r "brandId"
          +:+ "/models".

Definition yearsKey (r : Request) : string :=
  "years:" +:+ QueryGet r "type" +:+ ":" +:+ QueryGet r "brandId" +:+ ":"
           +:+ QueryGet r "modelId".

Definition yearsURL (r : Request) : string :=
  BaseURL +:+ "/" +:+ QueryGet r "type" +:+ "/brands/" +:+ QueryGet r "brandId"
          +:+ "/models/" +:+ QueryGet r "modelId" +:+ "/years".

(** The world once [recordMetrics(path, r.Method)] has run. *)
Definition counted (path : string) (r : Request) (w : world) : world :=
  worldAfter (recordMetrics path (Method r)) w.

(** The world of a cached handler that missed the cache and fetched [url]:
    the payload stored on success, nothing stored on an error. *)
Definition afterMiss (net : upstream) (later : instant) (path key url : string)
    (ttl : Z) (r : Request) (w : world) : world :=
  let w1 := worldAfter (fetch net url) (counted path r w) in
  match fetchExternal net url with
  | Err _ => w1
  | Ok d => worldAfter (storeCache later key d ttl) w1
  end.

Definition noColon (s : string) : Prop := Forall (fun c => c <> ":"%char) (bytes s).

(** The request counter went up by one under [path] and the method of the
    request, and under no other labels. *)
Definition countedOnce (path : string) (r : Request) (w w' : world) : Prop :=
  counterValue (metrics w') httpRequestsTotal [path; Method r]
    = S (counterValue (metrics w) httpRequestsTotal [path; Method r]) /\
  forall lvs, lvs <> [path; Method r] ->
    counterValue (metrics w') httpRequestsTotal lvs
      = counterValue (metrics w) httpRequestsTotal lvs.

(** No metric but the request counter changed. *)
Definition otherMetricsKept (w w' : world) : Prop :=
  (forall c, c <> httpRequestsTotal ->
     counters (metrics w') c = counters (metrics w) c) /\
  gauges (metrics w') = gauges (metrics w).

(** The cache changed under [key] at most, and lost no entry. *)
Definition cacheFrame (key : string) (w w' : world) : Prop :=
  (forall k, k <> key -> cache w' !! k = cache w !! k) /\
  (forall k, is_Some (cache w !! k) -> is_Some (cache w' !! k)).

(** Every body the upstream sends with status 200 is a JSON text. *)
Definition jsonUpstream (net : upstream) : Prop :=
  forall u b, fetchExternal net u = Ok b -> isJson b = true.

(** An upstream without the native history endpoint that answers the first
    candidate of February 2025 with an HTML page and the first candidate of
    every other month with [datedPayload]. *)
Definition pageUpstream : upstream :=
  fun u =>
    if Strings.Contains u "?referenceMonth=2025-02"
    then Replied 200 (Raw "<html>maintenance</html>")
    else datedUpstream u.

(** An upstream without the native history endpoint that has a record for
    February 2025 only, under the first candidate. *)
Definition gapUpstream : upstream :=
  fun u =>
    if Strings.Contains u "?referenceMonth=2025-02"
    then Replied 200 datedPayload
    else Replied 404 (Raw "Not Found").

(** Like [gapUpstream], with an HTML page for January 2025. *)
Definition gapPageUpstream : upstream :=
  fun u =>
    if Strings.Contains u "?referenceMonth=2025-01"
    then Replied 200 (Raw "<html>maintenance</html>")
    else gapUpstream u.

(** No gauge holds a negative value. *)
Definition gaugesNonneg (w : world) : Prop :=
  forall g lvs v, gaugeValue (metrics w) g lvs = Some v -> (0 <= v)%Q.

(** * Properties *)

(** ** Valid UTF-8 *)

Lemma append_cons (c : ascii) (s t : string) :
  String c s +:+ t = String c (s +:+ t).
Proof. reflexivity. Qed.

Lemma append_nil_l (s : string) : "" +:+ s = s.
Proof. reflexivity. Qed.

Lemma length_append (s t : string) :
  String.length (s +:+ t) = (String.length s + String.length t)%nat.
Proof. induction s as [|c s IH]; [reflexivity|]. rewrite append_cons. cbn. lia. Qed.

Section Utf8Facts.
Import Utf8.

Lemma tailOk_prefix (n lo hi : nat) (s : string) :
  tailOk (S n) lo hi s = true ->
  exists pre rest, s = pre +:+ rest /\ String.length pre = n /\
                   forall t, tailOk (S n) lo hi (pre +:+ t) = true.
Proof.
  destruct n as [|[|[|[|n]]]]; cbn [tailOk].
  - intros _. exists "", s. repeat split.
  - destruct s as [|c1 s]; [discriminate|]. intros H.
    exists (String c1 ""), s. repeat split. intros t. exact H.
  - destruct s as [|c1 [|c2 s]]; try discriminate. intros H.
    exists (String c1 (String c2 "")), s. repeat split. intros t. exact H.
  - destruct s as [|c1 [|c2 [|c3 s]]]; try discriminate. intros H.
    exists (String c1 (String c2 (String c3 ""))), s. repeat split. intros t. exact H.
  - destruct s; discriminate.
Qed.

Lemma shape_pos (c : ascii) (n lo hi : nat) :
  shape c = Some (n, lo, hi) -> exists k, n = S k.
Proof.
  unfold shape.
  repeat match goal with
         | |- context [if ?b then _ else _] => destruct b
         end; intros [= <- <- <-]; eauto.
Qed.

(** The encoding at the front of a string is a prefix of it, and its width
    depends on that prefix only. *)
Lemma runeLen_prefix (s : string) (k : nat) :
  runeLen s = S k ->
  exists c pre rest, s = String c (pre +:+ rest) /\ String.length pre = k /\
                     forall t, runeLen (String c (pre +:+ t)) = S k.
Proof.
  destruct s as [|c s]; [discriminate|]. cbn [runeLen].
  destruct (shape c) as [[[n lo] hi]|] eqn:Hs; [|discriminate].
  destruct (shape_pos _ _ _ _ Hs) as [k' ->].
  destruct (tailOk (S k') lo hi s) eqn:Ht; [|discriminate].
  intros [= ->].
  destruct (tailOk_prefix _ _ _ _ Ht) as (pre & rest & -> & Hlen & Hall).
  exists c, pre, rest. split; [reflexivity|]. split; [exact Hlen|].
  intros t. cbn [runeLen]. rewrite Hs, Hall. reflexivity.
Qed.

Lemma validFrom_skip (pre t : string) :
  validFrom (String.length pre) (pre +:+ t) = validFrom 0 t.
Proof.
  induction pre as [|c pre IH]; [reflexivity|].
  rewrite append_cons. exact IH.
Qed.

Lemma coerceFrom_skip (pre t : string) :
  coerceFrom (String.length pre) (pre +:+ t) = pre +:+ coerceFrom 0 t.
Proof.
  induction pre as [|c pre IH]; [reflexivity|].
  rewrite !append_cons. cbn [String.length coerceFrom]. rewrite IH. reflexivity.
Qed.

Lemma validFrom_rune (c : ascii) (pre t : string) :
  runeLen (String c (pre +:+ t)) = S (String.length pre) ->
  validFrom 0 (String c (pre +:+ t)) = validFrom 0 t.
Proof.
  intros H. cbn [validFrom]. rewrite H. apply validFrom_skip.
Qed.

Lemma coerceFrom_rune (c : ascii) (pre t : string) :
  runeLen (String c (pre +:+ t)) = S (String.length pre) ->
  coerceFrom 0 (String c (pre +:+ t)) = String c (pre +:+ coerceFrom 0 t).
Proof.
  intros H. cbn [coerceFrom]. rewrite H, coerceFrom_skip. reflexivity.
Qed.

Lemma ToValid_valid_bounded (n : nat) (s : string) :
  (String.length s <= n)%nat -> ValidString (ToValid s) = true.
Proof.
  unfold ValidString, ToValid. revert s.
  induction n as [|n IH]; intros s Hlen.
  - destruct s; [reflexivity | cbn in Hlen; lia].
  - destruct s as [|c s]; [reflexivity|].
    destruct (runeLen (String c s)) as [|k] eqn:Hr.
    + cbn [coerceFrom]. rewrite Hr.
      change (RuneError +:+ coerceFrom 0 s)
        with (String (ascii_of_nat 239)
                (String (ascii_of_nat 191) (String (ascii_of_nat 189) "")
                 +:+ coerceFrom 0 s)).
      rewrite validFrom_rune by reflexivity.
      apply IH. cbn in Hlen. lia.
    + destruct (runeLen_prefix _ _ Hr) as (c' & pre & rest & Heq & Hk & Hall).
      rewrite Heq. subst k.
      rewrite coerceFrom_rune by apply Hall.
      rewrite validFrom_rune by apply Hall.
      apply IH. rewrite Heq in Hlen. cbn in Hlen. rewrite length_append in Hlen. lia.
Qed.

(** What is read from a JSON text, or written to one, is valid UTF-8. *)
Lemma ToValid_valid (s : string) : ValidString (ToValid s) = true.
Proof. exact (ToValid_valid_bounded (String.length s) s (le_n _)). Qed.

Lemma ToValid_id_bounded (n : nat) (s : string) :
  (String.length s <= n)%nat -> ValidString s = true -> ToValid s = s.
Proof.
  unfold ValidString, ToValid. revert s.
  induction n as [|n IH]; intros s Hlen.
  - destruct s; [reflexivity | cbn in Hlen; lia].
  - destruct s as [|c s]; [reflexivity|].
    destruct (runeLen (String c s)) as [|k] eqn:Hr.
    + cbn [validFrom]. rewrite Hr. discriminate.
    + destruct (runeLen_prefix _ _ Hr) as (c' & pre & rest & Heq & Hk & Hall).
      rewrite Heq. subst k.
      rewrite coerceFrom_rune by apply Hall.
      rewrite validFrom_rune by apply Hall.
      intros Hv. rewrite IH; [reflexivity | | exact Hv].
      rewrite Heq in Hlen. cbn in Hlen. rewrite length_append in Hlen. lia.
Qed.

(** The coercion leaves a valid string as it is. *)
Lemma ToValid_id (s : string) : ValidString s = true -> ToValid s = s.
Proof. exact (ToValid_id_bounded (String.length s) s (le_n _)). Qed.

Lemma ToValid_idem (s : string) : ToValid (ToValid s) = ToValid s.
Proof. apply ToValid_id, ToValid_valid. Qed.

Lemma ASCII_valid (s : string) : isASCII s = true -> ValidString s = true.
Proof.
  unfold isASCII, ValidString.
  induction s as [|c s IH]; [reflexivity|].
  cbn [String.list_ascii_of_string forallb]. intros H.
  apply andb_true_iff in H as [Hc Hs].
  cbn [validFrom runeLen]. unfold shape. rewrite Hc. cbn [tailOk].
  apply IH, Hs.
Qed.



Lemma isTokenByte_ASCII (c : ascii) : isTokenByte c = true -> between 0 127 c = true.
Proof.
  unfold isTokenByte, between. cbn [existsb]. intros H.
  repeat (apply orb_true_iff in H as [H|H]);
    first [ discriminate H
          | apply Ascii.eqb_eq in H; subst c; reflexivity
          | apply andb_true_iff in H as [H1 H2]; apply Nat.leb_le in H1, H2;
            apply andb_true_iff; split; apply Nat.leb_le; lia ].
Qed.

(** The method of a request that is served is valid UTF-8. *)
Lemma Method_valid (r : Request) : ValidString (Method r) = true.
Proof.
  apply ASCII_valid. pose proof (MethodOk r) as H. unfold validMethod in H.
  apply andb_true_iff in H as [_ H]. unfold isASCII.
  apply forallb_forall. intros c Hc.
  apply isTokenByte_ASCII. exact (proj1 (forallb_forall _ _) H c Hc).
Qed.
End Utf8Facts.

(** ** The cache *)

(** C5. A get that follows a put of a positive TTL, at the same instant or at
    any instant up to the expiry, returns the stored bytes and found = true;
    once the instant is past [expiresAt] the get returns found = false, and so
    does a get of a key that is not in the map. *)
Theorem getCached_after_setCached
    (c : gmap string cacheItem) (key : string) (d : payload)
    (ttl : Z) (t0 t1 : instant) :
  0 < ttl -> t0 <= t1 ->
  getCached t0 (setCached t0 c key d ttl) key = (d, true) /\
  (t1 <= t0 + ttl -> getCached t1 (setCached t0 c key d ttl) key = (d, true)) /\
  (t0 + ttl < t1 ->
   getCached t1 (setCached t0 c key d ttl) key = (nilBytes, false)) /\
  (forall k, c !! k = None -> getCached t1 c k = (nilBytes, false)).
Proof.
  intros Httl Hle. unfold getCached, setCached.
  rewrite lookup_insert_eq. cbn [expiresAt data].
  repeat split.
  - destruct (Z.gtb_spec t0 (t0 + ttl)); [lia | reflexivity].
  - intros H. destruct (Z.gtb_spec t1 (t0 + ttl)); [lia | reflexivity].
  - intros H. destruct (Z.gtb_spec t1 (t0 + ttl)); [reflexivity | lia].
  - intros k Hk. rewrite Hk. reflexivity.
Qed.

Lemma getCached_after_setCached_witness :
  getCached 5 (setCached 0 ∅ "brands:cars" (Json (JArr [])) 10) "brands:cars"
  = (Json (JArr []), true).
Proof.
  destruct (getCached_after_setCached ∅ "brands:cars" (Json (JArr [])) 10 0 5)
    as (_ & H & _); [lia | lia |].
  apply H. lia.
Defined.

(** ** Running handlers *)

Lemma bind_run {A B} (m : M A) (k : A -> M B) (w : world) :
  (m ≫= k) w =
  match (m w).1 with
  | Some a => k a (m w).2
  | None => (None, (m w).2)
  end.
Proof. unfold mbind, M_bind. destruct (m w) as [[a|] w']; reflexivity. Qed.

Lemma bind_run_Some {A B} (m : M A) (k : A -> M B) (w : world) (a : A) :
  responseOf m w = Some a -> (m ≫= k) w = k a (worldAfter m w).
Proof. unfold responseOf, worldAfter. intros H. rewrite bind_run, H. reflexivity. Qed.

Lemma bind_run_None {A B} (m : M A) (k : A -> M B) (w : world) :
  responseOf m w = None -> (m ≫= k) w = (None, worldAfter m w).
Proof. unfold responseOf, worldAfter. intros H. rewrite bind_run, H. reflexivity. Qed.

Lemma worldAfter_ret {A} (a : A) (w : world) : worldAfter (ret a) w = w.
Proof. reflexivity. Qed.

Lemma run_pair {A} (m : M A) (w : world) : m w = (responseOf m w, worldAfter m w).
Proof. unfold responseOf, worldAfter. destruct (m w). reflexivity. Qed.

Section MetricEffects.
Variables (w : world).

Lemma Inc_run c lvs :
  validLabelValues (counterLabels c) lvs = true -> responseOf (Inc c lvs) w = Some tt.
Proof. intros H. unfold responseOf, Inc. rewrite H. reflexivity. Qed.

Lemma Inc_panic c lvs :
  validLabelValues (counterLabels c) lvs = false -> Inc c lvs w = (None, w).
Proof. intros H. unfold Inc. rewrite H. reflexivity. Qed.

Lemma Inc_trace c lvs :
  validLabelValues (counterLabels c) lvs = true ->
  trace (worldAfter (Inc c lvs) w) = trace w ++ [EvInc c lvs].
Proof. intros H. unfold worldAfter, Inc. rewrite H. reflexivity. Qed.

Lemma Inc_counters c lvs c' :
  validLabelValues (counterLabels c) lvs = true ->
  counters (metrics (worldAfter (Inc c lvs) w)) c' =
  if decide (c' = c)
  then <[lvs := S (counterValue (metrics w) c lvs)]> (counters (metrics w) c')
  else counters (metrics w) c'.
Proof. intros H. unfold worldAfter, Inc. rewrite H. reflexivity. Qed.

Lemma Inc_gauges c lvs :
  gauges (metrics (worldAfter (Inc c lvs) w)) = gauges (metrics w).
Proof.
  unfold worldAfter, Inc.
  destruct (validLabelValues (counterLabels c) lvs); reflexivity.
Qed.

Lemma Inc_cache c lvs : cache (worldAfter (Inc c lvs) w) = cache w.
Proof.
  unfold worldAfter, Inc.
  destruct (validLabelValues (counterLabels c) lvs); reflexivity.
Qed.

Lemma SetGauge_run g lvs v :
  validLabelValues (gaugeLabels g) lvs = true -> responseOf (SetGauge g lvs v) w = Some tt.
Proof. intros H. unfold responseOf, SetGauge. rewrite H. reflexivity. Qed.

Lemma SetGauge_trace g lvs v :
  validLabelValues (gaugeLabels g) lvs = true ->
  trace (worldAfter (SetGauge g lvs v) w) = trace w ++ [EvSet g lvs v].
Proof. intros H. unfold worldAfter, SetGauge. rewrite H. reflexivity. Qed.

Lemma SetGauge_gauges g lvs v g' :
  validLabelValues (gaugeLabels g) lvs = true ->
  gauges (metrics (worldAfter (SetGauge g lvs v) w)) g' =
  if decide (g' = g) then <[lvs := v]> (gauges (metrics w) g') else gauges (metrics w) g'.
Proof. intros H. unfold worldAfter, SetGauge. rewrite H. reflexivity. Qed.

Lemma SetGauge_counters g lvs v :
  counters (metrics (worldAfter (SetGauge g lvs v) w)) = counters (metrics w).
Proof.
  unfold worldAfter, SetGauge.
  destruct (validLabelValues (gaugeLabels g) lvs); reflexivity.
Qed.

Lemma SetGauge_cache g lvs v : cache (worldAfter (SetGauge g lvs v) w) = cache w.
Proof.
  unfold worldAfter, SetGauge.
  destruct (validLabelValues (gaugeLabels g) lvs); reflexivity.
Qed.

Lemma fetch_run net url : responseOf (fetch net url) w = Some (fetchExternal net url).
Proof. reflexivity. Qed.

Lemma fetch_world net url :
  worldAfter (fetch net url) w =
  {| metrics := metrics w; cache := cache w; trace := trace w ++ [EvFetch url] |}.
Proof. reflexivity. Qed.

(** Counting the request never panics: the path is a constant of the
    program and the method is a token. *)
Lemma recordMetrics_valid path (r : Request) :
  Utf8.ValidString path = true ->
  validLabelValues (counterLabels httpRequestsTotal) [path; Method r] = true.
Proof.
  intros H. unfold validLabelValues. cbn [length counterLabels Nat.eqb forallb andb].
  rewrite H, Method_valid. reflexivity.
Qed.

Lemma recordMetrics_run path (r : Request) :
  Utf8.ValidString path = true ->
  recordMetrics path (Method r) w = (Some tt, counted path r w).
Proof.
  intros H. rewrite run_pair. unfold recordMetrics at 1.
  rewrite Inc_run by (apply recordMetrics_valid, H). reflexivity.
Qed.

Lemma counted_trace path (r : Request) :
  Utf8.ValidString path = true ->
  trace (counted path r w) = trace w ++ [EvInc httpRequestsTotal [path; Method r]].
Proof. intros H. apply Inc_trace, recordMetrics_valid, H. Qed.

Lemma counted_counters path (r : Request) c :
  Utf8.ValidString path = true ->
  counters (metrics (counted path r w)) c =
  if decide (c = httpRequestsTotal)
  then <[[path; Method r] := S (counterValue (metrics w) httpRequestsTotal [path; Method r])]>
         (counters (metrics w) c)
  else counters (metrics w) c.
Proof. intros H. apply Inc_counters, recordMetrics_valid, H. Qed.

Lemma counted_gauges path (r : Request) :
  gauges (metrics (counted path r w)) = gauges (metrics w).
Proof. apply Inc_gauges. Qed.

Lemma counted_cache path (r : Request) : cache (counted path r w) = cache w.
Proof. apply Inc_cache. Qed.

End MetricEffects.

(** ** Decoded records *)

Lemma setField_valid (f : field) (v : json) (pr pr' : PriceResponse) :
  validStrings pr -> setField f v pr = Some pr' -> validStrings pr'.
Proof.
  unfold validStrings. intros H.
  destruct v as [| |n|s| |]; cbn [setField]; try discriminate.
  - intros [= <-]. exact H.
  - destruct (intOf n) as [z|]; [|discriminate].
    destruct (isIntField f && _ && _); [|discriminate]. intros [= <-]. exact H.
  - destruct (isIntField f); [discriminate|]. intros [= <-].
    pose proof (Utf8.ToValid s) as t. pose proof (ToValid_valid s) as Ht.
    inversion H as [|? ? H1 H']; subst. inversion H' as [|? ? H2 H'']; subst.
    inversion H'' as [|? ? H3 H3']; subst. inversion H3' as [|? ? H4 H4']; subst.
    inversion H4' as [|? ? H5 H5']; subst. inversion H5' as [|? ? H6 H6']; subst.
    inversion H6' as [|? ? H7 _]; subst.
    destruct f; cbn [setString Price Brand Model Fuel CodeFipe ReferenceMonth AcronymFuel];
      repeat constructor; assumption.
Qed.

Lemma decodeMembers_valid (l : list (string * json)) (pr pr' : PriceResponse) :
  validStrings pr -> decodeMembers l pr = Some pr' -> validStrings pr'.
Proof.
  revert pr. induction l as [|[k v] l IH]; intros pr H; cbn [decodeMembers].
  - intros [= <-]. exact H.
  - destruct (fieldOfKey (Utf8.ToValid k)) as [f|]; [|apply IH, H].
    destruct (setField f v pr) as [pr1|] eqn:E; [|discriminate].
    apply IH. exact (setField_valid _ _ _ _ H E).
Qed.

(** The strings of a record that was decoded are valid UTF-8. *)
Lemma Unmarshal_valid (d : payload) (pr : PriceResponse) :
  UnmarshalPriceResponse d = Some pr -> validStrings pr.
Proof.
  assert (H0 : validStrings zeroPriceResponse) by (repeat constructor).
  destruct d as [b|j]; [discriminate|]. destruct j; try discriminate; cbn.
  - intros [= <-]. exact H0.
  - apply decodeMembers_valid, H0.
Qed.

Lemma validStrings_labels (pr : PriceResponse) (yearId : string) :
  validStrings pr -> Utf8.ValidString yearId = true ->
  validLabelValues 3 [Brand pr; Model pr; yearId] = true /\
  validLabelValues 1 [Fuel pr] = true.
Proof.
  unfold validStrings. intros H Hy.
  inversion H as [|? ? H1 H']; subst. inversion H' as [|? ? H2 H'']; subst.
  inversion H'' as [|? ? H3 H3']; subst. inversion H3' as [|? ? H4 _]; subst.
  unfold validLabelValues. cbn [length Nat.eqb forallb andb].
  rewrite H2, H3, H4, Hy. split; reflexivity.
Qed.

(** ** The price handler *)

Section ObservePrice.
Variables (yearId : string) (d : payload) (w : world).
Hypothesis yearId_valid : Utf8.ValidString yearId = true.

Lemma observePrice_undecoded :
  UnmarshalPriceResponse d = None -> worldAfter (observePrice yearId d) w = w.
Proof. intros H. unfold observePrice. rewrite H. reflexivity. Qed.

(** What the observation does when the payload decodes, step by step. *)
Lemma observePrice_decoded (pr : PriceResponse) :
  UnmarshalPriceResponse d = Some pr ->
  observePrice yearId d w =
  (Some tt,
   let w1 :=
     match parsePrice (Price pr) with
     | Ok f =>
         worldAfter (SetGauge priceMaxGauge [Brand pr; Model pr; yearId] f)
           (worldAfter (SetGauge priceMinGauge [Brand pr; Model pr; yearId] f) w)
     | Err _ => w
     end in
   if String.eqb (Fuel pr) "" then w1 else worldAfter (Inc fuelCounter [Fuel pr]) w1).
Proof.
  intros H. unfold observePrice. rewrite H.
  destruct (validStrings_labels pr yearId (Unmarshal_valid _ _ H) yearId_valid)
    as [Hg Hf].
  cbv zeta.
  destruct (parsePrice (Price pr)) as [e|f].
  - rewrite (bind_run_Some _ _ _ tt) by reflexivity.
    rewrite worldAfter_ret.
    destruct (String.eqb (Fuel pr) ""); cbn [negb]; [reflexivity|].
    rewrite run_pair, Inc_run by exact Hf. reflexivity.
  - rewrite (bind_run_Some _ _ _ tt).
    2:{ unfold responseOf.
        rewrite (bind_run_Some _ _ _ tt) by (apply SetGauge_run, Hg).
        apply SetGauge_run, Hg. }
    assert (Hw : worldAfter (SetGauge priceMinGauge [Brand pr; Model pr; yearId] f ;;
                             SetGauge priceMaxGauge [Brand pr; Model pr; yearId] f) w
                 = worldAfter (SetGauge priceMaxGauge [Brand pr; Model pr; yearId] f)
                     (worldAfter (SetGauge priceMinGauge [Brand pr; Model pr; yearId] f) w)).
    { unfold worldAfter at 1.
      rewrite (bind_run_Some _ _ _ tt) by (apply SetGauge_run, Hg). reflexivity. }
    rewrite Hw.
    destruct (String.eqb (Fuel pr) ""); cbn [negb]; [reflexivity|].
    rewrite run_pair, Inc_run by exact Hf. reflexivity.
Qed.

(** Observing a payload never panics. *)
Lemma observePrice_run : responseOf (observePrice yearId d) w = Some tt.
Proof.
  unfold responseOf. destruct (UnmarshalPriceResponse d) as [pr|] eqn:H.
  - rewrite (observePrice_decoded pr H). reflexivity.
  - unfold observePrice. rewrite H. reflexivity.
Qed.

Lemma observePrice_gauges (pr : PriceResponse) (g : gaugeVec) :
  UnmarshalPriceResponse d = Some pr ->
  gauges (metrics (worldAfter (observePrice yearId d) w)) g =
  match parsePrice (Price pr) with
  | Ok f => <[[Brand pr; Model pr; yearId] := f]> (gauges (metrics w) g)
  | Err _ => gauges (metrics w) g
  end.
Proof.
  intros H. unfold worldAfter at 1. rewrite (observePrice_decoded pr H). cbn [snd].
  destruct (validStrings_labels pr yearId (Unmarshal_valid _ _ H) yearId_valid)
    as [Hg Hf].
  cbv zeta.
  assert (Hfuel : forall w1, gauges (metrics (if String.eqb (Fuel pr) "" then w1
                                     else worldAfter (Inc fuelCounter [Fuel pr]) w1))
                             = gauges (metrics w1)).
  { intros w1. destruct (String.eqb (Fuel pr) ""); [reflexivity | apply Inc_gauges]. }
  rewrite Hfuel.
  destruct (parsePrice (Price pr)) as [e|f]; [reflexivity|].
  rewrite !SetGauge_gauges by exact Hg.
  destruct g; repeat case_decide; try congruence; reflexivity.
Qed.

Lemma observePrice_unparsed (pr : PriceResponse) (e : priceError) :
  UnmarshalPriceResponse d = Some pr -> parsePrice (Price pr) = Err e ->
  gauges (metrics (worldAfter (observePrice yearId d) w)) = gauges (metrics w).
Proof.
  intros H He. unfold worldAfter at 1. rewrite (observePrice_decoded pr H). cbn [snd].
  cbv zeta. rewrite He.
  destruct (String.eqb (Fuel pr) ""); [reflexivity | apply Inc_gauges].
Qed.

Lemma observePrice_counters (pr : PriceResponse) (c : counterVec) :
  UnmarshalPriceResponse d = Some pr ->
  counters (metrics (worldAfter (observePrice yearId d) w)) c =
  if decide (c = fuelCounter) then
    if String.eqb (Fuel pr) "" then counters (metrics w) c
    else <[[Fuel pr] := S (counterValue (metrics w) fuelCounter [Fuel pr])]>
           (counters (metrics w) c)
  else counters (metrics w) c.
Proof.
  intros H. unfold worldAfter at 1. rewrite (observePrice_decoded pr H). cbn [snd].
  destruct (validStrings_labels pr yearId (Unmarshal_valid _ _ H) yearId_valid)
    as [Hg Hf].
  cbv zeta.
  set (w1 := match parsePrice (Price pr) with Ok _ => _ | Err _ => _ end).
  assert (H1 : counters (metrics w1) = counters (metrics w)).
  { subst w1. destruct (parsePrice (Price pr)); [reflexivity|].
    rewrite !SetGauge_counters. reflexivity. }
  destruct (String.eqb (Fuel pr) "").
  - rewrite H1. destruct (decide (c = fuelCounter)); reflexivity.
  - rewrite Inc_counters by exact Hf. unfold counterValue. rewrite H1.
    reflexivity.
Qed.

Lemma observePrice_trace :
  exists rest, trace (worldAfter (observePrice yearId d) w) = trace w ++ rest
               /\ Forall afterFetchEvent rest.
Proof.
  destruct (UnmarshalPriceResponse d) as [pr|] eqn:H.
  2:{ rewrite observePrice_undecoded by exact H.
      exists []. split; [symmetry; apply app_nil_r | constructor]. }
  unfold worldAfter at 1. rewrite (observePrice_decoded pr H). cbn [snd].
  destruct (validStrings_labels pr yearId (Unmarshal_valid _ _ H) yearId_valid)
    as [Hg Hf].
  cbv zeta.
  destruct (parsePrice (Price pr)) as [e|f]; destruct (String.eqb (Fuel pr) "");
    rewrite ?Inc_trace by exact Hf; rewrite ?SetGauge_trace by exact Hg;
    rewrite <- ?app_assoc;
    eexists; (split; [first [reflexivity | symmetry; apply app_nil_r]|]);
    repeat constructor.
Qed.

Lemma observePrice_cache : cache (worldAfter (observePrice yearId d) w) = cache w.
Proof.
  destruct (UnmarshalPriceResponse d) as [pr|] eqn:H.
  2:{ rewrite observePrice_undecoded by exact H. reflexivity. }
  unfold worldAfter at 1. rewrite (observePrice_decoded pr H). cbn [snd]. cbv zeta.
  destruct (parsePrice (Price pr)); destruct (String.eqb (Fuel pr) "");
    rewrite ?Inc_cache, ?SetGauge_cache; reflexivity.
Qed.
End ObservePrice.

Section PriceHandler.
Variables (net : upstream) (r : Request).

Lemma validSearch_labels :
  validSearch r = true ->
  validLabelValues (counterLabels vehicleSearchStats) (searchLabels r) = true /\
  validLabelValues (counterLabels brandCounter) (brandLabels r) = true /\
  Utf8.ValidString (QueryGet r "yearId") = true.
Proof.
  unfold validSearch, searchLabels, brandLabels, validLabelValues.
  cbn [length counterLabels Nat.eqb forallb andb]. intros H.
  apply andb_true_iff in H as [H1 H]. apply andb_true_iff in H as [H2 H].
  apply andb_true_iff in H as [H3 _].
  rewrite H1, H2, H3. repeat split.
Qed.

(** The handler, case by case: it panics at the first search counter when a
    label value of the request is not valid UTF-8. *)
Lemma handleGetPrice_run w :
  handleGetPrice net r w =
  if validSearch r then
    match fetchExternal net (priceURL r) with
    | Err err => (Some (httpError err StatusBadGateway), atFetch net r w)
    | Ok d =>
        (Some (writeJSON d),
         worldAfter (observePrice (QueryGet r "yearId") d) (atFetch net r w))
    end
  else (None, counted "/api/price" r w).
Proof.
  unfold handleGetPrice.
  rewrite (bind_run_Some _ _ _ tt)
    by (unfold responseOf; rewrite recordMetrics_run by reflexivity; reflexivity).
  fold (counted "/api/price" r w). cbv zeta.
  fold (priceURL r) (searchLabels r) (brandLabels r).
  destruct (validSearch r) eqn:Hv.
  - destruct (validSearch_labels Hv) as (Hs & Hb & Hy).
    rewrite (bind_run_Some _ _ _ tt) by (apply Inc_run, Hs).
    rewrite (bind_run_Some _ _ _ tt) by (apply Inc_run, Hb).
    rewrite (bind_run_Some _ _ _ (fetchExternal net (priceURL r))) by apply fetch_run.
    fold (atFetch net r w).
    destruct (fetchExternal net (priceURL r)) as [err|d]; [reflexivity|].
    rewrite (bind_run_Some _ _ _ tt) by (apply observePrice_run, Hy).
    reflexivity.
  - rewrite bind_run_None; [|unfold responseOf; rewrite Inc_panic by exact Hv; reflexivity].
    unfold worldAfter. rewrite Inc_panic by exact Hv. reflexivity.
Qed.
End PriceHandler.

Section PriceMetrics.
Variables (net : upstream) (r : Request) (w : world).
Hypothesis r_valid : validSearch r = true.

Lemma atFetch_counters (c : counterVec) :
  counters (metrics (atFetch net r w)) c =
  match c with
  | httpRequestsTotal =>
      <[["/api/price"; Method r] :=
          S (counterValue (metrics w) httpRequestsTotal ["/api/price"; Method r])]>
        (counters (metrics w) c)
  | vehicleSearchStats =>
      <[searchLabels r :=
          S (counterValue (metrics w) vehicleSearchStats (searchLabels r))]>
        (counters (metrics w) c)
  | brandCounter =>
      <[brandLabels r := S (counterValue (metrics w) brandCounter (brandLabels r))]>
        (counters (metrics w) c)
  | fuelCounter => counters (metrics w) c
  end.
Proof.
  destruct (validSearch_labels r r_valid) as (Hs & Hb & _).
  unfold atFetch. rewrite fetch_world. cbn [metrics].
  fold (counted "/api/price" r w).
  repeat (unfold counterValue;
          first [ rewrite Inc_counters by exact Hb
                | rewrite Inc_counters by exact Hs
                | rewrite counted_counters by reflexivity ]).
  unfold counterValue.
  destruct c; repeat case_decide; try congruence; reflexivity.
Qed.

Lemma atFetch_gauges : gauges (metrics (atFetch net r w)) = gauges (metrics w).
Proof.
  unfold atFetch. rewrite fetch_world. cbn [metrics].
  rewrite !Inc_gauges. apply counted_gauges.
Qed.

Lemma atFetch_cache : cache (atFetch net r w) = cache w.
Proof.
  unfold atFetch. rewrite fetch_world. cbn [cache].
  rewrite !Inc_cache. apply counted_cache.
Qed.

Lemma atFetch_trace :
  trace (atFetch net r w) =
  trace w ++ [EvInc httpRequestsTotal ["/api/price"; Method r];
              EvInc vehicleSearchStats (searchLabels r);
              EvInc brandCounter (brandLabels r);
              EvFetch (priceURL r)].
Proof.
  destruct (validSearch_labels r r_valid) as (Hs & Hb & _).
  unfold atFetch.
  rewrite fetch_world. cbn [trace].
  rewrite Inc_trace by exact Hb. rewrite Inc_trace by exact Hs.
  fold (counted "/api/price" r w). rewrite counted_trace by reflexivity.
  rewrite <- !app_assoc. reflexivity.
Qed.

Lemma handleGetPrice_counters (c : counterVec) :
  c <> fuelCounter ->
  counters (metrics (worldAfter (handleGetPrice net r) w)) c =
  counters (metrics (atFetch net r w)) c.
Proof.
  destruct (validSearch_labels r r_valid) as (_ & _ & Hy).
  intros Hc. unfold worldAfter. rewrite handleGetPrice_run, r_valid.
  destruct (fetchExternal net (priceURL r)) as [err|d]; [reflexivity|].
  cbn [snd].
  destruct (UnmarshalPriceResponse d) as [pr|] eqn:Hd.
  - rewrite (observePrice_counters _ _ _ Hy pr c Hd).
    destruct (decide (c = fuelCounter)); [contradiction | reflexivity].
  - rewrite observePrice_undecoded by assumption. reflexivity.
Qed.
End PriceMetrics.

(** The handler reaches its fetch exactly when the label values of the
    request are valid UTF-8. *)
Lemma price_fetch_reached (net : upstream) (r : Request) (w : world) :
  validSearch r = true <->
  exists new,
    trace (worldAfter (handleGetPrice net r) w) = trace w ++ new /\
    EvFetch (priceURL r) ∈ new.
Proof.
  unfold worldAfter at 1. rewrite handleGetPrice_run. split.
  - intros Hv. rewrite Hv. destruct (validSearch_labels r Hv) as (_ & _ & Hy).
    destruct (fetchExternal net (priceURL r)) as [err|d]; cbn [snd].
    + eexists. split; [apply (atFetch_trace net r w Hv)|].
      repeat constructor.
    + destruct (observePrice_trace (QueryGet r "yearId") d (atFetch net r w) Hy)
        as (rest & Hrest & _).
      rewrite Hrest, (atFetch_trace net r w Hv), <- app_assoc.
      eexists. split; [reflexivity|].
      change (EvFetch (priceURL r) ∈
                [EvInc httpRequestsTotal ["/api/price"; Method r];
                 EvInc vehicleSearchStats (searchLabels r);
                 EvInc brandCounter (brandLabels r)]
                ++ EvFetch (priceURL r) :: rest).
      do 3 constructor. constructor.
  - intros (new & Hnew & Hin). destruct (validSearch r); [reflexivity|].
    cbn [snd] in Hnew. rewrite counted_trace in Hnew by reflexivity.
    apply app_inv_head in Hnew. subst new.
    inversion Hin as [|? ? ? Hnil]; inversion Hnil.
Qed.

(** C10 (as amended). A price request whose brandName, modelName and yearId
    are valid UTF-8 increments the vehicle-search counter and the brand
    counter by exactly one, under the labels of the request and no other,
    whatever the upstream does; both increments come before the fetch in the
    handler's trace and nothing after the fetch touches them, so they stand
    when the fetch fails and the response is the 502 carrying the error. A
    request with a label value that is not valid UTF-8 makes the handler
    panic at the search counter: the request is counted and nothing else is
    done, and there is no response. *)
Theorem price_counters_precede_fetch (net : upstream) (r : Request) (w : world) :
  let w' := worldAfter (handleGetPrice net r) w in
  (validSearch r = true ->
   counters (metrics w') vehicleSearchStats =
     <[searchLabels r := S (counterValue (metrics w) vehicleSearchStats (searchLabels r))]>
       (counters (metrics w) vehicleSearchStats) /\
   counters (metrics w') brandCounter =
     <[brandLabels r := S (counterValue (metrics w) brandCounter (brandLabels r))]>
       (counters (metrics w) brandCounter) /\
   (exists rest,
       trace w' =
         trace w ++ [EvInc httpRequestsTotal ["/api/price"; Method r];
                     EvInc vehicleSearchStats (searchLabels r);
                     EvInc brandCounter (brandLabels r);
                     EvFetch (priceURL r)] ++ rest
       /\ Forall afterFetchEvent rest) /\
   (forall err, fetchExternal net (priceURL r) = Err err ->
      responseOf (handleGetPrice net r) w = Some (httpError err StatusBadGateway) /\
      w' = atFetch net r w)) /\
  (validSearch r = false ->
   responseOf (handleGetPrice net r) w = None /\
   w' = counted "/api/price" r w /\
   trace w' = trace w ++ [EvInc httpRequestsTotal ["/api/price"; Method r]] /\
   counters (metrics w') vehicleSearchStats = counters (metrics w) vehicleSearchStats /\
   counters (metrics w') brandCounter = counters (metrics w) brandCounter).
Proof.
  intros w'. subst w'. split.
  - intros Hv. destruct (validSearch_labels r Hv) as (_ & _ & Hy).
    rewrite !(handleGetPrice_counters net r w Hv) by discriminate.
    rewrite !(atFetch_counters net r w Hv).
    split; [reflexivity|]. split; [reflexivity|]. split.
    + unfold worldAfter at 1. rewrite handleGetPrice_run, Hv.
      destruct (fetchExternal net (priceURL r)) as [err|d]; cbn [snd].
      * exists []. rewrite (atFetch_trace net r w Hv). split; [reflexivity | constructor].
      * destruct (observePrice_trace (QueryGet r "yearId") d (atFetch net r w) Hy)
          as (rest & Hrest & Hall).
        exists rest. rewrite Hrest, (atFetch_trace net r w Hv), <- app_assoc.
        split; [reflexivity | exact Hall].
    + intros err Herr. unfold responseOf, worldAfter.
      rewrite handleGetPrice_run, Hv, Herr. split; reflexivity.
  - intros Hv. unfold responseOf, worldAfter at 1 2 3 4.
    rewrite handleGetPrice_run, Hv. cbn [fst snd].
    split; [reflexivity|]. split; [reflexivity|].
    split; [apply counted_trace; reflexivity|].
    rewrite !counted_counters by reflexivity. split; reflexivity.
Qed.

Lemma price_counters_precede_fetch_witness :
  responseOf (handleGetPrice downUpstream sampleRequest) emptyWorld
    = Some (httpError "connection refused" StatusBadGateway) /\
  counterValue (metrics (worldAfter (handleGetPrice downUpstream sampleRequest) emptyWorld))
    vehicleSearchStats ["VW"; "Gol"; "2014-1"] = 1%nat /\
  counterValue (metrics (worldAfter (handleGetPrice downUpstream sampleRequest) emptyWorld))
    brandCounter ["VW"] = 1%nat.
Proof.
  destruct (price_counters_precede_fetch downUpstream sampleRequest emptyWorld)
    as (H & _).
  destruct H as (Hs & Hb & _ & Herr); [reflexivity|].
  destruct (Herr "connection refused") as (Hresp & _); [reflexivity|].
  split; [exact Hresp|]. unfold counterValue.
  split; [rewrite Hs | rewrite Hb]; reflexivity.
Defined.

(** C10, the claim as stated fails: on a request whose brandName is the byte
    0xFF the handler panics; with the upstream down there is no 502, neither
    the vehicle-search counter nor the brand counter has moved, and no fetch
    was attempted. *)
Lemma price_request_panics :
  let w' := worldAfter (handleGetPrice downUpstream badLabelRequest) emptyWorld in
  Utf8.ValidString (QueryGet badLabelRequest "brandName") = false /\
  responseOf (handleGetPrice downUpstream badLabelRequest) emptyWorld = None /\
  counters (metrics w') vehicleSearchStats = ∅ /\
  counters (metrics w') brandCounter = ∅ /\
  trace w' = [EvInc httpRequestsTotal ["/api/price"; "GET"]].
Proof.
  cbv zeta. split; [vm_compute; reflexivity|].
  split; [vm_compute; reflexivity|]. split; [reflexivity|].
  split; [reflexivity|]. vm_compute. reflexivity.
Qed.

(** C7. When the handler has fetched a payload (the label values of the
    request are valid UTF-8, so that the fetch is reached, and the fetch
    succeeds), the response is the fetched payload itself, with status 200,
    whether or not it decodes as a PriceResponse and whether or not its price
    parses: a payload that does not decode leaves the metrics as they were
    when the fetch was issued, and a price that does not parse leaves the
    gauges as they were. *)
Theorem price_payload_unchanged
    (net : upstream) (r : Request) (w : world) (d : payload) :
  validSearch r = true ->
  fetchExternal net (priceURL r) = Ok d ->
  responseOf (handleGetPrice net r) w = Some (writeJSON d) /\
  Body <$> responseOf (handleGetPrice net r) w = Some d /\
  Status <$> responseOf (handleGetPrice net r) w = Some StatusOK /\
  (UnmarshalPriceResponse d = None ->
     worldAfter (handleGetPrice net r) w = atFetch net r w) /\
  (forall pr e, UnmarshalPriceResponse d = Some pr ->
     parsePrice (Price pr) = Err e ->
     gauges (metrics (worldAfter (handleGetPrice net r) w)) = gauges (metrics w)).
Proof.
  intros Hv Hd. destruct (validSearch_labels r Hv) as (_ & _ & Hy).
  assert (Hrun : handleGetPrice net r w =
                 (Some (writeJSON d),
                  worldAfter (observePrice (QueryGet r "yearId") d) (atFetch net r w)))
    by (rewrite handleGetPrice_run, Hv, Hd; reflexivity).
  unfold responseOf, worldAfter at 1 2. rewrite Hrun. cbn [fst snd].
  split; [reflexivity|]. split; [reflexivity|]. split; [reflexivity|]. split.
  - intros Hun. apply observePrice_undecoded, Hun.
  - intros pr e Hpr He.
    rewrite (observePrice_unparsed _ _ _ Hy pr e Hpr He).
    apply (atFetch_gauges net r w).
Qed.

Lemma price_payload_unchanged_witness :
  Body <$> responseOf (handleGetPrice (fun _ => Replied 200 (Raw "<html>")) sampleRequest)
             emptyWorld = Some (Raw "<html>").
Proof.
  destruct (price_payload_unchanged (fun _ => Replied 200 (Raw "<html>"))
              sampleRequest emptyWorld (Raw "<html>")) as (_ & H & _).
  - reflexivity.
  - reflexivity.
  - exact H.
Defined.

(** C8 (as amended). When the handler has fetched a payload that decodes and
    whose price is "R$ 10.000,00", the min and the max gauge under the labels
    (brand and model of the payload, year of the request) are set to 10000,
    the brand counter of the request's brand name goes up by exactly one, and
    the fuel counter of the payload's fuel goes up by exactly one when that
    fuel is not empty; with an empty fuel no fuel counter moves. *)
Theorem price_scenario_metrics
    (net : upstream) (r : Request) (w : world) (d : payload) (pr : PriceResponse) :
  validSearch r = true ->
  fetchExternal net (priceURL r) = Ok d ->
  UnmarshalPriceResponse d = Some pr ->
  Price pr = "R$ 10.000,00" ->
  let w' := worldAfter (handleGetPrice net r) w in
  let lbl := [Brand pr; Model pr; QueryGet r "yearId"] in
  gaugeValue (metrics w') priceMinGauge lbl = Some (10000 # 1)%Q /\
  gaugeValue (metrics w') priceMaxGauge lbl = Some (10000 # 1)%Q /\
  counters (metrics w') brandCounter =
    <[brandLabels r := S (counterValue (metrics w) brandCounter (brandLabels r))]>
      (counters (metrics w) brandCounter) /\
  counters (metrics w') fuelCounter =
    (if String.eqb (Fuel pr) "" then counters (metrics w) fuelCounter
     else <[[Fuel pr] := S (counterValue (metrics w) fuelCounter [Fuel pr])]>
            (counters (metrics w) fuelCounter)).
Proof.
  intros Hv Hd Hpr Hprice w' lbl.
  destruct (validSearch_labels r Hv) as (_ & _ & Hy).
  assert (Hw : w' = worldAfter (observePrice (QueryGet r "yearId") d) (atFetch net r w)).
  { subst w'. unfold worldAfter at 1. rewrite handleGetPrice_run, Hv, Hd. reflexivity. }
  assert (Hparse : parsePrice (Price pr) = Ok (10000 # 1)%Q)
    by (rewrite Hprice; vm_compute; reflexivity).
  unfold gaugeValue. rewrite Hw.
  rewrite !(observePrice_gauges _ _ _ Hy pr _ Hpr), Hparse.
  rewrite !(observePrice_counters _ _ _ Hy pr _ Hpr).
  split; [apply lookup_insert_eq|]. split; [apply lookup_insert_eq|].
  unfold counterValue. rewrite !(atFetch_counters net r w Hv).
  split.
  - destruct (decide (brandCounter = fuelCounter)); [discriminate | reflexivity].
  - destruct (decide (fuelCounter = fuelCounter)); [|contradiction].
    destruct (String.eqb (Fuel pr) ""); reflexivity.
Qed.

Lemma price_scenario_metrics_witness :
  gaugeValue (metrics (worldAfter (handleGetPrice sampleUpstream sampleRequest) emptyWorld))
    priceMinGauge ["VW"; "Gol 1.0"; "2014-1"] = Some (10000 # 1)%Q.
Proof.
  destruct (price_scenario_metrics sampleUpstream sampleRequest emptyWorld
              samplePayload samplePrice) as (H & _).
  - reflexivity.
  - reflexivity.
  - vm_compute. reflexivity.
  - reflexivity.
  - exact H.
Defined.

(** C8, the claim as stated fails: a payload that decodes and carries the
    price "R$ 10.000,00" but no fuel sets both gauges to 10000 and leaves
    every fuel counter untouched. *)
Lemma price_scenario_no_fuel_counted :
  let net : upstream := fun _ => Replied 200 noFuelPayload in
  let w' := worldAfter (handleGetPrice net sampleRequest) emptyWorld in
  (exists pr, UnmarshalPriceResponse noFuelPayload = Some pr
              /\ Price pr = "R$ 10.000,00") /\
  gaugeValue (metrics w') priceMinGauge ["VW"; "Gol 1.0"; "2014-1"] = Some (10000 # 1)%Q /\
  gaugeValue (metrics w') priceMaxGauge ["VW"; "Gol 1.0"; "2014-1"] = Some (10000 # 1)%Q /\
  counters (metrics w') fuelCounter = ∅ /\
  Forall (fun e => forall lvs, e <> EvInc fuelCounter lvs) (trace w').
Proof.
  cbv zeta. split; [eexists; split; vm_compute; reflexivity|].
  split; [vm_compute; reflexivity|]. split; [vm_compute; reflexivity|].
  split; [reflexivity|].
  vm_compute. repeat constructor; discriminate.
Qed.

(** C9. An execution of the price handler that updates the gauges leaves the
    min gauge and the max gauge, under the labels it updates, at the same
    value: the price just observed, whatever either held before. No execution
    sets one without the other: if the two vectors agree before a request,
    they agree after it; and whatever the request and the upstream, under a
    label set where either gauge has changed the two hold the same value
    afterwards. *)
Theorem price_gauges_agree (net : upstream) (r : Request) (w : world) :
  let w' := worldAfter (handleGetPrice net r) w in
  (forall d pr f,
     validSearch r = true ->
     fetchExternal net (priceURL r) = Ok d ->
     UnmarshalPriceResponse d = Some pr ->
     parsePrice (Price pr) = Ok f ->
     gaugeValue (metrics w') priceMinGauge [Brand pr; Model pr; QueryGet r "yearId"] = Some f /\
     gaugeValue (metrics w') priceMaxGauge [Brand pr; Model pr; QueryGet r "yearId"] = Some f) /\
  (gauges (metrics w) priceMinGauge = gauges (metrics w) priceMaxGauge ->
   gauges (metrics w') priceMinGauge = gauges (metrics w') priceMaxGauge) /\
  (forall lvs,
     gaugeValue (metrics w') priceMinGauge lvs <> gaugeValue (metrics w) priceMinGauge lvs \/
     gaugeValue (metrics w') priceMaxGauge lvs <> gaugeValue (metrics w) priceMaxGauge lvs ->
     gaugeValue (metrics w') priceMinGauge lvs = gaugeValue (metrics w') priceMaxGauge lvs).
Proof.
  intros w'. subst w'. unfold worldAfter, gaugeValue.
  rewrite handleGetPrice_run.
  destruct (validSearch r) eqn:Hv.
  2:{ split; [discriminate|]. cbn [snd]. rewrite !counted_gauges.
      split; [trivial|]. intros lvs [H|H]; contradiction. }
  destruct (validSearch_labels r Hv) as (_ & _ & Hy).
  destruct (fetchExternal net (priceURL r)) as [err|d]; cbn [snd].
  - split; [discriminate|]. rewrite !(atFetch_gauges net r w).
    split; [trivial|]. intros lvs [H|H]; contradiction.
  - destruct (UnmarshalPriceResponse d) as [pr|] eqn:Hpr.
    + rewrite !(observePrice_gauges _ _ _ Hy pr _ Hpr), (atFetch_gauges net r w).
      split; [|split].
      * intros d' pr' f _ Hd' Hpr' Hf. injection Hd' as <-.
        rewrite Hpr in Hpr'. injection Hpr' as <-. rewrite Hf.
        split; apply lookup_insert_eq.
      * intros Heq. destruct (parsePrice (Price pr)); rewrite Heq; reflexivity.
      * intros lvs. destruct (parsePrice (Price pr)) as [e|f];
          [intros [H|H]; contradiction|].
        destruct (decide ([Brand pr; Model pr; QueryGet r "yearId"] = lvs)) as [<-|Hne].
        -- rewrite !lookup_insert_eq. reflexivity.
        -- rewrite !lookup_insert_ne by exact Hne. intros [H|H]; contradiction.
    + rewrite observePrice_undecoded by assumption.
      rewrite !(atFetch_gauges net r w).
      split; [|split; [trivial|intros lvs [H|H]; contradiction]].
      intros d' pr' f _ Hd'. injection Hd' as <-.
      rewrite Hpr. discriminate.
Qed.

Lemma price_gauges_agree_witness :
  gaugeValue (metrics (worldAfter (handleGetPrice sampleUpstream sampleRequest) emptyWorld))
    priceMinGauge ["VW"; "Gol 1.0"; "2014-1"] = Some (10000 # 1)%Q /\
  gaugeValue (metrics (worldAfter (handleGetPrice sampleUpstream sampleRequest) emptyWorld))
    priceMaxGauge ["VW"; "Gol 1.0"; "2014-1"] = Some (10000 # 1)%Q.
Proof.
  destruct (price_gauges_agree sampleUpstream sampleRequest emptyWorld) as (H & _).
  apply (H samplePayload samplePrice); [reflexivity | reflexivity | |].
  - vm_compute. reflexivity.
  - vm_compute. reflexivity.
Defined.

(** The min gauge is the last price, not a running minimum: after a price of
    10000 and then one of 12000 under the same labels it holds 12000. *)
Example price_min_gauge_follows_last :
  let w1 := worldAfter (handleGetPrice sampleUpstream sampleRequest) emptyWorld in
  let w2 := worldAfter (handleGetPrice (fun _ => Replied 200 dearerPayload) sampleRequest) w1 in
  gaugeValue (metrics w1) priceMinGauge ["VW"; "Gol 1.0"; "2014-1"] = Some (10000 # 1)%Q /\
  gaugeValue (metrics w2) priceMinGauge ["VW"; "Gol 1.0"; "2014-1"] = Some (12000 # 1)%Q.
Proof. split; vm_compute; reflexivity. Qed.

(** ** The price parser *)

Section StringFacts.

Lemma bytes_string (l : list ascii) : bytes (String.string_of_list_ascii l) = l.
Proof. apply String.list_ascii_of_string_of_list_ascii. Qed.

Lemma bytes_append (s t : string) : bytes (s +:+ t) = bytes s ++ bytes t.
Proof.
  unfold bytes. induction s as [|c s IH]; [reflexivity|].
  change (String c s +:+ t) with (String c (s +:+ t)). cbn. f_equal. exact IH.
Qed.

Lemma prefix_char (c : ascii) (s : string) :
  String.prefix (String c "") s =
  match s with String x _ => Ascii.eqb x c | EmptyString => false end.
Proof.
  destruct s as [|x s]; [reflexivity|]. cbn.
  destruct (ascii_dec c x) as [->|Hne].
  - rewrite Ascii.eqb_refl. destruct s; reflexivity.
  - symmetry. apply Ascii.eqb_neq. congruence.
Qed.

Lemma Contains_char (s : string) (c : ascii) :
  Strings.Contains s (String c "") = existsb (fun x => Ascii.eqb x c) (bytes s).
Proof.
  induction s as [|x s IH]; [reflexivity|].
  cbn [Strings.Contains]. rewrite prefix_char, IH. reflexivity.
Qed.

Lemma ReplaceAll_char_drop (s : string) (c : ascii) :
  Strings.ReplaceAll s (String c "") "" =
  String.string_of_list_ascii
    (List.filter (fun x => negb (Ascii.eqb x c)) (bytes s)).
Proof.
  unfold Strings.ReplaceAll.
  induction s as [|x s IH]; [reflexivity|].
  cbn [Strings.replaceFrom]. rewrite prefix_char. cbn.
  destruct (Ascii.eqb x c); cbn; rewrite IH; reflexivity.
Qed.

Lemma ReplaceAll_char_char (s : string) (c d : ascii) :
  Strings.ReplaceAll s (String c "") (String d "") =
  String.string_of_list_ascii
    (map (fun x => if Ascii.eqb x c then d else x) (bytes s)).
Proof.
  unfold Strings.ReplaceAll.
  induction s as [|x s IH]; [reflexivity|].
  cbn [Strings.replaceFrom]. rewrite prefix_char. cbn.
  destruct (Ascii.eqb x c); cbn; rewrite IH; reflexivity.
Qed.

Lemma isSpace_not_numeric (c : ascii) :
  Strings.isSpace c = true -> Regexp.numericClass c = false.
Proof.
  destruct c as [b0 b1 b2 b3 b4 b5 b6 b7].
  destruct b0, b1, b2, b3, b4, b5, b6, b7; vm_compute; congruence.
Qed.

Lemma FindString_TrimLeft (s : string) :
  Regexp.FindString (Strings.TrimLeft s) = Regexp.FindString s.
Proof.
  induction s as [|c s IH]; [reflexivity|]. cbn [Strings.TrimLeft].
  destruct (Strings.isSpace c) eqn:Hc; [|reflexivity].
  rewrite IH. cbn. rewrite (isSpace_not_numeric c Hc). reflexivity.
Qed.

Lemma takeClass_TrimRight (s : string) :
  Regexp.takeClass (Strings.TrimRight s) = Regexp.takeClass s.
Proof.
  induction s as [|c s IH]; [reflexivity|]. cbn [Strings.TrimRight].
  destruct (Strings.TrimRight s) as [|a t] eqn:Ht.
  - cbn in IH. destruct (Strings.isSpace c) eqn:Hc; cbn.
    + rewrite (isSpace_not_numeric c Hc). reflexivity.
    + rewrite <- IH. reflexivity.
  - cbn [Regexp.takeClass] in *. rewrite IH. reflexivity.
Qed.

Lemma FindString_TrimRight (s : string) :
  Regexp.FindString (Strings.TrimRight s) = Regexp.FindString s.
Proof.
  induction s as [|c s IH]; [reflexivity|].
  pose proof (takeClass_TrimRight (String c s)) as Htake.
  cbn [Strings.TrimRight] in *.
  destruct (Strings.TrimRight s) as [|a t] eqn:Ht.
  - cbn in IH. destruct (Strings.isSpace c) eqn:Hc.
    + cbn. rewrite (isSpace_not_numeric c Hc). exact IH.
    + cbn [Regexp.FindString]. destruct (Regexp.numericClass c); [exact Htake | exact IH].
  - cbn [Regexp.FindString].
    destruct (Regexp.numericClass c).
    + exact Htake.
    + exact IH.
Qed.

Lemma FindString_TrimSpace (s : string) :
  Regexp.FindString (Strings.TrimSpace s) = Regexp.FindString s.
Proof.
  unfold Strings.TrimSpace. rewrite FindString_TrimRight. apply FindString_TrimLeft.
Qed.

Lemma takeClass_split (s : string) :
  exists post, s = Regexp.takeClass s +:+ post
               /\ Forall (fun c => Regexp.numericClass c = true)
                         (bytes (Regexp.takeClass s))
               /\ startsOutside post.
Proof.
  induction s as [|c s (post & Hs & Hall & Hpost)].
  - exists "". repeat split; constructor.
  - cbn [Regexp.takeClass]. destruct (Regexp.numericClass c) eqn:Hc.
    + exists post. split; [rewrite append_cons; f_equal; exact Hs|].
      split; [|exact Hpost].
      cbn. constructor; assumption.
    + exists (String c s). split; [reflexivity|]. split; [constructor | exact Hc].
Qed.

(** The match is the leftmost run of the class and goes as far as the class
    does. *)
Lemma FindString_split (s : string) :
  exists pre post,
    s = pre +:+ Regexp.FindString s +:+ post
    /\ Forall (fun c => Regexp.numericClass c = false) (bytes pre)
    /\ Forall (fun c => Regexp.numericClass c = true) (bytes (Regexp.FindString s))
    /\ startsOutside post.
Proof.
  induction s as [|c s (pre & post & Hs & Hpre & Hm & Hpost)].
  - exists "", "". repeat split; constructor.
  - cbn [Regexp.FindString]. destruct (Regexp.numericClass c) eqn:Hc.
    + destruct (takeClass_split (String c s)) as (post' & Hs' & Hall & Hpost').
      exists "", post'. split; [exact Hs'|]. split; [constructor|].
      split; assumption.
    + exists (String c pre), post.
      split; [rewrite append_cons; f_equal; exact Hs|].
      split; [cbn; constructor; assumption|]. split; assumption.
Qed.

Lemma FindString_empty (s : string) :
  Regexp.FindString s = "" <->
  Forall (fun c => Regexp.numericClass c = false) (bytes s).
Proof.
  induction s as [|c s IH]; [split; [constructor | reflexivity]|].
  cbn [Regexp.FindString Regexp.takeClass]. destruct (Regexp.numericClass c) eqn:Hc.
  - split; [discriminate|]. intros H. inversion H; congruence.
  - rewrite IH. split.
    + intros H. cbn. constructor; assumption.
    + intros H. inversion H; assumption.
Qed.

Lemma takeClass_outside (s post : string) :
  startsOutside post -> Regexp.takeClass (s +:+ post) = Regexp.takeClass s.
Proof.
  intros Hpost. induction s as [|c s IH].
  - change ("" +:+ post) with post.
    destruct post as [|c post]; [reflexivity|].
    cbn [startsOutside] in Hpost. cbn [Regexp.takeClass]. rewrite Hpost. reflexivity.
  - rewrite append_cons. cbn [Regexp.takeClass]. rewrite IH. reflexivity.
Qed.

(** Bytes outside the class around a string do not change the match: what
    exactly is trimmed before the search is immaterial. *)
Lemma FindString_outside (pre s post : string) :
  Forall (fun c => Regexp.numericClass c = false) (bytes pre) ->
  Forall (fun c => Regexp.numericClass c = false) (bytes post) ->
  Regexp.FindString (pre +:+ s +:+ post) = Regexp.FindString s.
Proof.
  intros Hpre Hpost.
  assert (Hstart : startsOutside post)
    by (destruct post; [exact I | inversion Hpost; assumption]).
  induction pre as [|c pre IH].
  - change ("" +:+ s +:+ post) with (s +:+ post).
    induction s as [|c s IHs].
    + change ("" +:+ post) with post.
      apply (proj2 (FindString_empty post)), Hpost.
    + rewrite append_cons. cbn [Regexp.FindString].
      destruct (Regexp.numericClass c).
      * rewrite <- append_cons. apply takeClass_outside, Hstart.
      * exact IHs.
  - inversion Hpre as [|? ? Hc Hpre']; subst.
    rewrite append_cons. cbn [Regexp.FindString]. rewrite Hc.
    apply IH, Hpre'.
Qed.

End StringFacts.

(** [parsePrice] computes what the specification describes: the numeric part
    is the match of [[0-9,.]+] in the input (trimming does not change it), and
    the float parser reads [specDecimalText] of it. *)
Lemma parsePrice_refines (s : string) :
  parsePrice s =
  if String.eqb (Regexp.FindString s) "" then Err NoNumericPart
  else fromParseFloat (Strconv.ParseFloat (specDecimalText (Regexp.FindString s))).
Proof.
  unfold parsePrice. rewrite FindString_TrimSpace.
  set (m := Regexp.FindString s).
  destruct (String.eqb m ""); [reflexivity|].
  f_equal. f_equal. unfold specDecimalText.
  rewrite !Contains_char.
  change (fun x => Ascii.eqb x ".") with isPoint.
  change (fun x => Ascii.eqb x ",") with isComma.
  destruct (existsb isPoint (bytes m)), (existsb isComma (bytes m)); cbn [andb negb].
  - rewrite ReplaceAll_char_drop, ReplaceAll_char_char, bytes_string. reflexivity.
  - reflexivity.
  - rewrite ReplaceAll_char_char. reflexivity.
  - reflexivity.
Qed.

Lemma readFloat_no_digit (s : string) (mant : Z) (frac : nat) (sawdot : bool) :
  Forall (fun c => Regexp.isDigit c = false) (bytes s) ->
  Strconv.readFloat mant frac sawdot false s = None.
Proof.
  revert sawdot. induction s as [|c s IH]; intros sawdot H; [reflexivity|].
  inversion H as [|? ? Hc Hs]; subst. cbn [Strconv.readFloat].
  destruct (Ascii.eqb c ".").
  - destruct sawdot; [reflexivity | apply IH, Hs].
  - rewrite Hc. reflexivity.
Qed.

Lemma commaToPoint_no_digit (c : ascii) :
  Regexp.isDigit c = false -> Regexp.isDigit (commaToPoint c) = false.
Proof. unfold commaToPoint. destruct (isComma c); [reflexivity | trivial]. Qed.

Lemma Forall_filter_keep {A} (P : A -> Prop) (f : A -> bool) (l : list A) :
  Forall P l -> Forall P (List.filter f l).
Proof.
  rewrite !List.Forall_forall. intros H x Hx. apply H.
  apply List.filter_In in Hx. tauto.
Qed.

Lemma specDecimalText_no_digit (m : string) :
  Forall (fun c => Regexp.isDigit c = false) (bytes m) ->
  Forall (fun c => Regexp.isDigit c = false) (bytes (specDecimalText m)).
Proof.
  intros H. unfold specDecimalText.
  destruct (existsb isPoint (bytes m) && existsb isComma (bytes m));
    [|destruct (existsb isComma (bytes m)); [|exact H]];
    rewrite bytes_string, Forall_map.
  - apply Forall_filter_keep.
    eapply Forall_impl; [exact H | apply commaToPoint_no_digit].
  - eapply Forall_impl; [exact H | apply commaToPoint_no_digit].
Qed.

Lemma commaToPoint_alphabet (c : ascii) :
  Regexp.numericClass c = true -> Regexp.isDigit (commaToPoint c) || isPoint (commaToPoint c) = true.
Proof.
  unfold Regexp.numericClass, commaToPoint, isComma, isPoint.
  destruct (Ascii.eqb c ","); [reflexivity|]. rewrite orb_false_r. trivial.
Qed.

Lemma no_comma_alphabet (l : list ascii) :
  existsb isComma l = false ->
  Forall (fun c => Regexp.numericClass c = true) l ->
  Forall (fun c => Regexp.isDigit c || isPoint c = true) l.
Proof.
  intros Hc. rewrite !List.Forall_forall. intros Hm c Hin.
  specialize (Hm c Hin).
  assert (Hnc : isComma c = false).
  { destruct (isComma c) eqn:E; [|reflexivity].
    rewrite <- Hc. symmetry. apply existsb_exists. exists c. split; assumption. }
  unfold Regexp.numericClass in Hm. unfold isComma in Hnc. unfold isPoint.
  rewrite Hnc, orb_false_r in Hm. exact Hm.
Qed.

(** The float parser is only given decimal digits and points. *)
Lemma parsePrice_alphabet (s : string) :
  Forall (fun c => Regexp.isDigit c || isPoint c = true)
         (bytes (specDecimalText (Regexp.FindString s))).
Proof.
  destruct (FindString_split s) as (_ & _ & _ & _ & Hm & _).
  set (m := Regexp.FindString s) in *.
  unfold specDecimalText.
  destruct (existsb isPoint (bytes m)) eqn:Hp, (existsb isComma (bytes m)) eqn:Hc;
    cbn [andb]; rewrite ?bytes_string, ?Forall_map.
  - apply Forall_filter_keep.
    eapply Forall_impl; [exact Hm | apply commaToPoint_alphabet].
  - apply no_comma_alphabet; assumption.
  - eapply Forall_impl; [exact Hm | apply commaToPoint_alphabet].
  - apply no_comma_alphabet; assumption.
Qed.

(** C4 (as amended). "1.234,56", "1234.56" and "1234,56" all parse to
    1234.56. For every input, the numeric part is the leftmost run of digits,
    commas and points, taken as far as it goes; with a point and a comma in
    it the points are dropped and the commas become points, with a comma only
    the commas become points, otherwise it is parsed as it is. An input with
    no digit, comma or point returns the "no numeric part" error; an input
    with no digit but a comma or a point returns the float parser's syntax
    error. *)
Theorem parsePrice_spec :
  (exists q, parsePrice "1.234,56" = Ok q /\ (q == 123456 # 100)%Q) /\
  (exists q, parsePrice "1234.56" = Ok q /\ (q == 123456 # 100)%Q) /\
  (exists q, parsePrice "1234,56" = Ok q /\ (q == 123456 # 100)%Q) /\
  forall s : string,
    let m := Regexp.FindString s in
    (exists pre post,
        s = pre +:+ m +:+ post
        /\ Forall (fun c => Regexp.numericClass c = false) (bytes pre)
        /\ Forall (fun c => Regexp.numericClass c = true) (bytes m)
        /\ startsOutside post) /\
    (Forall (fun c => Regexp.numericClass c = false) (bytes s) <->
     parsePrice s = Err NoNumericPart) /\
    (m <> "" ->
     parsePrice s = fromParseFloat (Strconv.ParseFloat (specDecimalText m))) /\
    (m <> "" -> Forall (fun c => Regexp.isDigit c = false) (bytes s) ->
     parsePrice s =
       Err (ParseFloatError {| Strconv.Func := "ParseFloat";
                               Strconv.Num := specDecimalText m;
                               Strconv.Kind := Strconv.ErrSyntax |})).
Proof.
  split; [eexists; split; [vm_compute; reflexivity | reflexivity]|].
  split; [eexists; split; [vm_compute; reflexivity | reflexivity]|].
  split; [eexists; split; [vm_compute; reflexivity | reflexivity]|].
  intros s m.
  pose proof (parsePrice_refines s) as Href. fold m in Href.
  split; [apply FindString_split|].
  assert (Hnon : m <> "" ->
            parsePrice s = fromParseFloat (Strconv.ParseFloat (specDecimalText m))).
  { intros Hm. rewrite Href. apply String.eqb_neq in Hm. rewrite Hm. reflexivity. }
  split; [|split; [exact Hnon|]].
  - rewrite <- FindString_empty. fold m. split.
    + intros ->. rewrite Href. reflexivity.
    + intros Herr. destruct (String.eqb_spec m ""); [assumption|].
      rewrite Hnon in Herr by assumption.
      destruct (Strconv.ParseFloat (specDecimalText m)); discriminate.
  - intros Hm Hdig. rewrite (Hnon Hm). unfold Strconv.ParseFloat.
    rewrite readFloat_no_digit; [reflexivity|].
    apply specDecimalText_no_digit.
    destruct (FindString_split s) as (pre & post & Hs & _).
    fold m in Hs. rewrite Hs, !bytes_append in Hdig.
    apply Forall_app in Hdig as [_ Hdig]. apply Forall_app in Hdig as [Hdig _].
    exact Hdig.
Qed.

Lemma parsePrice_spec_witness :
  parsePrice "R$ 10.000,00" = fromParseFloat (Strconv.ParseFloat "10000.00").
Proof.
  destruct parsePrice_spec as (_ & _ & _ & H).
  destruct (H "R$ 10.000,00") as (_ & _ & Hm & _).
  apply Hm. discriminate.
Defined.

(** C4, the claim as stated fails: "R$ -,--" has no digit, and the error
    returned is the float parser's syntax error on ".", not "no numeric
    part". *)
Lemma parsePrice_no_digit_syntax_error :
  Forall (fun c => Regexp.isDigit c = false) (bytes "R$ -,--") /\
  parsePrice "R$ -,--" =
    Err (ParseFloatError {| Strconv.Func := "ParseFloat"; Strconv.Num := ".";
                            Strconv.Kind := Strconv.ErrSyntax |}) /\
  parsePrice "R$ -,--" <> Err NoNumericPart.
Proof.
  split; [repeat constructor|]. split; [vm_compute; reflexivity|].
  vm_compute. discriminate.
Qed.

(** ** The history handler *)

Section HistoryRun.
Variables (net : upstream) (now : Gotime.date) (r : Request).

Lemma probeAll_probeAt :
  probeAll net now (QueryGet r "type") (QueryGet r "brandId") (QueryGet r "modelId")
           (QueryGet r "yearId") (monthsOf r)
  = map (probeAt net now r) (seq 0 (Z.to_nat (monthsOf r))).
Proof. reflexivity. Qed.

(** The response of the handler, case by case. *)
Lemma handleGetPriceHistory_response (w : world) :
  responseOf (handleGetPriceHistory net now r) w =
  Some
    match fetchExternal net (histURL r) with
    | Ok d => writeJSON (normalizeDirect now d)
    | Err err =>
        match collect (map (probeAt net now r) (seq 0 (Z.to_nat (monthsOf r)))) with
        | [] =>
            match fetchExternal net (priceURL r) with
            | Err err2 =>
                httpError ("history fetch failed: " +:+ err
                           +:+ ", fallback failed: " +:+ err2) StatusBadGateway
            | Ok single => finishHistory now [single]
            end
        | p :: h => finishHistory now (p :: h)
        end
    end.
Proof.
  unfold responseOf, handleGetPriceHistory.
  rewrite (bind_run_Some _ _ _ tt)
    by (unfold responseOf; rewrite recordMetrics_run by reflexivity; reflexivity).
  cbv zeta. fold (histURL r) (priceURL r). rewrite probeAll_probeAt.
  rewrite (bind_run_Some _ _ _ (fetchExternal net (histURL r))) by apply fetch_run.
  destruct (fetchExternal net (histURL r)) as [err|d]; [|reflexivity].
  destruct (collect _) as [|p h]; [|reflexivity].
  rewrite (bind_run_Some _ _ _ (fetchExternal net (priceURL r))) by apply fetch_run.
  destruct (fetchExternal net (priceURL r)); reflexivity.
Qed.
End HistoryRun.

Section Probing.
Variables (net : upstream) (ref : string).

Lemma tryCandidates_None (us : list string) :
  tryCandidates net ref us = None <-> Forall (passedOver net) us.
Proof.
  induction us as [|u us IH]; [split; [constructor | reflexivity]|].
  cbn [tryCandidates]. rewrite Forall_cons, <- IH. unfold passedOver.
  destruct (fetchExternal net u) as [e|b]; [tauto|].
  destruct (UnmarshalPriceResponse b) as [pr|] eqn:Hpr.
  - assert (Hprice : Price (if String.eqb (ReferenceMonth pr) ""
                            then withReferenceMonth pr (refLabel ref) else pr)
                     = Price pr)
      by (destruct (String.eqb (ReferenceMonth pr) ""); reflexivity).
    rewrite Hprice. destruct (String.eqb_spec (Price pr) "") as [He|Hne].
    + split; [intros H; split; [eauto | exact H] | tauto].
    + split; [discriminate|]. intros [(pr' & Heq & He) _]. congruence.
  - split.
    + destruct (UnmarshalMap b); discriminate.
    + intros [(pr' & Heq & _) _]. discriminate.
Qed.

Lemma tryCandidates_passed (u : string) (us : list string) :
  passedOver net u -> tryCandidates net ref (u :: us) = tryCandidates net ref us.
Proof.
  unfold passedOver. cbn [tryCandidates].
  destruct (fetchExternal net u) as [e|b]; [reflexivity|].
  intros (pr & -> & Hprice).
  destruct (String.eqb (ReferenceMonth pr) ""); cbn [Price withReferenceMonth];
    rewrite Hprice; reflexivity.
Qed.

Lemma tryCandidates_taken (u : string) (us : list string) :
  ~ passedOver net u -> tryCandidates net ref (u :: us) = tryCandidates net ref [u].
Proof.
  unfold passedOver. cbn [tryCandidates].
  destruct (fetchExternal net u) as [e|b]; [tauto|].
  destruct (UnmarshalPriceResponse b) as [pr|]; [|reflexivity].
  intros Hne.
  assert (Hprice : Price (if String.eqb (ReferenceMonth pr) ""
                          then withReferenceMonth pr (refLabel ref) else pr)
                   = Price pr)
    by (destruct (String.eqb (ReferenceMonth pr) ""); reflexivity).
  rewrite Hprice. destruct (String.eqb_spec (Price pr) "") as [He|_]; [|reflexivity].
  exfalso. apply Hne. eauto.
Qed.

(** The candidates are tried in order: the first one that is not passed over
    decides. *)
Lemma tryCandidates_first (pre : list string) (u : string) (post : list string) :
  Forall (passedOver net) pre -> ~ passedOver net u ->
  tryCandidates net ref (pre ++ u :: post) = tryCandidates net ref [u].
Proof.
  intros Hpre Hu. induction Hpre as [|v pre Hv _ IH].
  - apply tryCandidates_taken, Hu.
  - change ((v :: pre) ++ u :: post) with (v :: (pre ++ u :: post)).
    rewrite tryCandidates_passed by exact Hv. exact IH.
Qed.

Lemma tryCandidates_all_failed (us : list string) :
  Forall (fun u => is_ok (fetchExternal net u) = false) us ->
  tryCandidates net ref us = None.
Proof.
  intros H. apply tryCandidates_None. eapply Forall_impl; [exact H|].
  intros u. unfold passedOver. destruct (fetchExternal net u); [trivial | discriminate].
Qed.
End Probing.

(** Whether a candidate is passed over can be read off its fetch. *)
Lemma passedOver_decide (net : upstream) (u : string) :
  passedOver net u \/ ~ passedOver net u.
Proof.
  unfold passedOver. destruct (fetchExternal net u) as [e|b]; [left; exact I|].
  destruct (UnmarshalPriceResponse b) as [pr|].
  - destruct (String.eqb_spec (Price pr) "") as [He|Hne].
    + left. eauto.
    + right. intros (pr' & [= <-] & He). contradiction.
  - right. intros (pr' & Heq & _). discriminate.
Qed.

(** A candidate that is not passed over stores a result; the bytes stored are
    none exactly when its body is empty. *)
Lemma tryCandidates_stored (net : upstream) (ref u : string) :
  ~ passedOver net u ->
  exists b, tryCandidates net ref [u] = Some b /\
            (nonEmpty b = false <-> fetchExternal net u = Ok (Raw "")).
Proof.
  unfold passedOver. cbn [tryCandidates].
  destruct (fetchExternal net u) as [e|b]; [tauto|].
  destruct (UnmarshalPriceResponse b) as [pr|] eqn:Hpr.
  - intros Hne.
    assert (Hprice : Price (if String.eqb (ReferenceMonth pr) ""
                            then withReferenceMonth pr (refLabel ref) else pr)
                     = Price pr)
      by (destruct (String.eqb (ReferenceMonth pr) ""); reflexivity).
    rewrite Hprice. destruct (String.eqb_spec (Price pr) "") as [He|_].
    + exfalso. apply Hne. eauto.
    + eexists. split; [reflexivity|]. split; [discriminate|].
      intros [= ->]. discriminate Hpr.
  - intros _. destruct (UnmarshalMap b) as [raw|] eqn:Hraw.
    + eexists. split; [reflexivity|]. split; [discriminate|].
      intros [= ->]. discriminate Hraw.
    + exists b. split; [reflexivity|]. destruct b as [s|j]; cbn [nonEmpty].
      * destruct (String.eqb_spec s "") as [->|Hs]; cbn [negb].
        -- split; reflexivity.
        -- split; [discriminate|]. intros [= ->]. contradiction.
      * split; discriminate.
Qed.

(** The first candidate that is not passed over, when there is one. *)
Lemma candidates_split (net : upstream) (us : list string) :
  Forall (passedOver net) us \/
  exists pre u post,
    us = pre ++ u :: post /\ Forall (passedOver net) pre /\ ~ passedOver net u.
Proof.
  induction us as [|u us IH]; [left; constructor|].
  destruct (passedOver_decide net u) as [Hu|Hu].
  - destruct IH as [IH|(pre & v & post & -> & Hpre & Hv)].
    + left. constructor; assumption.
    + right. exists (u :: pre), v, post. repeat split; [constructor|]; assumption.
  - right. exists [], u, us. repeat split; [constructor | exact Hu].
Qed.

Lemma emptyBody_taken (net : upstream) (u : string) :
  fetchExternal net u = Ok (Raw "") -> ~ passedOver net u.
Proof.
  unfold passedOver. intros ->. intros (pr & Hpr & _). discriminate Hpr.
Qed.

Lemma omap_cons {A B} (f : A -> option B) (x : A) (l : list A) :
  omap f (x :: l) = match f x with Some y => y :: omap f l | None => omap f l end.
Proof. reflexivity. Qed.

(** The slots the loop over the results keeps are those that are not
    empty. *)
Lemma collect_singleton (slot : option payload) :
  collect [slot] = if slotEmpty slot then [] else option_list slot.
Proof.
  unfold collect. rewrite omap_cons.
  destruct slot as [p|]; [|reflexivity].
  cbn [slotEmpty]. destruct (nonEmpty p); reflexivity.
Qed.

(** C2 (as amended). The slot of a month is empty, by the handler's own test
    [len(results[i]) > 0], exactly when each of its five candidates is passed
    over (its fetch fails, or its body decodes as a record with an empty
    price), or the first candidate that is not passed over answers with an
    empty body, which is stored as it is. The slot is nil exactly in the
    first case, in particular when all five fetches fail. In every other
    case the first candidate that is not passed over decides, the result
    stored is not empty and the month is kept when the slots are
    collected. *)
Theorem probe_slot_left_empty
    (net : upstream) (now : Gotime.date) (r : Request) (offset : nat) :
  length (candidatesAt now r offset) = 5%nat /\
  (slotEmpty (probeAt net now r offset) = true <->
   Forall (passedOver net) (candidatesAt now r offset) \/
   exists pre u post,
     candidatesAt now r offset = pre ++ u :: post /\
     Forall (passedOver net) pre /\
     fetchExternal net u = Ok (Raw "")) /\
  (probeAt net now r offset = None <->
   Forall (passedOver net) (candidatesAt now r offset)) /\
  (Forall (fun u => is_ok (fetchExternal net u) = false) (candidatesAt now r offset) ->
   probeAt net now r offset = None) /\
  (forall pre u post,
     candidatesAt now r offset = pre ++ u :: post ->
     Forall (passedOver net) pre -> ~ passedOver net u ->
     probeAt net now r offset = tryCandidates net (refAt now offset) [u] /\
     (fetchExternal net u <> Ok (Raw "") ->
      exists b, probeAt net now r offset = Some b /\ nonEmpty b = true /\
                collect [probeAt net now r offset] = [b])) /\
  (slotEmpty (probeAt net now r offset) = true <->
   collect [probeAt net now r offset] = []).
Proof.
  split; [reflexivity|].
  assert (Hiff := tryCandidates_None net (refAt now offset) (candidatesAt now r offset)).
  change (probeAt net now r offset)
    with (tryCandidates net (refAt now offset) (candidatesAt now r offset)) in *.
  assert (Hfirst : forall pre u post,
             candidatesAt now r offset = pre ++ u :: post ->
             Forall (passedOver net) pre -> ~ passedOver net u ->
             tryCandidates net (refAt now offset) (candidatesAt now r offset)
             = tryCandidates net (refAt now offset) [u]).
  { intros pre u post -> Hpre Hu. apply tryCandidates_first; assumption. }
  split; [|split; [exact Hiff|split; [apply tryCandidates_all_failed|split]]].
  - split.
    + intros Hempty.
      destruct (candidates_split net (candidatesAt now r offset))
        as [Hall|(pre & u & post & Hsplit & Hpre & Hu)]; [left; exact Hall|].
      right. exists pre, u, post. split; [exact Hsplit|]. split; [exact Hpre|].
      rewrite (Hfirst _ _ _ Hsplit Hpre Hu) in Hempty.
      destruct (tryCandidates_stored net (refAt now offset) u Hu) as (b & Hb & Hbody).
      rewrite Hb in Hempty. cbn [slotEmpty] in Hempty.
      apply Hbody. destruct (nonEmpty b); [discriminate Hempty | reflexivity].
    + intros [Hall|(pre & u & post & Hsplit & Hpre & Hbody)].
      * apply Hiff in Hall. rewrite Hall. reflexivity.
      * pose proof (emptyBody_taken net u Hbody) as Hu.
        rewrite (Hfirst _ _ _ Hsplit Hpre Hu).
        destruct (tryCandidates_stored net (refAt now offset) u Hu) as (b & Hb & Hb').
        rewrite Hb. cbn [slotEmpty]. apply Hb' in Hbody. rewrite Hbody. reflexivity.
  - intros pre u post Hsplit Hpre Hu.
    split; [exact (Hfirst _ _ _ Hsplit Hpre Hu)|]. intros Hbody.
    rewrite (Hfirst _ _ _ Hsplit Hpre Hu).
    destruct (tryCandidates_stored net (refAt now offset) u Hu) as (b & Hb & Hb').
    rewrite Hb. exists b. split; [reflexivity|].
    assert (Hne : nonEmpty b = true).
    { destruct (nonEmpty b); [reflexivity|]. exfalso. apply Hbody, Hb'. reflexivity. }
    split; [exact Hne|]. rewrite collect_singleton. cbn [slotEmpty].
    rewrite Hne. reflexivity.
  - rewrite collect_singleton.
    destruct (tryCandidates net (refAt now offset) (candidatesAt now r offset)) as [b|];
      cbn [slotEmpty option_list]; [|split; reflexivity].
    destruct (nonEmpty b); cbn [negb]; split; (reflexivity || discriminate).
Qed.

Lemma probe_slot_left_empty_witness :
  probeAt downUpstream midMonth historyRequest 0 = None /\
  slotEmpty (probeAt emptyBodyUpstream midMonth historyRequest 0) = true /\
  probeAt emptyBodyUpstream midMonth historyRequest 0 = Some (Raw "").
Proof.
  split; [|split].
  - destruct (probe_slot_left_empty downUpstream midMonth historyRequest 0)
      as (_ & _ & _ & H & _).
    apply H. repeat constructor.
  - destruct (probe_slot_left_empty emptyBodyUpstream midMonth historyRequest 0)
      as (_ & H & _).
    apply H. right.
    exists [], (hd "" (candidatesAt midMonth historyRequest 0)),
           (tl (candidatesAt midMonth historyRequest 0)).
    split; [reflexivity|]. split; [constructor | reflexivity].
  - vm_compute. reflexivity.
Defined.

(** C2, the claim as stated fails: every one of the five fetches succeeds
    (status 200, an error object for a body), none fails, and the slot of the
    month is left empty all the same. *)
Lemma probe_slot_empty_without_failed_fetch :
  Forall (fun u => is_ok (fetchExternal errorObjectUpstream u) = true)
         (candidatesAt midMonth historyRequest 0) /\
  probeAt errorObjectUpstream midMonth historyRequest 0 = None.
Proof. split; [repeat constructor | vm_compute; reflexivity]. Qed.

(** A first candidate that answers 200 with no body decides the month: the
    slot holds no byte and the month is dropped, although the next candidate
    would have answered with a record. *)
Example probe_slot_empty_body :
  probeAt emptyFirstUpstream midMonth historyRequest 0 = Some (Raw "") /\
  collect [probeAt emptyFirstUpstream midMonth historyRequest 0] = [] /\
  Exists (fun u => exists pr,
            fetchExternal emptyFirstUpstream u = Ok datedPayload /\
            UnmarshalPriceResponse datedPayload = Some pr /\ Price pr <> "")
         (candidatesAt midMonth historyRequest 0).
Proof.
  split; [vm_compute; reflexivity|]. split; [vm_compute; reflexivity|].
  apply Exists_cons_tl, Exists_cons_hd. eexists.
  split; [vm_compute; reflexivity|]. split; [vm_compute; reflexivity|].
  vm_compute. discriminate.
Qed.

Lemma collect_all_nil (results : list (option payload)) :
  Forall (fun slot => slot = None) results -> collect results = [].
Proof.
  induction 1 as [|slot results -> _ IH]; [reflexivity | exact IH].
Qed.

Lemma probes_all_failed (net : upstream) (now : Gotime.date) (r : Request) (n : nat) :
  (forall offset, (offset < n)%nat ->
     Forall (fun u => is_ok (fetchExternal net u) = false) (candidatesAt now r offset)) ->
  collect (map (probeAt net now r) (seq 0 n)) = [].
Proof.
  intros H. apply collect_all_nil. apply Forall_map, Forall_forall.
  intros offset Hin. apply elem_of_seq in Hin.
  apply tryCandidates_all_failed, H. lia.
Qed.

(** Total failure: the native endpoint fails, every candidate of every month
    fails and the fallback fetch fails; the response is the 502 whose message
    carries the history-fetch error and the fallback error. *)
Theorem history_total_failure
    (net : upstream) (now : Gotime.date) (r : Request) (w : world) (err err2 : string) :
  fetchExternal net (histURL r) = Err err ->
  (forall offset, (offset < Z.to_nat (monthsOf r))%nat ->
     Forall (fun u => is_ok (fetchExternal net u) = false) (candidatesAt now r offset)) ->
  fetchExternal net (priceURL r) = Err err2 ->
  responseOf (handleGetPriceHistory net now r) w =
    Some (httpError ("history fetch failed: " +:+ err +:+ ", fallback failed: " +:+ err2)
                    StatusBadGateway).
Proof.
  intros Hh Hp Hs. rewrite handleGetPriceHistory_response, Hh.
  rewrite (probes_all_failed net now r _ Hp), Hs. reflexivity.
Qed.

Lemma history_total_failure_witness :
  Status <$> responseOf (handleGetPriceHistory downUpstream midMonth historyRequest)
               emptyWorld = Some 502.
Proof.
  rewrite (history_total_failure downUpstream midMonth historyRequest emptyWorld
             "connection refused" "connection refused").
  - reflexivity.
  - reflexivity.
  - intros offset _. repeat constructor.
  - reflexivity.
Defined.

Lemma normalizeEntry_json (now : Gotime.date) (i : nat) (j : json) :
  exists e, normalizeEntry now i (Json j) = Json e.
Proof.
  unfold normalizeEntry, MarshalPriceResponse, MarshalValue.
  destruct (UnmarshalPriceResponse (Json j)); [eauto|].
  destruct (UnmarshalMap (Json j)); eauto.
Qed.

(** The fallback: when nothing was collected and the single current-price
    fetch returns a JSON text, the response is a history of one element. *)
Theorem history_fallback_single
    (net : upstream) (now : Gotime.date) (r : Request) (w : world) (err : string) (j : json) :
  fetchExternal net (histURL r) = Err err ->
  (forall offset, (offset < Z.to_nat (monthsOf r))%nat ->
     Forall (fun u => is_ok (fetchExternal net u) = false) (candidatesAt now r offset)) ->
  fetchExternal net (priceURL r) = Ok (Json j) ->
  exists e,
    normalizeEntry now 0 (Json j) = Json e /\
    responseOf (handleGetPriceHistory net now r) w =
      Some (writeJSON (Json (JObj [("history", JArr [e])]))).
Proof.
  intros Hh Hp Hs. rewrite handleGetPriceHistory_response, Hh.
  rewrite (probes_all_failed net now r _ Hp), Hs.
  destruct (normalizeEntry_json now 0 j) as (e & He). exists e.
  split; [exact He|].
  unfold finishHistory, writeHistory, MarshalHistory. cbn [imap]. rewrite He.
  reflexivity.
Qed.

Lemma history_fallback_single_witness :
  exists e,
    normalizeEntry midMonth 0 (Json (JObj [("price", JStr "R$ 10.000,00")])) = Json e /\
    responseOf (handleGetPriceHistory priceOnlyUpstream midMonth historyRequest) emptyWorld =
      Some (writeJSON (Json (JObj [("history", JArr [e])]))).
Proof.
  apply (history_fallback_single priceOnlyUpstream midMonth historyRequest emptyWorld
           "external API returned status: 404 for url: https://fipe.parallelum.com.br/api/v2/cars/brands/23/models/5585/years/2014-1/history?months=3").
  - reflexivity.
  - intros offset _. repeat constructor.
  - reflexivity.
Defined.

(** C3, at the failing input: the native endpoint and every candidate answer
    404, the fallback fetch succeeds with a body that is not JSON, and the
    handler writes an empty body with status 200: no history of one element,
    and no error either. *)
Theorem history_fallback_body_lost :
  is_ok (fetchExternal htmlUpstream (histURL historyRequest)) = false /\
  (forall offset, (offset < 3)%nat ->
     Forall (fun u => is_ok (fetchExternal htmlUpstream u) = false)
            (candidatesAt midMonth historyRequest offset)) /\
  fetchExternal htmlUpstream (priceURL historyRequest)
    = Ok (Raw "<html>maintenance</html>") /\
  responseOf (handleGetPriceHistory htmlUpstream midMonth historyRequest) emptyWorld
    = Some {| Status := 200; ContentType := "application/json"; Body := Raw "" |}.
Proof.
  split; [reflexivity|]. split.
  - intros offset H.
    destruct offset as [|[|[|offset]]]; [| | | lia]; repeat constructor.
  - split; vm_compute; reflexivity.
Qed.

(** ** Reference-month labels *)

Lemma daysIn_at_least_28 (y m : Z) : 28 <= Gotime.daysIn y m.
Proof.
  unfold Gotime.daysIn.
  destruct (m =? 2); [destruct (Gotime.isLeap y); lia|].
  destruct ((m =? 4) || (m =? 6) || (m =? 9) || (m =? 11)); lia.
Qed.

(** Up to the 28th the label of position [i] is the month [i] months back. *)
Lemma labelAt_monthMinus (now : Gotime.date) (i : nat) :
  Gotime.Day now <= 28 -> labelAt now i = specLabel (monthMinus now i).
Proof.
  intros Hday. unfold labelAt, monthLabel, specLabel, monthMinus, Gotime.AddMonths, Gotime.Date.
  pose proof (daysIn_at_least_28
                (Gotime.Year now + (Gotime.Month now + - Z.of_nat i - 1) / 12)
                ((Gotime.Month now + - Z.of_nat i - 1) mod 12 + 1)) as H28.
  destruct (Z.leb_spec (Gotime.Day now)
              (Gotime.daysIn (Gotime.Year now + (Gotime.Month now + - Z.of_nat i - 1) / 12)
                             ((Gotime.Month now + - Z.of_nat i - 1) mod 12 + 1))) as [_|Hlt];
    [|lia].
  cbn [Gotime.Year Gotime.Month fst snd].
  replace (12 * Gotime.Year now + (Gotime.Month now - 1) - Z.of_nat i)
    with (Gotime.Year now * 12 + (Gotime.Month now + - Z.of_nat i - 1)) by lia.
  rewrite Z.div_add_l by lia.
  rewrite (Z.add_comm (Gotime.Year now * 12)), Z.mod_add by lia.
  reflexivity.
Qed.





(** ** Objects written from maps *)

Lemma member_Some_elem (k : string) (l : list (string * json)) (v : json) :
  member k l = Some v -> (k, v) ∈ l.
Proof.
  induction l as [|[k' v'] l IH]; [discriminate|]. cbn [member].
  destruct (member k l) as [v0|].
  - intros [= ->]. right. apply IH. reflexivity.
  - destruct (String.eqb_spec k' k) as [->|]; [|discriminate].
    intros [= ->]. left.
Qed.

Lemma member_None (k : string) (l : list (string * json)) :
  member k l = None -> k ∉ l.*1.
Proof.
  induction l as [|[k' v'] l IH]; [intros _ H; inversion H|]. cbn [member].
  destruct (member k l) as [v0|]; [discriminate|].
  destruct (String.eqb_spec k' k) as [->|Hne]; [discriminate|].
  intros _. cbn. rewrite not_elem_of_cons. split; [congruence | apply IH; reflexivity].
Qed.

Lemma member_NoDup (k : string) (l : list (string * json)) (v : json) :
  NoDup l.*1 -> (k, v) ∈ l -> member k l = Some v.
Proof.
  intros Hnd Hin. destruct (member k l) as [v'|] eqn:E.
  - apply member_Some_elem in E. f_equal.
    pose proof (elem_of_list_to_map_1 (M := gmap string) l k v Hnd Hin) as H1.
    pose proof (elem_of_list_to_map_1 (M := gmap string) l k v' Hnd E) as H2.
    congruence.
  - apply member_None in E. exfalso. apply E.
    apply list_elem_of_fmap. exists (k, v). split; [reflexivity | exact Hin].
Qed.

(** A reader of the object written for a map finds what the map holds. *)
Lemma member_encoded_map (k : string) (m : gmap string json) (v : json) :
  m !! k = Some v -> member k (merge_sort keyLe (map_to_list m)) = Some v.
Proof.
  intros Hk. apply member_NoDup.
  - rewrite (merge_sort_Permutation keyLe (map_to_list m)).
    apply NoDup_fst_map_to_list.
  - rewrite (merge_sort_Permutation keyLe (map_to_list m)).
    apply elem_of_map_to_list, Hk.
Qed.




(** ** The labels are ASCII *)

Lemma isASCII_append (s t : string) : isASCII (s +:+ t) = isASCII s && isASCII t.
Proof.
  unfold isASCII. induction s as [|c s IH]; [reflexivity|].
  rewrite append_cons. cbn [String.list_ascii_of_string forallb].
  rewrite IH, andb_assoc. reflexivity.
Qed.

Lemma isASCII_uint (d : Decimal.uint) : isASCII (NilEmpty.string_of_uint d) = true.
Proof.
  induction d; cbn [NilEmpty.string_of_uint]; [reflexivity|..];
    unfold isASCII in *; cbn [String.list_ascii_of_string forallb];
    rewrite IHd; reflexivity.
Qed.

Lemma isASCII_Itoa (z : Z) : isASCII (Strconv.Itoa z) = true.
Proof.
  unfold Strconv.Itoa, NilZero.string_of_int, NilZero.string_of_uint.
  destruct (Z.to_int z) as [d|d].
  - destruct d; first [reflexivity | apply isASCII_uint].
  - change (isASCII ("-" +:+ match d with
                             | Decimal.Nil => "0"
                             | _ => NilEmpty.string_of_uint d
                             end) = true).
    rewrite isASCII_append.
    destruct d; first [reflexivity | rewrite isASCII_uint; reflexivity].
Qed.

Lemma isASCII_zeros (n : nat) : isASCII (Gotime.zeros n) = true.
Proof.
  induction n as [|n IH]; [reflexivity|].
  unfold isASCII in *. cbn [Gotime.zeros String.list_ascii_of_string forallb].
  rewrite IH. reflexivity.
Qed.

Lemma isASCII_pad (width : nat) (z : Z) : isASCII (Gotime.pad width z) = true.
Proof.
  unfold Gotime.pad. cbv zeta.
  destruct (z <? 0); rewrite ?isASCII_append, isASCII_zeros, isASCII_Itoa; reflexivity.
Qed.

Lemma isASCII_labelAt (now : Gotime.date) (i : nat) : isASCII (labelAt now i) = true.
Proof.
  unfold labelAt, monthLabel.
  rewrite !isASCII_append, isASCII_pad, isASCII_Itoa. reflexivity.
Qed.


(** ** The final normalization pass *)





(** ** The assembled history *)

Lemma monthsOf_pos (r : Request) : 0 < monthsOf r.
Proof.
  unfold monthsOf.
  destruct (Strconv.Atoi _) as [months|]; [|lia].
  destruct (Z.leb_spec months 0); lia.
Qed.




(** With months=3 in the middle of March 2025 the labels read 03/2025,
    02/2025 and 01/2025, and the label the upstream reported is gone. *)
Example history_three_months :
  exists e0 e1 e2,
    Body <$> responseOf (handleGetPriceHistory datedUpstream midMonth historyRequest)
               emptyWorld
    = Some (Json (JObj [("history", JArr [e0; e1; e2])]))
    /\ map refMonthOf [e0; e1; e2]
       = [Some (JStr "03/2025"); Some (JStr "02/2025"); Some (JStr "01/2025")].
Proof. do 3 eexists. split; vm_compute; reflexivity. Qed.


(** An object is left without a label too when one of its numbers is beyond
    the range of float64: neither decoding succeeds, the probe stores the
    body as it came and the final pass leaves it alone. *)
Example history_entry_out_of_range :
  decodable (Json hugeYearBody) = false /\
  map (probeAt hugeYearUpstream midMonth historyRequest) [0; 1; 2]%nat
    = [Some (Json hugeYearBody); Some (Json hugeYearBody); Some (Json hugeYearBody)] /\
  responseOf (handleGetPriceHistory hugeYearUpstream midMonth historyRequest) emptyWorld
    = Some (writeJSON (Json (JObj [("history",
                                    JArr [hugeYearBody; hugeYearBody; hugeYearBody])]))) /\
  refMonthOf hugeYearBody = None.
Proof.
  split; [vm_compute; reflexivity|]. split; [vm_compute; reflexivity|].
  split; [vm_compute; reflexivity | reflexivity].
Qed.

(** ** The native history endpoint *)

(** When the body of the native endpoint decodes (every number of it fits a
    float64) into an object with a "history" array, what is written back is
    the encoding of the decoded object with the array replaced; the array
    keeps its length; every element that is an object gets the label of its
    position under "referenceMonth" and keeps the decoded value of every
    other member; every other element is the decoded value as it is. (The
    decoded value of a number is the nearest float64.) In every other case,
    a body that is no JSON text, that holds a number beyond the range of
    float64, that is no object or has no "history" array, the body is written
    back as it came. Up to the 28th of the month the label of position [i] is
    the current month minus [i]. *)
Theorem native_history_relabelled
    (net : upstream) (now : Gotime.date) (r : Request) (w : world) (d : payload) :
  fetchExternal net (histURL r) = Ok d ->
  (forall m arr,
     UnmarshalAny d = Some (VMap m) ->
     m !! "history" = Some (VArr arr) ->
     exists arr',
       responseOf (handleGetPriceHistory net now r) w =
         Some (writeJSON (MarshalValue (VMap (<["history" := VArr arr']> m))))
       /\ length arr' = length arr
       /\ (forall i x, arr !! i = Some x ->
             match x with
             | VMap item =>
                 exists item',
                   arr' !! i = Some (VMap item')
                   /\ item' !! "referenceMonth" = Some (VStr (labelAt now i))
                   /\ forall k, k <> "referenceMonth" -> item' !! k = item !! k
             | _ => arr' !! i = Some x
             end))
  /\ ((forall m arr,
         UnmarshalAny d = Some (VMap m) -> m !! "history" <> Some (VArr arr)) ->
      responseOf (handleGetPriceHistory net now r) w = Some (writeJSON d))
  /\ (Gotime.Day now <= 28 ->
      forall i, labelAt now i = specLabel (monthMinus now i)).
Proof.
  intros Hd. split; [|split].
  - intros m arr Hm Harr. exists (imap (relabelItem now) arr).
    split; [|split; [apply length_imap|]].
    + rewrite handleGetPriceHistory_response, Hd. unfold normalizeDirect.
      rewrite Hm, Harr. reflexivity.
    + intros i x Hx.
      assert (Hi : imap (relabelItem now) arr !! i = Some (relabelItem now i x))
        by (rewrite list_lookup_imap, Hx; reflexivity).
      destruct x as [| | | | |item]; try exact Hi.
      eexists. split; [exact Hi|]. split.
      * apply lookup_insert_eq.
      * intros k Hk. apply lookup_insert_ne. congruence.
  - intros Hno. rewrite handleGetPriceHistory_response, Hd. unfold normalizeDirect.
    destruct (UnmarshalAny d) as [[| | | | |m]|] eqn:Hm; try reflexivity.
    destruct (m !! "history") as [[| | | |arr|]|] eqn:Harr; try reflexivity.
    exfalso. exact (Hno m arr eq_refl Harr).
  - intros Hday i. apply labelAt_monthMinus, Hday.
Qed.

Lemma native_history_relabelled_witness :
  exists arr',
    responseOf (handleGetPriceHistory nativeUpstream midMonth historyRequest) emptyWorld =
      Some (writeJSON (MarshalValue (VMap (<["history" := VArr arr']> nativeBody))))
    /\ length arr' = 3%nat.
Proof.
  destruct (native_history_relabelled nativeUpstream midMonth historyRequest emptyWorld
              (Json nativeDocument)) as (H & _).
  - reflexivity.
  - destruct (H nativeBody nativeItems) as (arr' & Hresp & Hlen & _).
    + reflexivity.
    + reflexivity.
    + exists arr'. split; [exact Hresp | exact Hlen].
Defined.

(** A number of the native body comes back as the float64 it was decoded
    into: an integer above 2^53 can change. *)
Example native_history_number_rounded :
  responseOf
    (handleGetPriceHistory
       (fun _ => Replied 200
          (Json (JObj [("history",
                        JArr [JObj [("price", JNum (NInt 9007199254740993))]])])))
       midMonth historyRequest) emptyWorld
  = Some (writeJSON
      (Json (JObj [("history",
                    JArr [JObj [("price", JNum (NInt 9007199254740992));
                                ("referenceMonth", JStr "03/2025")]])]))).
Proof. vm_compute. reflexivity. Qed.

(** A native body with a number beyond the range of float64 does not decode
    and is written back as it came, its entries unlabelled. *)
Example native_history_out_of_range :
  UnmarshalAny (Json (JObj [("history", JArr [hugeYearBody])])) = None /\
  responseOf
    (handleGetPriceHistory
       (fun _ => Replied 200 (Json (JObj [("history", JArr [hugeYearBody])])))
       midMonth historyRequest) emptyWorld
  = Some (writeJSON (Json (JObj [("history", JArr [hugeYearBody])]))).
Proof. split; vm_compute; reflexivity. Qed.

(** C6, at the failing input: on 31 March 2025 the native endpoint returns
    three entries; the second one is labelled 03/2025 like the first, where
    the current month minus one is 02/2025 (February has no 31st, and the date
    runs over into March). *)
Theorem native_history_month_end :
  Gotime.valid monthEnd /\
  fetchExternal nativeUpstream (histURL historyRequest) = Ok (Json nativeDocument) /\
  responseOf (handleGetPriceHistory nativeUpstream monthEnd historyRequest) emptyWorld
    = Some (writeJSON
        (Json (JObj [("history",
                      JArr [JObj [("price", JStr "R$ 10.000,00");
                                  ("referenceMonth", JStr "03/2025")];
                            JObj [("price", JStr "R$ 9.900,00");
                                  ("referenceMonth", JStr "03/2025")];
                            JObj [("price", JStr "R$ 9.800,00");
                                  ("referenceMonth", JStr "01/2025")]])]))) /\
  map (fun i => specLabel (monthMinus monthEnd i)) [0; 1; 2]%nat
    = ["03/2025"; "02/2025"; "01/2025"].
Proof.
  split; [unfold Gotime.valid; cbn; lia|].
  split; [reflexivity|]. split; vm_compute; reflexivity.
Qed.

(** ** The cached handlers *)

Section Brands.
Variables (net : upstream) (now later : instant) (r : Request) (w : world).

Lemma handleGetBrands_run :
  handleGetBrands net now later r w =
  match getCached now (cache w) (brandsKey r) with
  | (cached, true) => (Some (writeJSON cached), brandsCounted r w)
  | (_, false) =>
      match fetchExternal net (brandsURL r) with
      | Err err =>
          (Some (httpError err StatusBadGateway),
           worldAfter (fetch net (brandsURL r)) (brandsCounted r w))
      | Ok d =>
          (Some (writeJSON d),
           worldAfter (storeCache later (brandsKey r) d (12 * Hour))
             (worldAfter (fetch net (brandsURL r)) (brandsCounted r w)))
      end
  end.
Proof.
  unfold handleGetBrands.
  rewrite (bind_run_Some _ _ _ tt)
    by (unfold responseOf; rewrite recordMetrics_run by reflexivity; reflexivity).
  cbv zeta. fold (brandsType r). fold (brandsKey r) (brandsURL r).
  fold (brandsCounted r w).
  rewrite (bind_run_Some _ _ _ (getCached now (cache w) (brandsKey r)))
    by (unfold responseOf, lookupCache; cbn [fst];
        change (brandsCounted r w) with (counted "/api/brands" r w);
        rewrite counted_cache; reflexivity).
  change (worldAfter (lookupCache now (brandsKey r)) (brandsCounted r w))
    with (brandsCounted r w).
  destruct (getCached now (cache w) (brandsKey r)) as [cached [|]]; [reflexivity|].
  rewrite (bind_run_Some _ _ _ (fetchExternal net (brandsURL r))) by apply fetch_run.
  destruct (fetchExternal net (brandsURL r)); [reflexivity|].
  rewrite (bind_run_Some _ _ _ tt) by reflexivity. reflexivity.
Qed.

Lemma brandsCounted_trace :
  trace (brandsCounted r w) = trace w ++ [EvInc httpRequestsTotal ["/api/brands"; Method r]].
Proof. apply (counted_trace w "/api/brands" r). reflexivity. Qed.
End Brands.

(** A brands request that misses the cache and fetches a payload stores it,
    and a later request for the same vehicle type, up to twelve hours after
    the store, is answered with that payload from the cache, without a fetch,
    whatever the upstream would say by then; past the twelve hours the
    upstream is asked again. *)
Theorem brands_served_from_cache
    (net net2 : upstream) (now later t2 t3 : instant) (r r2 : Request)
    (w : world) (d : payload) :
  (getCached now (cache w) (brandsKey r)).2 = false ->
  fetchExternal net (brandsURL r) = Ok d ->
  brandsType r2 = brandsType r ->
  let w1 := worldAfter (handleGetBrands net now later r) w in
  let w2 := worldAfter (handleGetBrands net2 t2 t3 r2) w1 in
  responseOf (handleGetBrands net now later r) w = Some (writeJSON d) /\
  cache w1 = setCached later (cache w) (brandsKey r) d (12 * Hour) /\
  (t2 <= later + 12 * Hour ->
   responseOf (handleGetBrands net2 t2 t3 r2) w1 = Some (writeJSON d) /\
   trace w2 = trace w1 ++ [EvInc httpRequestsTotal ["/api/brands"; Method r2]]) /\
  (later + 12 * Hour < t2 ->
   trace w2 = trace w1 ++ [EvInc httpRequestsTotal ["/api/brands"; Method r2];
                           EvFetch (brandsURL r2)]).
Proof.
  intros Hmiss Hd Htype w1 w2.
  assert (Hkey : brandsKey r2 = brandsKey r) by (unfold brandsKey; rewrite Htype; reflexivity).
  assert (Hrun1 : handleGetBrands net now later r w =
                  (Some (writeJSON d),
                   worldAfter (storeCache later (brandsKey r) d (12 * Hour))
                     (worldAfter (fetch net (brandsURL r)) (brandsCounted r w)))).
  { rewrite handleGetBrands_run.
    destruct (getCached now (cache w) (brandsKey r)) as [cached [|]];
      [discriminate Hmiss|]. rewrite Hd. reflexivity. }
  assert (Hc1 : cache w1 = setCached later (cache w) (brandsKey r) d (12 * Hour)).
  { subst w1. unfold worldAfter at 1. rewrite Hrun1. cbn [snd].
    unfold worldAfter at 1. cbn [storeCache snd cache]. rewrite fetch_world.
    cbn [cache]. change (brandsCounted r w) with (counted "/api/brands" r w).
    rewrite counted_cache. reflexivity. }
  split; [unfold responseOf; rewrite Hrun1; reflexivity|].
  split; [exact Hc1|].
  assert (Hget : getCached t2 (cache w1) (brandsKey r2) =
                 if t2 >? later + 12 * Hour then (nilBytes, false) else (d, true)).
  { rewrite Hc1, Hkey. unfold getCached, setCached.
    rewrite lookup_insert_eq. reflexivity. }
  split.
  - intros Ht. subst w2. unfold responseOf, worldAfter at 1.
    rewrite handleGetBrands_run, Hget.
    destruct (Z.gtb_spec t2 (later + 12 * Hour)); [lia|].
    split; [reflexivity | apply brandsCounted_trace].
  - intros Ht. subst w2. unfold worldAfter at 1.
    rewrite handleGetBrands_run, Hget.
    destruct (Z.gtb_spec t2 (later + 12 * Hour)); [|lia].
    destruct (fetchExternal net2 (brandsURL r2));
      cbn [snd];
      [rewrite fetch_world | unfold worldAfter at 1; cbn [storeCache snd trace];
                             rewrite fetch_world];
      cbn [trace]; rewrite brandsCounted_trace, <- app_assoc; reflexivity.
Qed.

Lemma brands_served_from_cache_witness :
  responseOf (handleGetBrands downUpstream 1 2 brandsRequest)
    (worldAfter (handleGetBrands (fun _ => Replied 200 (Json (JArr []))) 0 0 brandsRequest)
       emptyWorld)
  = Some (writeJSON (Json (JArr []))).
Proof.
  destruct (brands_served_from_cache (fun _ => Replied 200 (Json (JArr []))) downUpstream
              0 0 1 2 brandsRequest brandsRequest emptyWorld (Json (JArr [])))
    as (_ & _ & H & _).
  - reflexivity.
  - reflexivity.
  - reflexivity.
  - destruct H as [H _]; [vm_compute; discriminate | exact H].
Defined.

(** ** The months parameter *)

(** What [strconv.Atoi] reads: the digits of a numeral give its value. *)
Lemma readDigits_acc (d : Decimal.uint) (acc : positive) :
  Strconv.readDigits (Z.pos acc) (NilEmpty.string_of_uint d)
  = Some (Z.pos (Pos.of_uint_acc d acc)).
Proof.
  revert acc. induction d; intros acc;
    cbn [NilEmpty.string_of_uint Strconv.readDigits Pos.of_uint_acc];
    [reflexivity|..];
    (change (Regexp.isDigit _) with true; cbn match;
     rewrite <- IHd; f_equal; unfold Strconv.digitVal;
     match goal with
     | |- context [Z.of_nat (nat_of_ascii ?c)] =>
         let n := eval vm_compute in (Z.of_nat (nat_of_ascii c)) in
         change (Z.of_nat (nat_of_ascii c)) with n
     end; lia).
Qed.

Lemma readDigits_uint (d : Decimal.uint) :
  Strconv.readDigits 0 (NilEmpty.string_of_uint d) = Some (Z.of_uint d).
Proof.
  unfold Z.of_uint.
  induction d; cbn [NilEmpty.string_of_uint Strconv.readDigits Pos.of_uint];
    [reflexivity|..];
    change (Regexp.isDigit _) with true; cbn match;
    match goal with
    | |- Strconv.readDigits ?a _ = _ =>
        let v := eval vm_compute in a in change a with v
    end;
    first [ exact IHd | apply readDigits_acc ].
Qed.

Lemma isDigit_uint (c : ascii) (d : Decimal.uint) :
  Regexp.isDigit c = true ->
  exists d', NilEmpty.string_of_uint d' = String c (NilEmpty.string_of_uint d).
Proof.
  intros Hc.
  destruct c as [[] [] [] [] [] [] [] []]; try discriminate Hc.
  all: first [ exists (Decimal.D0 d); reflexivity | exists (Decimal.D1 d); reflexivity
             | exists (Decimal.D2 d); reflexivity | exists (Decimal.D3 d); reflexivity
             | exists (Decimal.D4 d); reflexivity | exists (Decimal.D5 d); reflexivity
             | exists (Decimal.D6 d); reflexivity | exists (Decimal.D7 d); reflexivity
             | exists (Decimal.D8 d); reflexivity | exists (Decimal.D9 d); reflexivity ].
Qed.

Lemma readDigits_digits (s : string) (acc n : Z) :
  Strconv.readDigits acc s = Some n -> exists d, NilEmpty.string_of_uint d = s.
Proof.
  revert acc. induction s as [|c s IH]; intros acc H.
  - exists Decimal.Nil. reflexivity.
  - cbn [Strconv.readDigits] in H. destruct (Regexp.isDigit c) eqn:Hc; [|discriminate].
    destruct (IH _ H) as (d & <-). apply isDigit_uint, Hc.
Qed.

Lemma uint_head (d : Decimal.uint) :
  d <> Decimal.Nil ->
  exists c s, NilEmpty.string_of_uint d = String c s /\ Regexp.isDigit c = true.
Proof.
  destruct d; [congruence|..]; intros _; eexists _, _; (split; [reflexivity|reflexivity]).
Qed.

Lemma Atoi_numeral (sign : string) (d : Decimal.uint) :
  isSign sign -> d <> Decimal.Nil ->
  Strconv.Atoi (numeral sign d)
  = if (Strconv.minInt <=? numeralValue sign d) && (numeralValue sign d <=? Strconv.maxInt)
    then Some (numeralValue sign d) else None.
Proof.
  intros Hs Hd. destruct (uint_head d Hd) as (c & s & Hcs & Hc).
  pose proof (readDigits_uint d) as Hread. unfold numeral, numeralValue.
  destruct Hs as [->|[->| ->]]; cbn [String.app String.eqb Ascii.eqb Bool.eqb].
  - rewrite Hcs in *. unfold Strconv.Atoi.
    assert (Hne : c <> "-"%char /\ c <> "+"%char)
      by (split; intros ->; discriminate Hc).
    destruct Hne as [Hm Hp].
    destruct c as [[] [] [] [] [] [] [] []]; try discriminate Hc;
      rewrite append_nil_l; cbv beta iota zeta; rewrite Hread; reflexivity.
  - unfold Strconv.Atoi. rewrite Hcs in *. rewrite append_cons, append_nil_l.
    cbv beta iota zeta. rewrite Hread. reflexivity.
  - unfold Strconv.Atoi. rewrite Hcs in *. rewrite append_cons, append_nil_l.
    cbv beta iota zeta. rewrite Hread. reflexivity.
Qed.

Lemma Atoi_Some_numeral (s : string) (z : Z) :
  Strconv.Atoi s = Some z ->
  exists sign d, isSign sign /\ d <> Decimal.Nil /\ s = numeral sign d.
Proof.
  unfold Strconv.Atoi.
  assert (Hgen : forall sign ds,
             isSign sign ->
             match ds with
             | "" => None
             | _ => match Strconv.readDigits 0 ds with
                    | Some n => Some n
                    | None => None
                    end
             end <> None ->
             exists d, d <> Decimal.Nil /\ sign +:+ ds = numeral sign d).
  { intros sign ds Hs H. destruct ds as [|c ds]; [congruence|].
    destruct (Strconv.readDigits 0 (String c ds)) as [n|] eqn:Hn; [|congruence].
    destruct (readDigits_digits _ _ _ Hn) as (d & Hd). exists d. split.
    - intros ->. discriminate Hd.
    - unfold numeral. rewrite Hd. reflexivity. }
  assert (Happ : forall c s', String c s' = String c "" +:+ s')
    by (intros; rewrite append_cons, append_nil_l; reflexivity).
  intros H.
  assert (Hcase : (exists s', s = String "-" s') \/ (exists s', s = String "+" s') \/
                  (forall s', s <> String "-" s') /\ (forall s', s <> String "+" s')).
  { destruct s as [|c s']; [right; right; split; intros; discriminate|].
    destruct (Ascii.eqb_spec c "-") as [->|Hm]; [left; eauto|].
    destruct (Ascii.eqb_spec c "+") as [->|Hp]; [right; left; eauto|].
    right; right; split; intros s'' [= -> _]; congruence. }
  destruct Hcase as [(s' & ->)|[(s' & ->)|[Hm Hp]]].
  - destruct (Hgen "-" s') as (d & Hd & Heq); [right; right; reflexivity| |].
    + destruct s'; [discriminate H|]. destruct (Strconv.readDigits 0 _); [discriminate|discriminate H].
    + exists "-", d. split; [right; right; reflexivity|]. split; [exact Hd |].
      rewrite Happ. exact Heq.
  - destruct (Hgen "+" s') as (d & Hd & Heq); [right; left; reflexivity| |].
    + destruct s'; [discriminate H|]. destruct (Strconv.readDigits 0 _); [discriminate|discriminate H].
    + exists "+", d. split; [right; left; reflexivity|]. split; [exact Hd |].
      rewrite Happ. exact Heq.
  - destruct (Hgen "" s) as (d & Hd & Heq); [left; reflexivity| |].
    + destruct s as [|c s']; [discriminate H|].
      destruct c as [[] [] [] [] [] [] [] []];
        first [ exfalso; exact (Hm s' eq_refl)
              | exfalso; exact (Hp s' eq_refl)
              | destruct (Strconv.readDigits 0 _); [discriminate|discriminate H] ].
    + exists "", d. split; [left; reflexivity|]. split; [exact Hd |].
      rewrite <- Heq, append_nil_l. reflexivity.
Qed.

(** The number of months is 12 when the parameter is absent, when it is not a
    decimal numeral (a sign, which may be absent, followed by at least one
    digit), when the value of the numeral is beyond the range of [int], and
    when it is zero or negative; otherwise it is the value of the numeral. *)
Theorem monthsOf_default (r : Request) :
  (QueryGet r "months" = "" -> monthsOf r = 12) /\
  (forall sign d,
     isSign sign -> d <> Decimal.Nil -> QueryGet r "months" = numeral sign d ->
     monthsOf r = if (0 <? numeralValue sign d) && (numeralValue sign d <=? Strconv.maxInt)
                  then numeralValue sign d else 12) /\
  ((forall sign d,
      isSign sign -> d <> Decimal.Nil -> QueryGet r "months" <> numeral sign d) ->
   monthsOf r = 12).
Proof.
  unfold monthsOf. cbv zeta. split; [|split].
  - intros ->. reflexivity.
  - intros sign d Hs Hd Heq.
    destruct (String.eqb_spec (QueryGet r "months") "") as [He|_].
    + exfalso. rewrite Heq in He. destruct (uint_head d Hd) as (c & s & Hcs & _).
      unfold numeral in He. rewrite Hcs in He.
      destruct Hs as [->|[->| ->]]; discriminate He.
    + rewrite Heq, (Atoi_numeral sign d Hs Hd).
      assert (Hmin : Strconv.minInt < 0) by reflexivity.
      assert (Hmax : 0 < Strconv.maxInt) by reflexivity.
      destruct (Z.leb_spec Strconv.minInt (numeralValue sign d));
        destruct (Z.leb_spec (numeralValue sign d) Strconv.maxInt);
        destruct (Z.ltb_spec 0 (numeralValue sign d));
        cbn [andb]; try reflexivity; try lia;
        destruct (Z.leb_spec (numeralValue sign d) 0); try reflexivity; lia.
  - intros Hno. destruct (String.eqb_spec (QueryGet r "months") "") as [_|_];
      [reflexivity|].
    destruct (Strconv.Atoi (QueryGet r "months")) as [z|] eqn:Hz; [|reflexivity].
    exfalso. destruct (Atoi_Some_numeral _ _ Hz) as (sign & d & Hs & Hd & Heq).
    exact (Hno sign d Hs Hd Heq).
Qed.

Lemma monthsOf_default_witness :
  monthsOf historyRequest = 3 /\ monthsOf brandsRequest = 12 /\
  monthsOf (monthsRequest "-3") = 12 /\
  monthsOf (monthsRequest "9223372036854775808") = 12 /\
  monthsOf (monthsRequest "+007") = 7.
Proof.
  destruct (monthsOf_default historyRequest) as (_ & H3 & _).
  destruct (monthsOf_default brandsRequest) as (H12 & _).
  destruct (monthsOf_default (monthsRequest "-3")) as (_ & Hneg & _).
  destruct (monthsOf_default (monthsRequest "9223372036854775808")) as (_ & Hbig & _).
  destruct (monthsOf_default (monthsRequest "+007")) as (_ & Hplus & _).
  split; [|split; [|split; [|split]]].
  - apply (H3 "" (Decimal.D3 Decimal.Nil));
      [left; reflexivity | discriminate | reflexivity].
  - apply H12; reflexivity.
  - apply (Hneg "-" (Decimal.D3 Decimal.Nil));
      [right; right; reflexivity | discriminate | reflexivity].
  - rewrite (Hbig "" (Decimal.D9 (Decimal.D2 (Decimal.D2 (Decimal.D3 (Decimal.D3
              (Decimal.D7 (Decimal.D2 (Decimal.D0 (Decimal.D3 (Decimal.D6
              (Decimal.D8 (Decimal.D5 (Decimal.D4 (Decimal.D7 (Decimal.D7
              (Decimal.D5 (Decimal.D8 (Decimal.D0 (Decimal.D8 Decimal.Nil))))))))))))))))))));
      [reflexivity | left; reflexivity | discriminate | reflexivity].
  - apply (Hplus "+" (Decimal.D0 (Decimal.D0 (Decimal.D7 Decimal.Nil))));
      [right; left; reflexivity | discriminate | reflexivity].
Defined.

(** A parameter that is no numeral. *)
Example monthsOf_not_a_number : monthsOf (monthsRequest "3 months") = 12.
Proof. reflexivity. Qed.

(** * Further properties of the code *)

(** ** The price parser: what is read and what is ignored *)

Lemma takeClass_all (m : string) :
  Forall (fun c => Regexp.numericClass c = true) (bytes m) -> Regexp.takeClass m = m.
Proof.
  induction m as [|c m IH]; [reflexivity|]. intros H.
  inversion H as [|? ? Hc Hm]; subst. cbn [Regexp.takeClass]. rewrite Hc, IH by exact Hm.
  reflexivity.
Qed.

Lemma FindString_all (m : string) :
  Forall (fun c => Regexp.numericClass c = true) (bytes m) -> Regexp.FindString m = m.
Proof.
  intros H. destruct m as [|c m]; [reflexivity|].
  pose proof (takeClass_all _ H) as Ht.
  inversion H as [|? ? Hc Hm]; subst. cbn [Regexp.FindString]. rewrite Hc. exact Ht.
Qed.

Lemma FindString_idem (s : string) :
  Regexp.FindString (Regexp.FindString s) = Regexp.FindString s.
Proof.
  destruct (FindString_split s) as (_ & _ & _ & _ & Hm & _).
  apply FindString_all, Hm.
Qed.

Lemma parsePrice_of_FindString (s t : string) :
  Regexp.FindString s = Regexp.FindString t -> parsePrice s = parsePrice t.
Proof. intros H. rewrite !parsePrice_refines, H. reflexivity. Qed.

(** [parsePrice] reads the first run of digits, commas and points and nothing
    else: the result is that of the run alone; bytes outside the class in
    front of the input or behind it (a currency sign, a minus sign, blanks)
    change nothing; and whatever follows the byte that ends the run, further
    numbers included, is ignored. *)
Theorem parsePrice_reads_first_run (s : string) :
  parsePrice s = parsePrice (Regexp.FindString s) /\
  (forall pre post,
     Forall (fun c => Regexp.numericClass c = false) (bytes pre) ->
     Forall (fun c => Regexp.numericClass c = false) (bytes post) ->
     parsePrice (pre +:+ s +:+ post) = parsePrice s) /\
  (forall c rest,
     s <> "" ->
     Forall (fun c => Regexp.numericClass c = true) (bytes s) ->
     Regexp.numericClass c = false ->
     parsePrice (s +:+ String c rest) = parsePrice s).
Proof.
  split; [|split].
  - apply parsePrice_of_FindString. symmetry. apply FindString_idem.
  - intros pre post Hpre Hpost. apply parsePrice_of_FindString.
    apply FindString_outside; assumption.
  - intros c rest Hne Hall Hc. apply parsePrice_of_FindString.
    rewrite (FindString_all s Hall).
    destruct s as [|a s]; [contradiction|].
    inversion Hall as [|? ? Ha Hs]; subst.
    rewrite append_cons. cbn [Regexp.FindString]. rewrite Ha.
    rewrite <- append_cons.
    rewrite takeClass_outside by exact Hc. apply takeClass_all, Hall.
Qed.

Lemma parsePrice_reads_first_run_witness :
  parsePrice "R$ -10.000,00 (2014)" = parsePrice "10.000,00".
Proof.
  destruct (parsePrice_reads_first_run "R$ -10.000,00 (2014)") as (H & _).
  exact H.
Defined.

(** ** The price parser: sign and separators *)

Lemma digitVal_nonneg (c : ascii) : Regexp.isDigit c = true -> 0 <= Strconv.digitVal c <= 9.
Proof.
  unfold Regexp.isDigit, Strconv.digitVal. intros H.
  apply andb_true_iff in H as [H1 H2].
  apply Nat.leb_le in H1, H2. lia.
Qed.

Lemma readFloat_nonneg (s : string) (mant : Z) (frac : nat) (sawdot sawdigits : bool)
    (mant' : Z) (frac' : nat) :
  0 <= mant ->
  Strconv.readFloat mant frac sawdot sawdigits s = Some (mant', frac') -> 0 <= mant'.
Proof.
  revert mant frac sawdot sawdigits.
  induction s as [|c s IH]; intros mant frac sawdot sawdigits Hm; cbn [Strconv.readFloat].
  - destruct sawdigits; [|discriminate]. intros [= <- _]. exact Hm.
  - destruct (Ascii.eqb c ".").
    + destruct sawdot; [discriminate|]. apply IH, Hm.
    + destruct (Regexp.isDigit c) eqn:Hd; [|discriminate].
      apply IH. pose proof (digitVal_nonneg c Hd). lia.
Qed.

Lemma parsePrice_Ok_nonneg (s : string) (f : Strconv.float64) :
  parsePrice s = Ok f -> (0 <= f)%Q.
Proof.
  rewrite parsePrice_refines.
  destruct (String.eqb (Regexp.FindString s) ""); [discriminate|].
  unfold Strconv.ParseFloat.
  destruct (Strconv.readFloat 0 0 false false _) as [[mant frac]|] eqn:Hr; [|discriminate].
  destruct (_ <=? mant); [discriminate|]. cbn [fromParseFloat]. intros [= <-].
  apply readFloat_nonneg in Hr; [|lia].
  rewrite Qred_correct. unfold Qle. cbn. lia.
Qed.

(** A price that parses is never negative: a minus sign is outside the
    pattern, so it is never part of what is read. *)
Theorem parsePrice_nonneg (s : string) (f : Strconv.float64) :
  parsePrice s = Ok f -> (0 <= f)%Q.
Proof. apply parsePrice_Ok_nonneg. Qed.

Lemma parsePrice_nonneg_witness :
  parsePrice "-1.234,56" = Ok (30864 # 25)%Q /\ (0 <= 30864 # 25)%Q.
Proof.
  assert (H : parsePrice "-1.234,56" = Ok (30864 # 25)%Q) by (vm_compute; reflexivity).
  split; [exact H | exact (parsePrice_nonneg _ _ H)].
Defined.

Lemma point_not_digit (c : ascii) : isPoint c = true -> Regexp.isDigit c = false.
Proof. unfold isPoint. intros H. apply Ascii.eqb_eq in H. subst. reflexivity. Qed.

Lemma comma_not_digit (c : ascii) : isComma c = true -> Regexp.isDigit c = false.
Proof. unfold isComma. intros H. apply Ascii.eqb_eq in H. subst. reflexivity. Qed.

Lemma comma_not_point (c : ascii) : isComma c = true -> isPoint c = false.
Proof. unfold isComma. intros H. apply Ascii.eqb_eq in H. subst. reflexivity. Qed.

Lemma countBytes_cons (p : ascii -> bool) (c : ascii) (s : string) :
  countBytes p (String c s) = ((if p c then 1 else 0) + countBytes p s)%nat.
Proof. unfold countBytes, bytes. cbn. destruct (p c); reflexivity. Qed.

Lemma hasDigit_cons (c : ascii) (s : string) :
  hasDigit (String c s) = Regexp.isDigit c || hasDigit s.
Proof. reflexivity. Qed.

(** On digits and points the scan fails exactly when it meets no digit or a
    second point. *)
Lemma readFloat_None_iff (s : string) (mant : Z) (frac : nat) (sawdot sawdigits : bool) :
  Forall (fun c => Regexp.isDigit c || isPoint c = true) (bytes s) ->
  Strconv.readFloat mant frac sawdot sawdigits s = None <->
  (sawdigits = false /\ hasDigit s = false)
  \/ (2 <= countBytes isPoint s + (if sawdot then 1 else 0))%nat.
Proof.
  revert mant frac sawdot sawdigits.
  induction s as [|c s IH]; intros mant frac sawdot sawdigits Hall.
  - cbn [Strconv.readFloat]. unfold countBytes. cbn.
    destruct sawdigits, sawdot; split; try discriminate; try tauto;
      intros [[? _]|?]; try discriminate; lia.
  - inversion Hall as [|? ? Hc Hs]; subst.
    cbn [Strconv.readFloat]. rewrite countBytes_cons, hasDigit_cons.
    change (Ascii.eqb c ".") with (isPoint c).
    destruct (isPoint c) eqn:Hp.
    + rewrite (point_not_digit c Hp). cbn [orb].
      destruct sawdot.
      * split; [intros _; right; lia | reflexivity].
      * rewrite (IH mant frac true sawdigits Hs). split; intros [H|H]; [left|right|left|right];
          try exact H; lia.
    + rewrite orb_false_r in Hc. rewrite Hc. cbn [orb].
      rewrite (IH _ _ sawdot true Hs).
      destruct sawdot; split; intros [[H H']|H]; try discriminate; right; lia.
Qed.

Lemma count_points_rewritten (l : list ascii) :
  length (List.filter isPoint
            (map commaToPoint (List.filter (fun c => negb (isPoint c)) l)))
  = length (List.filter isComma l).
Proof.
  induction l as [|c l IH]; [reflexivity|]. cbn [List.filter].
  destruct (isPoint c) eqn:Hp; cbn [negb].
  - destruct (isComma c) eqn:Hc; [|exact IH].
    rewrite (comma_not_point c Hc) in Hp. discriminate.
  - cbn [map List.filter]. unfold commaToPoint at 1.
    destruct (isComma c) eqn:Hc; cbn.
    + f_equal. exact IH.
    + rewrite Hp. exact IH.
Qed.

Lemma count_points_commas (l : list ascii) :
  existsb isPoint l = false ->
  length (List.filter isPoint (map commaToPoint l)) = length (List.filter isComma l).
Proof.
  induction l as [|c l IH]; [reflexivity|]. cbn [existsb map List.filter].
  intros H. apply orb_false_iff in H as [Hp Hl]. unfold commaToPoint at 1.
  destruct (isComma c) eqn:Hc; cbn.
  - f_equal. apply IH, Hl.
  - rewrite Hp. apply IH, Hl.
Qed.

Lemma isDigit_commaToPoint (c : ascii) :
  Regexp.isDigit (commaToPoint c) = Regexp.isDigit c.
Proof.
  unfold commaToPoint. destruct (isComma c) eqn:Hc; [|reflexivity].
  rewrite (comma_not_digit c Hc). reflexivity.
Qed.

Lemma existsb_digit_rewritten (l : list ascii) (keep : ascii -> bool) :
  (forall c, keep c = false -> Regexp.isDigit c = false) ->
  existsb Regexp.isDigit (map commaToPoint (List.filter keep l))
  = existsb Regexp.isDigit l.
Proof.
  intros Hkeep. induction l as [|c l IH]; [reflexivity|]. cbn [List.filter existsb].
  destruct (keep c) eqn:Hk.
  - cbn [map existsb]. rewrite isDigit_commaToPoint, IH. reflexivity.
  - rewrite (Hkeep c Hk), IH. reflexivity.
Qed.

Lemma existsb_digit_map (l : list ascii) :
  existsb Regexp.isDigit (map commaToPoint l) = existsb Regexp.isDigit l.
Proof.
  induction l as [|c l IH]; [reflexivity|]. cbn. rewrite isDigit_commaToPoint, IH.
  reflexivity.
Qed.

Lemma specDecimalText_points (m : string) :
  countBytes isPoint (specDecimalText m) = separators m.
Proof.
  unfold specDecimalText, separators, countBytes.
  destruct (existsb isPoint (bytes m)) eqn:Hp, (existsb isComma (bytes m)) eqn:Hc;
    cbn [andb]; rewrite ?bytes_string; try reflexivity.
  - apply count_points_rewritten.
  - apply count_points_commas, Hp.
Qed.

Lemma specDecimalText_hasDigit (m : string) :
  hasDigit (specDecimalText m) = hasDigit m.
Proof.
  unfold specDecimalText, hasDigit.
  destruct (existsb isPoint (bytes m)), (existsb isComma (bytes m));
    cbn [andb]; rewrite ?bytes_string; try reflexivity.
  - apply existsb_digit_rewritten. intros c Hc.
    apply point_not_digit. destruct (isPoint c); [reflexivity | discriminate].
  - apply existsb_digit_map.
Qed.

(** When a price fails to parse. With a numeric part in the input, the float
    parser reports a syntax error exactly when that part holds no digit or
    would be left with two or more decimal points: two or more commas, or no
    comma and two or more points (so "1.234.567" and "1,234,567.00" both
    fail). Otherwise the price parses, unless it is beyond the range of
    float64. *)
Theorem parsePrice_syntax_error_iff (s : string) :
  let m := Regexp.FindString s in
  m <> "" ->
  (parsePrice s =
     Err (ParseFloatError {| Strconv.Func := "ParseFloat";
                             Strconv.Num := specDecimalText m;
                             Strconv.Kind := Strconv.ErrSyntax |})
   <-> hasDigit m = false \/ (2 <= separators m)%nat) /\
  (hasDigit m = true -> (separators m <= 1)%nat ->
   (exists f, parsePrice s = Ok f) \/
   parsePrice s =
     Err (ParseFloatError {| Strconv.Func := "ParseFloat";
                             Strconv.Num := specDecimalText m;
                             Strconv.Kind := Strconv.ErrRange |})).
Proof.
  intros m Hm. rewrite parsePrice_refines. fold m.
  apply String.eqb_neq in Hm. rewrite Hm.
  pose proof (readFloat_None_iff (specDecimalText m) 0 0 false false
                (parsePrice_alphabet s)) as Hiff.
  fold m in Hiff.
  rewrite specDecimalText_points, specDecimalText_hasDigit, Nat.add_0_r in Hiff.
  unfold Strconv.ParseFloat.
  destruct (Strconv.readFloat 0 0 false false (specDecimalText m)) as [[mant frac]|].
  - assert (Hok : ~ (hasDigit m = false \/ (2 <= separators m)%nat)).
    { intros H. destruct Hiff as [_ Hiff].
      assert (Hx : (false = false /\ hasDigit m = false) \/ (2 <= separators m)%nat)
        by (destruct H; [left; split; [reflexivity | assumption] | right; assumption]).
      specialize (Hiff Hx). discriminate. }
    split.
    + split; [|tauto]. destruct (_ <=? mant); cbn; discriminate.
    + intros _ _. destruct (_ <=? mant); cbn; [right; reflexivity | left; eauto].
  - destruct Hiff as [Hiff _]. specialize (Hiff eq_refl).
    split.
    + split; [|reflexivity]. intros _. destruct Hiff as [[_ H]|H]; [left | right]; exact H.
    + intros Hd Hsep. destruct Hiff as [[_ H]|H]; [congruence | lia].
Qed.

Lemma parsePrice_syntax_error_iff_witness :
  parsePrice "R$ 1.234.567" =
    Err (ParseFloatError {| Strconv.Func := "ParseFloat"; Strconv.Num := "1.234.567";
                            Strconv.Kind := Strconv.ErrSyntax |}).
Proof.
  destruct (parsePrice_syntax_error_iff "R$ 1.234.567") as ((_ & H) & _).
  - discriminate.
  - apply H. right. vm_compute. lia.
Defined.

(** ** Records: encoding and decoding *)

Lemma setField_ranged (f : field) (v : json) (pr pr' : PriceResponse) :
  wellRanged pr -> setField f v pr = Some pr' -> wellRanged pr'.
Proof.
  intros [Hy Hv]. unfold setField.
  destruct v as [| |n|s| |]; try discriminate.
  - intros [= <-]. split; assumption.
  - destruct (intOf n) as [z|]; [|discriminate].
    destruct (isIntField f) eqn:Hf; [|discriminate]. cbn [andb].
    destruct (Z.leb_spec Strconv.minInt z); [|discriminate].
    destruct (Z.leb_spec z Strconv.maxInt); [|discriminate].
    cbn [andb]. intros [= <-].
    destruct f; try discriminate; split;
      cbn [setInt ModelYear VehicleType]; unfold inIntRange; try assumption;
      split; assumption.
  - destruct (isIntField f); [discriminate|]. intros [= <-].
    destruct f; split; assumption.
Qed.

Lemma decodeMembers_ranged (l : list (string * json)) (pr pr' : PriceResponse) :
  wellRanged pr -> decodeMembers l pr = Some pr' -> wellRanged pr'.
Proof.
  revert pr. induction l as [|[k v] l IH]; intros pr Hpr; cbn [decodeMembers].
  - intros [= <-]. exact Hpr.
  - destruct (fieldOfKey (Utf8.ToValid k)) as [f|]; [|apply IH, Hpr].
    destruct (setField f v pr) as [pr1|] eqn:Hset; [|discriminate].
    apply IH. eapply setField_ranged; eassumption.
Qed.

Lemma zeroPriceResponse_ranged : wellRanged zeroPriceResponse.
Proof. split; split; vm_compute; discriminate. Qed.

Lemma Unmarshal_ranged (d : payload) (pr : PriceResponse) :
  UnmarshalPriceResponse d = Some pr -> wellRanged pr.
Proof.
  unfold UnmarshalPriceResponse. destruct d as [b|j]; [discriminate|].
  destruct j; try discriminate.
  - intros [= <-]. apply zeroPriceResponse_ranged.
  - apply decodeMembers_ranged, zeroPriceResponse_ranged.
Qed.

Lemma intOf_NInt (z : Z) : intOf (NInt z) = Some z.
Proof.
  unfold intOf, NInt. rewrite N2Z.inj_abs_N.
  destruct (Z.ltb_spec z 0); f_equal; lia.
Qed.

Lemma validStrings_withReferenceMonth (pr : PriceResponse) (now : Gotime.date) (i : nat) :
  validStrings pr -> validStrings (withReferenceMonth pr (labelAt now i)).
Proof.
  unfold validStrings. cbn [withReferenceMonth Price Brand Model Fuel CodeFipe
                            ReferenceMonth AcronymFuel].
  intros H.
  inversion H as [|? ? H1 H']; subst. inversion H' as [|? ? H2 H'']; subst.
  inversion H'' as [|? ? H3 H3']; subst. inversion H3' as [|? ? H4 H4']; subst.
  inversion H4' as [|? ? H5 H5']; subst. inversion H5' as [|? ? H6 H6']; subst.
  inversion H6' as [|? ? H7 _]; subst.
  repeat constructor; try assumption.
  apply ASCII_valid, isASCII_labelAt.
Qed.

Lemma Marshal_Unmarshal (pr : PriceResponse) :
  wellRanged pr -> validStrings pr ->
  UnmarshalPriceResponse (MarshalPriceResponse pr) = Some pr.
Proof.
  intros [[Hy1 Hy2] [Hv1 Hv2]] H.
  unfold validStrings in H.
  inversion H as [|? ? H1 H']; subst. inversion H' as [|? ? H2 H'']; subst.
  inversion H'' as [|? ? H3 H3']; subst. inversion H3' as [|? ? H4 H4']; subst.
  inversion H4' as [|? ? H5 H5']; subst. inversion H5' as [|? ? H6 H6']; subst.
  inversion H6' as [|? ? H7 _]; subst.
  unfold MarshalPriceResponse, UnmarshalPriceResponse.
  rewrite (ToValid_id _ H1), (ToValid_id _ H2), (ToValid_id _ H3), (ToValid_id _ H4),
    (ToValid_id _ H5), (ToValid_id _ H6), (ToValid_id _ H7).
  cbn [decodeMembers].
  repeat match goal with
         | |- context [fieldOfKey ?k] =>
             let f := eval vm_compute in (fieldOfKey k) in
             change (fieldOfKey k) with f; cbv iota
         end.
  unfold setField. rewrite !intOf_NInt. cbn [isIntField andb].
  apply Z.leb_le in Hy1, Hy2, Hv1, Hv2.
  cbn [setString setInt ModelYear VehicleType].
  rewrite Hy1, Hy2. cbn [andb setString setInt ModelYear VehicleType decodeMembers].
  rewrite Hv1, Hv2. cbn [andb].
  rewrite (ToValid_id _ H1), (ToValid_id _ H2), (ToValid_id _ H3), (ToValid_id _ H4),
    (ToValid_id _ H5), (ToValid_id _ H6), (ToValid_id _ H7).
  destruct pr. reflexivity.
Qed.

(** Encoding a record and decoding it again gives the record back, and a
    record that was decoded from a payload is always one that can make the
    round trip: what a probe stores with [json.Marshal] is read back
    unchanged by the final pass. *)
Theorem PriceResponse_round_trip (d : payload) (pr : PriceResponse) :
  UnmarshalPriceResponse d = Some pr ->
  wellRanged pr /\
  UnmarshalPriceResponse (MarshalPriceResponse pr) = Some pr.
Proof.
  intros H. pose proof (Unmarshal_valid _ _ H) as Hs. apply Unmarshal_ranged in H.
  split; [exact H | apply Marshal_Unmarshal; assumption].
Qed.

Lemma PriceResponse_round_trip_witness :
  UnmarshalPriceResponse (MarshalPriceResponse samplePrice) = Some samplePrice.
Proof.
  destruct (PriceResponse_round_trip samplePayload samplePrice) as [_ H].
  - vm_compute. reflexivity.
  - exact H.
Defined.

(** ** The final pass on records *)

Lemma normalizeEntry_decoded (now : Gotime.date) (i : nat) (p : payload) (pr : PriceResponse) :
  UnmarshalPriceResponse p = Some pr ->
  normalizeEntry now i p = MarshalPriceResponse (withReferenceMonth pr (labelAt now i)).
Proof. intros H. unfold normalizeEntry. rewrite H. reflexivity. Qed.

(** An entry that decodes as a record leaves the final pass as an object with
    exactly the nine members of the struct, in its order (a member the struct
    does not have is dropped); read back, it is the record with every field
    as decoded and the reference month replaced by the label of the position.
    Relabelling an entry twice is relabelling it once: the second write
    wins. *)
Theorem normalizeEntry_record
    (now : Gotime.date) (i : nat) (p : payload) (pr : PriceResponse) :
  UnmarshalPriceResponse p = Some pr ->
  (exists l, normalizeEntry now i p = Json (JObj l) /\ l.*1 = map fieldTag fields) /\
  UnmarshalPriceResponse (normalizeEntry now i p)
    = Some (withReferenceMonth pr (labelAt now i)) /\
  (forall j, normalizeEntry now j (normalizeEntry now i p) = normalizeEntry now j p).
Proof.
  intros H. pose proof (Unmarshal_ranged p pr H) as Hr.
  assert (Hr' : wellRanged (withReferenceMonth pr (labelAt now i))) by exact Hr.
  pose proof (validStrings_withReferenceMonth pr now i (Unmarshal_valid _ _ H)) as Hs'.
  rewrite (normalizeEntry_decoded now i p pr H).
  split; [eexists; split; reflexivity|].
  split; [apply Marshal_Unmarshal; assumption|].
  intros j.
  rewrite (normalizeEntry_decoded now j _ _ (Marshal_Unmarshal _ Hr' Hs')).
  rewrite (normalizeEntry_decoded now j p pr H). reflexivity.
Qed.

Lemma normalizeEntry_record_witness :
  UnmarshalPriceResponse (normalizeEntry midMonth 1 datedPayload)
  = Some {| Price := "R$ 10.000,00"; Brand := "VW"; Model := "Gol 1.0";
            ModelYear := 2014; Fuel := "Gasoline"; CodeFipe := "";
            ReferenceMonth := "02/2025"; VehicleType := 0; AcronymFuel := "" |}.
Proof.
  destruct (normalizeEntry_record midMonth 1 datedPayload
              {| Price := "R$ 10.000,00"; Brand := "VW"; Model := "Gol 1.0";
                 ModelYear := 2014; Fuel := "Gasoline"; CodeFipe := "";
                 ReferenceMonth := "fevereiro de 2020"; VehicleType := 0;
                 AcronymFuel := "" |}) as (_ & H & _).
  - reflexivity.
  - exact H.
Defined.

(** ** Labels at the end of a month *)

Lemma daysIn_at_most_31 (y m : Z) : Gotime.daysIn y m <= 31.
Proof.
  unfold Gotime.daysIn.
  destruct (m =? 2); [destruct (Gotime.isLeap y); lia|].
  destruct ((m =? 4) || (m =? 6) || (m =? 9) || (m =? 11)); lia.
Qed.

Lemma AddMonths_target (now : Gotime.date) (i : nat) :
  Gotime.AddMonths now (- Z.of_nat i) =
  let '(y, m) := monthMinus now i in
  if Gotime.Day now <=? Gotime.daysIn y m
  then {| Gotime.Year := y; Gotime.Month := m; Gotime.Day := Gotime.Day now |}
  else {| Gotime.Year := y; Gotime.Month := m + 1;
          Gotime.Day := Gotime.Day now - Gotime.daysIn y m |}.
Proof.
  unfold Gotime.AddMonths, Gotime.Date, monthMinus. cbv zeta.
  replace (12 * Gotime.Year now + (Gotime.Month now - 1) - Z.of_nat i)
    with (Gotime.Year now * 12 + (Gotime.Month now + - Z.of_nat i - 1)) by lia.
  rewrite Z.div_add_l by lia.
  rewrite (Z.add_comm (Gotime.Year now * 12)), Z.mod_add by lia.
  reflexivity.
Qed.

(** The label of position [i], on any date of the calendar. It is the
    current month minus [i] whenever that month has the day of today; when it
    has not (the 29th to the 31st), the date runs over and the label is that
    of the month after it, the one of position [i - 1]: a label is never off
    by more than one month, and never at position 0. *)
Theorem labelAt_month_end (now : Gotime.date) (i : nat) :
  Gotime.valid now ->
  (Gotime.Day now <= Gotime.daysIn (monthMinus now i).1 (monthMinus now i).2 ->
   labelAt now i = specLabel (monthMinus now i)) /\
  (Gotime.daysIn (monthMinus now i).1 (monthMinus now i).2 < Gotime.Day now ->
   (1 <= i)%nat /\ labelAt now i = specLabel (monthMinus now (i - 1))).
Proof.
  intros [Hmonth [Hday1 Hday2]].
  unfold labelAt. rewrite AddMonths_target.
  destruct (monthMinus now i) as [y m] eqn:Ek. cbn [fst snd].
  split.
  - intros Hle. apply Z.leb_le in Hle. rewrite Hle. reflexivity.
  - intros Hlt. destruct (Z.leb_spec (Gotime.Day now) (Gotime.daysIn y m)); [lia|].
    unfold monthMinus in Ek. injection Ek as Ey Em.
    set (k := 12 * Gotime.Year now + (Gotime.Month now - 1) - Z.of_nat i) in *.
    pose proof (Z.div_mod k 12 ltac:(lia)) as Hk.
    pose proof (Z.mod_pos_bound k 12 ltac:(lia)) as Hb.
    pose proof (daysIn_at_most_31 (Gotime.Year now) (Gotime.Month now)) as H31.
    assert (Hm12 : m <> 12).
    { intros ->. unfold Gotime.daysIn in Hlt. cbn in Hlt. lia. }
    assert (Hi : (1 <= i)%nat).
    { destruct i as [|i]; [|lia]. exfalso.
      assert (y = Gotime.Year now /\ m = Gotime.Month now) as [-> ->].
      { subst k. cbn [Z.of_nat] in *. lia. }
      lia. }
    split; [exact Hi|].
    unfold monthLabel, specLabel, monthMinus. cbn [Gotime.Year Gotime.Month fst snd].
    replace (12 * Gotime.Year now + (Gotime.Month now - 1) - Z.of_nat (i - 1))
      with (k + 1) by (subst k; lia).
    pose proof (Z.div_mod (k + 1) 12 ltac:(lia)) as Hk1.
    pose proof (Z.mod_pos_bound (k + 1) 12 ltac:(lia)) as Hb1.
    assert ((k + 1) / 12 = y /\ (k + 1) mod 12 + 1 = m + 1) as [-> ->]; [lia|].
    reflexivity.
Qed.

Lemma labelAt_month_end_witness :
  labelAt monthEnd 1 = specLabel (monthMinus monthEnd 0).
Proof.
  destruct (labelAt_month_end monthEnd 1) as (_ & H).
  - unfold Gotime.valid. cbn. lia.
  - destruct H as [_ H]; [vm_compute; reflexivity | exact H].
Defined.

(** ** The models and years handlers *)

Section CachedRuns.
Variables (net : upstream) (now later : instant) (r : Request) (w : world).

Lemma handleGetModels_run :
  handleGetModels net now later r w =
  match getCached now (cache w) (modelsKey r) with
  | (cached, true) => (Some (writeJSON cached), counted "/api/models" r w)
  | (_, false) =>
      (Some match fetchExternal net (modelsURL r) with
            | Err err => httpError err StatusBadGateway
            | Ok d => writeJSON d
            end,
       afterMiss net later "/api/models" (modelsKey r) (modelsURL r) (12 * Hour) r w)
  end.
Proof.
  unfold handleGetModels, afterMiss.
  rewrite (bind_run_Some _ _ _ tt)
    by (unfold responseOf; rewrite recordMetrics_run by reflexivity; reflexivity).
  cbv zeta. fold (modelsKey r) (modelsURL r). fold (counted "/api/models" r w).
  rewrite (bind_run_Some _ _ _ (getCached now (cache w) (modelsKey r)))
    by (unfold responseOf, lookupCache; cbn [fst]; rewrite counted_cache; reflexivity).
  change (worldAfter (lookupCache now (modelsKey r)) (counted "/api/models" r w))
    with (counted "/api/models" r w).
  destruct (getCached now (cache w) (modelsKey r)) as [cached [|]]; [reflexivity|].
  rewrite (bind_run_Some _ _ _ (fetchExternal net (modelsURL r))) by apply fetch_run.
  destruct (fetchExternal net (modelsURL r)); [reflexivity|].
  rewrite (bind_run_Some _ _ _ tt) by reflexivity. reflexivity.
Qed.

Lemma handleGetYears_run :
  handleGetYears net now later r w =
  match getCached now (cache w) (yearsKey r) with
  | (cached, true) => (Some (writeJSON cached), counted "/api/years" r w)
  | (_, false) =>
      (Some match fetchExternal net (yearsURL r) with
            | Err err => httpError err StatusBadGateway
            | Ok d => writeJSON d
            end,
       afterMiss net later "/api/years" (yearsKey r) (yearsURL r) (24 * Hour) r w)
  end.
Proof.
  unfold handleGetYears, afterMiss.
  rewrite (bind_run_Some _ _ _ tt)
    by (unfold responseOf; rewrite recordMetrics_run by reflexivity; reflexivity).
  cbv zeta. fold (yearsKey r) (yearsURL r). fold (counted "/api/years" r w).
  rewrite (bind_run_Some _ _ _ (getCached now (cache w) (yearsKey r)))
    by (unfold responseOf, lookupCache; cbn [fst]; rewrite counted_cache; reflexivity).
  change (worldAfter (lookupCache now (yearsKey r)) (counted "/api/years" r w))
    with (counted "/api/years" r w).
  destruct (getCached now (cache w) (yearsKey r)) as [cached [|]]; [reflexivity|].
  rewrite (bind_run_Some _ _ _ (fetchExternal net (yearsURL r))) by apply fetch_run.
  destruct (fetchExternal net (yearsURL r)); [reflexivity|].
  rewrite (bind_run_Some _ _ _ tt) by reflexivity. reflexivity.
Qed.

Lemma handleGetBrands_afterMiss :
  handleGetBrands net now later r w =
  match getCached now (cache w) (brandsKey r) with
  | (cached, true) => (Some (writeJSON cached), counted "/api/brands" r w)
  | (_, false) =>
      (Some match fetchExternal net (brandsURL r) with
            | Err err => httpError err StatusBadGateway
            | Ok d => writeJSON d
            end,
       afterMiss net later "/api/brands" (brandsKey r) (brandsURL r) (12 * Hour) r w)
  end.
Proof.
  rewrite handleGetBrands_run. unfold afterMiss.
  destruct (getCached now (cache w) (brandsKey r)) as [cached [|]]; [reflexivity|].
  destruct (fetchExternal net (brandsURL r)); reflexivity.
Qed.
End CachedRuns.

Section AfterMiss.
Variables (net : upstream) (later : instant) (path key url : string) (ttl : Z)
          (r : Request) (w : world).

Lemma afterMiss_trace :
  Utf8.ValidString path = true ->
  trace (afterMiss net later path key url ttl r w) =
  trace w ++ [EvInc httpRequestsTotal [path; Method r]; EvFetch url].
Proof.
  intros Hpath. unfold afterMiss. cbv zeta.
  destruct (fetchExternal net url);
    [| unfold worldAfter at 1; cbn [storeCache snd trace]];
    rewrite fetch_world; cbn [trace]; rewrite counted_trace by exact Hpath;
    rewrite <- app_assoc; reflexivity.
Qed.

Lemma afterMiss_cache :
  cache (afterMiss net later path key url ttl r w) =
  match fetchExternal net url with
  | Err _ => cache w
  | Ok d => setCached later (cache w) key d ttl
  end.
Proof.
  unfold afterMiss. cbv zeta.
  destruct (fetchExternal net url);
    [| unfold worldAfter at 1; cbn [storeCache snd cache]];
    rewrite fetch_world; cbn [cache]; rewrite counted_cache; reflexivity.
Qed.

Lemma afterMiss_metrics :
  metrics (afterMiss net later path key url ttl r w) = metrics (counted path r w).
Proof. unfold afterMiss. cbv zeta. destruct (fetchExternal net url); reflexivity. Qed.
End AfterMiss.

Lemma getCached_stored (c : gmap string cacheItem) (key : string) (d : payload)
    (ttl : Z) (t0 t : instant) :
  getCached t (setCached t0 c key d ttl) key =
  if t >? t0 + ttl then (nilBytes, false) else (d, true).
Proof. unfold getCached, setCached. rewrite lookup_insert_eq. reflexivity. Qed.

(** A miss stays a miss: what is absent or expired at one instant is not
    found at a later one either. *)
Lemma getCached_miss_later (c : gmap string cacheItem) (key : string) (t t' : instant) :
  (getCached t c key).2 = false -> t <= t' -> getCached t' c key = (nilBytes, false).
Proof.
  unfold getCached. destruct (c !! key) as [it|]; [|reflexivity].
  destruct (Z.gtb_spec t (expiresAt it)); [|discriminate].
  intros _ Hle. destruct (Z.gtb_spec t' (expiresAt it)); [reflexivity | lia].
Qed.

(** A years request that misses the cache and fetches a payload stores it for
    twenty-four hours under the vehicle type, the brand and the model: a later
    request for the same three, up to twenty-four hours after the store, is
    answered with that payload without a fetch, whatever the upstream would
    say by then; past the twenty-four hours the upstream is asked again. *)
Theorem years_served_from_cache
    (net net2 : upstream) (now later t2 t3 : instant) (r r2 : Request)
    (w : world) (d : payload) :
  (getCached now (cache w) (yearsKey r)).2 = false ->
  fetchExternal net (yearsURL r) = Ok d ->
  QueryGet r2 "type" = QueryGet r "type" ->
  QueryGet r2 "brandId" = QueryGet r "brandId" ->
  QueryGet r2 "modelId" = QueryGet r "modelId" ->
  let w1 := worldAfter (handleGetYears net now later r) w in
  let w2 := worldAfter (handleGetYears net2 t2 t3 r2) w1 in
  responseOf (handleGetYears net now later r) w = Some (writeJSON d) /\
  cache w1 = setCached later (cache w) (yearsKey r) d (24 * Hour) /\
  (t2 <= later + 24 * Hour ->
   responseOf (handleGetYears net2 t2 t3 r2) w1 = Some (writeJSON d) /\
   trace w2 = trace w1 ++ [EvInc httpRequestsTotal ["/api/years"; Method r2]]) /\
  (later + 24 * Hour < t2 ->
   trace w2 = trace w1 ++ [EvInc httpRequestsTotal ["/api/years"; Method r2];
                           EvFetch (yearsURL r2)]).
Proof.
  intros Hmiss Hd Htype Hbrand Hmodel w1 w2.
  assert (Hkey : yearsKey r2 = yearsKey r)
    by (unfold yearsKey; rewrite Htype, Hbrand, Hmodel; reflexivity).
  assert (Hrun1 : handleGetYears net now later r w =
                  (Some (writeJSON d),
                   afterMiss net later "/api/years" (yearsKey r) (yearsURL r)
                     (24 * Hour) r w)).
  { rewrite handleGetYears_run.
    destruct (getCached now (cache w) (yearsKey r)) as [cached [|]];
      [discriminate Hmiss|]. rewrite Hd. reflexivity. }
  assert (Hc1 : cache w1 = setCached later (cache w) (yearsKey r) d (24 * Hour)).
  { subst w1. unfold worldAfter at 1. rewrite Hrun1. cbn [snd].
    rewrite afterMiss_cache, Hd. reflexivity. }
  split; [unfold responseOf; rewrite Hrun1; reflexivity|].
  split; [exact Hc1|].
  assert (Hget : getCached t2 (cache w1) (yearsKey r2) =
                 if t2 >? later + 24 * Hour then (nilBytes, false) else (d, true))
    by (rewrite Hc1, Hkey; apply getCached_stored).
  split.
  - intros Ht. subst w2. unfold responseOf, worldAfter at 1.
    rewrite handleGetYears_run, Hget.
    destruct (Z.gtb_spec t2 (later + 24 * Hour)); [lia|].
    split; [reflexivity | apply counted_trace; reflexivity].
  - intros Ht. subst w2. unfold worldAfter at 1.
    rewrite handleGetYears_run, Hget.
    destruct (Z.gtb_spec t2 (later + 24 * Hour)); [|lia].
    cbn [snd]. apply afterMiss_trace. reflexivity.
Qed.

Lemma years_served_from_cache_witness :
  responseOf (handleGetYears downUpstream 1 2 brandsRequest)
    (worldAfter (handleGetYears (fun _ => Replied 200 (Json (JArr []))) 0 0 brandsRequest)
       emptyWorld)
  = Some (writeJSON (Json (JArr []))).
Proof.
  destruct (years_served_from_cache (fun _ => Replied 200 (Json (JArr []))) downUpstream
              0 0 1 2 brandsRequest brandsRequest emptyWorld (Json (JArr [])))
    as (_ & _ & H & _).
  - reflexivity.
  - reflexivity.
  - reflexivity.
  - reflexivity.
  - reflexivity.
  - destruct H as [H _]; [vm_compute; discriminate | exact H].
Defined.

(** A models request that misses the cache and gets a reply of a status other
    than 200 is answered 502 with a message that names the status and the URL,
    and nothing is cached: the cache is as it was, and a request for the same
    models at any later instant asks the upstream again. *)
Theorem models_failure_not_cached
    (net net2 : upstream) (now later t2 t3 : instant) (r : Request) (w : world)
    (status : Z) (body : payload) :
  (getCached now (cache w) (modelsKey r)).2 = false ->
  net (modelsURL r) = Replied status body ->
  status <> 200 ->
  now <= t2 ->
  let w1 := worldAfter (handleGetModels net now later r) w in
  let w2 := worldAfter (handleGetModels net2 t2 t3 r) w1 in
  responseOf (handleGetModels net now later r) w =
    Some (httpError ("external API returned status: " +:+ Strconv.Itoa status
                     +:+ " for url: " +:+ modelsURL r) StatusBadGateway) /\
  cache w1 = cache w /\
  trace w2 = trace w1 ++ [EvInc httpRequestsTotal ["/api/models"; Method r];
                          EvFetch (modelsURL r)].
Proof.
  intros Hmiss Hnet Hstatus Hle w1 w2.
  assert (Hf : fetchExternal net (modelsURL r) =
               Err ("external API returned status: " +:+ Strconv.Itoa status
                    +:+ " for url: " +:+ modelsURL r)).
  { unfold fetchExternal. rewrite Hnet.
    destruct (Z.eqb_spec status 200); [contradiction | reflexivity]. }
  assert (Hrun1 : handleGetModels net now later r w =
                  (Some (httpError ("external API returned status: "
                                    +:+ Strconv.Itoa status
                                    +:+ " for url: " +:+ modelsURL r) StatusBadGateway),
                   afterMiss net later "/api/models" (modelsKey r) (modelsURL r)
                     (12 * Hour) r w)).
  { rewrite handleGetModels_run.
    destruct (getCached now (cache w) (modelsKey r)) as [cached [|]];
      [discriminate Hmiss|]. rewrite Hf. reflexivity. }
  assert (Hc1 : cache w1 = cache w).
  { subst w1. unfold worldAfter at 1. rewrite Hrun1. cbn [snd].
    rewrite afterMiss_cache, Hf. reflexivity. }
  split; [unfold responseOf; rewrite Hrun1; reflexivity|].
  split; [exact Hc1|].
  subst w2. unfold worldAfter at 1. rewrite handleGetModels_run, Hc1.
  rewrite (getCached_miss_later _ _ now t2 Hmiss Hle). cbn [snd].
  apply afterMiss_trace. reflexivity.
Qed.

Lemma models_failure_not_cached_witness :
  cache (worldAfter (handleGetModels (fun _ => Replied 404 (Raw "not found")) 0 0
                       brandsRequest) emptyWorld) = ∅.
Proof.
  destruct (models_failure_not_cached (fun _ => Replied 404 (Raw "not found")) downUpstream
              0 0 1 2 brandsRequest emptyWorld 404 (Raw "not found"))
    as (_ & H & _).
  - reflexivity.
  - reflexivity.
  - lia.
  - lia.
  - exact H.
Defined.

(** ** What every handler does to the metrics and to the cache *)

Section Counted.
Variables (path : string) (r : Request) (w : world).
Hypothesis path_valid : Utf8.ValidString path = true.

Lemma counted_once : countedOnce path r w (counted path r w).
Proof.
  unfold countedOnce, counterValue.
  rewrite !counted_counters by exact path_valid.
  destruct (decide (httpRequestsTotal = httpRequestsTotal)); [|contradiction].
  split.
  - rewrite lookup_insert_eq. reflexivity.
  - intros lvs Hne. rewrite lookup_insert_ne by congruence. reflexivity.
Qed.

Lemma counted_others : otherMetricsKept w (counted path r w).
Proof.
  split; [|apply counted_gauges].
  intros c Hc. rewrite counted_counters by exact path_valid.
  destruct (decide (c = httpRequestsTotal)); [contradiction | reflexivity].
Qed.
End Counted.

Lemma countedOnce_metrics (path : string) (r : Request) (w w' : world) :
  Utf8.ValidString path = true ->
  metrics w' = metrics (counted path r w) ->
  countedOnce path r w w' /\ otherMetricsKept w w'.
Proof.
  intros Hpath H. unfold countedOnce, otherMetricsKept. rewrite H.
  split; [apply counted_once | apply counted_others]; exact Hpath.
Qed.

Lemma cacheFrame_refl (key : string) (w w' : world) :
  cache w' = cache w -> cacheFrame key w w'.
Proof. intros H. unfold cacheFrame. rewrite H. split; auto. Qed.

Lemma cacheFrame_afterMiss (net : upstream) (later : instant) (path key url : string)
    (ttl : Z) (r : Request) (w : world) :
  cacheFrame key w (afterMiss net later path key url ttl r w).
Proof.
  unfold cacheFrame. rewrite afterMiss_cache.
  destruct (fetchExternal net url) as [err|d]; [split; auto|].
  unfold setCached. split.
  - intros k Hk. apply lookup_insert_ne. congruence.
  - intros k Hk. destruct (decide (key = k)) as [->|Hne].
    + rewrite lookup_insert_eq. eauto.
    + rewrite lookup_insert_ne by exact Hne. exact Hk.
Qed.

Section HandlersFrame.
Variables (net : upstream) (now later : instant) (today : Gotime.date)
          (r : Request) (w : world).

Lemma handleGetBrands_world :
  let w' := worldAfter (handleGetBrands net now later r) w in
  metrics w' = metrics (counted "/api/brands" r w) /\ cacheFrame (brandsKey r) w w'.
Proof.
  unfold worldAfter. rewrite handleGetBrands_afterMiss.
  destruct (getCached now (cache w) (brandsKey r)) as [cached [|]]; cbn [snd].
  - split; [reflexivity | apply cacheFrame_refl, counted_cache].
  - split; [apply afterMiss_metrics | apply cacheFrame_afterMiss].
Qed.

Lemma handleGetModels_world :
  let w' := worldAfter (handleGetModels net now later r) w in
  metrics w' = metrics (counted "/api/models" r w) /\ cacheFrame (modelsKey r) w w'.
Proof.
  unfold worldAfter. rewrite handleGetModels_run.
  destruct (getCached now (cache w) (modelsKey r)) as [cached [|]]; cbn [snd].
  - split; [reflexivity | apply cacheFrame_refl, counted_cache].
  - split; [apply afterMiss_metrics | apply cacheFrame_afterMiss].
Qed.

Lemma handleGetYears_world :
  let w' := worldAfter (handleGetYears net now later r) w in
  metrics w' = metrics (counted "/api/years" r w) /\ cacheFrame (yearsKey r) w w'.
Proof.
  unfold worldAfter. rewrite handleGetYears_run.
  destruct (getCached now (cache w) (yearsKey r)) as [cached [|]]; cbn [snd].
  - split; [reflexivity | apply cacheFrame_refl, counted_cache].
  - split; [apply afterMiss_metrics | apply cacheFrame_afterMiss].
Qed.

Lemma handleGetPriceHistory_world :
  let w' := worldAfter (handleGetPriceHistory net today r) w in
  metrics w' = metrics (counted "/api/priceHistory" r w) /\ cache w' = cache w.
Proof.
  unfold worldAfter, handleGetPriceHistory.
  rewrite (bind_run_Some _ _ _ tt)
    by (unfold responseOf; rewrite recordMetrics_run by reflexivity; reflexivity).
  cbv zeta. fold (counted "/api/priceHistory" r w).
  rewrite (bind_run_Some _ _ _ (fetchExternal net _)) by apply fetch_run.
  destruct (fetchExternal net _) as [err|d];
    [|split; [reflexivity | cbn [snd ret mret M_ret]; rewrite fetch_world;
                            apply counted_cache]].
  destruct (collect _) as [|p h];
    [|split; [reflexivity | cbn [snd ret mret M_ret]; rewrite fetch_world;
                            apply counted_cache]].
  rewrite (bind_run_Some _ _ _ (fetchExternal net _)) by apply fetch_run.
  destruct (fetchExternal net _);
    (split; [reflexivity | cbn [snd ret mret M_ret]; rewrite !fetch_world;
                           apply counted_cache]).
Qed.

Lemma handleGetPrice_cache :
  cache (worldAfter (handleGetPrice net r) w) = cache w.
Proof.
  unfold worldAfter. rewrite handleGetPrice_run.
  destruct (validSearch r) eqn:Hv; [|apply counted_cache].
  destruct (validSearch_labels r Hv) as (_ & _ & Hy).
  destruct (fetchExternal net (priceURL r)) as [err|d]; cbn [snd].
  - apply atFetch_cache.
  - rewrite observePrice_cache by exact Hy. apply atFetch_cache.
Qed.

Lemma handleGetPrice_requests :
  countedOnce "/api/price" r w (worldAfter (handleGetPrice net r) w).
Proof.
  destruct (validSearch r) eqn:Hv.
  - unfold countedOnce, counterValue.
    rewrite (handleGetPrice_counters net r w Hv) by discriminate.
    rewrite (atFetch_counters net r w Hv). split.
    + rewrite lookup_insert_eq. reflexivity.
    + intros lvs Hne. rewrite lookup_insert_ne by congruence. reflexivity.
  - unfold worldAfter. rewrite handleGetPrice_run, Hv. cbn [snd].
    apply counted_once. reflexivity.
Qed.
End HandlersFrame.

(** Each of the five API handlers counts its request exactly once, under its
    own path and the method of the request, whatever the cache holds and
    whatever the upstream does; the brands, models, years and history handlers
    change no other metric (a history request is not counted as a vehicle
    search and sets no gauge). *)
Theorem requests_counted_once
    (net : upstream) (now later : instant) (today : Gotime.date)
    (r : Request) (w : world) :
  (countedOnce "/api/brands" r w (worldAfter (handleGetBrands net now later r) w) /\
   otherMetricsKept w (worldAfter (handleGetBrands net now later r) w)) /\
  (countedOnce "/api/models" r w (worldAfter (handleGetModels net now later r) w) /\
   otherMetricsKept w (worldAfter (handleGetModels net now later r) w)) /\
  (countedOnce "/api/years" r w (worldAfter (handleGetYears net now later r) w) /\
   otherMetricsKept w (worldAfter (handleGetYears net now later r) w)) /\
  (countedOnce "/api/priceHistory" r w
     (worldAfter (handleGetPriceHistory net today r) w) /\
   otherMetricsKept w (worldAfter (handleGetPriceHistory net today r) w)) /\
  countedOnce "/api/price" r w (worldAfter (handleGetPrice net r) w).
Proof.
  split; [apply countedOnce_metrics; [reflexivity | apply handleGetBrands_world]|].
  split; [apply countedOnce_metrics; [reflexivity | apply handleGetModels_world]|].
  split; [apply countedOnce_metrics; [reflexivity | apply handleGetYears_world]|].
  split; [apply countedOnce_metrics; [reflexivity | apply handleGetPriceHistory_world]|].
  apply handleGetPrice_requests.
Qed.

(** The price and the history handlers never write the cache (and never read
    it: every such request goes to the upstream). A brands, models or years
    request changes at most the entry of its own key, and no handler removes
    an entry, not even an expired one. *)
Theorem handlers_cache_frame
    (net : upstream) (now later : instant) (today : Gotime.date)
    (r : Request) (w : world) :
  cache (worldAfter (handleGetPrice net r) w) = cache w /\
  cache (worldAfter (handleGetPriceHistory net today r) w) = cache w /\
  cacheFrame (brandsKey r) w (worldAfter (handleGetBrands net now later r) w) /\
  cacheFrame (modelsKey r) w (worldAfter (handleGetModels net now later r) w) /\
  cacheFrame (yearsKey r) w (worldAfter (handleGetYears net now later r) w).
Proof.
  split; [apply handleGetPrice_cache|].
  split; [apply handleGetPriceHistory_world|].
  split; [apply handleGetBrands_world|].
  split; [apply handleGetModels_world | apply handleGetYears_world].
Qed.

(** ** Cache keys and upstream URLs *)

Lemma append_colon_inj (a a' b b' : string) :
  noColon a -> noColon a' ->
  a +:+ ":" +:+ b = a' +:+ ":" +:+ b' -> a = a' /\ b = b'.
Proof.
  unfold noColon, bytes. revert a'.
  induction a as [|c a IH]; intros [|c' a'] Ha Ha' H;
    rewrite ?append_cons, ?append_nil_l in H;
    [injection H as H | injection H as Hc H..].
  1: { subst. split; reflexivity. }
  - subst c'. inversion Ha' as [|? ? Hne _]. contradiction.
  - subst c. inversion Ha as [|? ? Hne _]. contradiction.
  - subst c'. inversion Ha as [|? ? _ Ha0]. inversion Ha' as [|? ? _ Ha0'].
    destruct (IH a' Ha0 Ha0' H) as [-> ->]. split; reflexivity.
Qed.

Lemma brandsKey_inj (r r2 : Request) : brandsKey r = brandsKey r2 -> brandsType r = brandsType r2.
Proof.
  unfold brandsKey. rewrite !append_cons, !append_nil_l.
  intros H. injection H as H. exact H.
Qed.

(** A payload cached by one request is served to another only when both
    share the cache key. The key of a brands request determines the URL its
    payload is fetched from; so does the key of a models request when the
    vehicle types hold no colon, and the key of a years request when neither
    the vehicle types nor the brand ids do. Keys of different handlers never
    coincide. *)
Theorem cache_key_determines_url (r r2 : Request) :
  (brandsKey r = brandsKey r2 -> brandsURL r = brandsURL r2) /\
  (noColon (QueryGet r "type") -> noColon (QueryGet r2 "type") ->
   modelsKey r = modelsKey r2 -> modelsURL r = modelsURL r2) /\
  (noColon (QueryGet r "type") -> noColon (QueryGet r2 "type") ->
   noColon (QueryGet r "brandId") -> noColon (QueryGet r2 "brandId") ->
   yearsKey r = yearsKey r2 -> yearsURL r = yearsURL r2) /\
  brandsKey r <> modelsKey r2 /\ brandsKey r <> yearsKey r2 /\
  modelsKey r <> yearsKey r2.
Proof.
  split; [|split; [|split]].
  - intros H. unfold brandsURL. rewrite (brandsKey_inj _ _ H). reflexivity.
  - intros Ht Ht2 H. unfold modelsKey in H.
    rewrite !append_cons, !append_nil_l in H. injection H as H.
    destruct (append_colon_inj _ _ _ _ Ht Ht2 H) as [Htype Hbrand].
    unfold modelsURL. rewrite Htype, Hbrand. reflexivity.
  - intros Ht Ht2 Hb Hb2 H. unfold yearsKey in H.
    rewrite !append_cons, !append_nil_l in H. injection H as H.
    destruct (append_colon_inj _ _ _ _ Ht Ht2 H) as [Htype H'].
    destruct (append_colon_inj _ _ _ _ Hb Hb2 H') as [Hbrand Hmodel].
    unfold yearsURL. rewrite Htype, Hbrand, Hmodel. reflexivity.
  - unfold brandsKey, modelsKey, yearsKey. rewrite !append_cons.
    split; [|split]; discriminate.
Qed.

Lemma cache_key_determines_url_witness :
  QueryGet sampleRequest "months" <> QueryGet historyRequest "months" /\
  modelsKey sampleRequest = modelsKey historyRequest /\
  modelsURL sampleRequest = modelsURL historyRequest /\
  yearsURL sampleRequest = yearsURL historyRequest.
Proof.
  destruct (cache_key_determines_url sampleRequest historyRequest) as (_ & Hm & Hy & _).
  split; [vm_compute; discriminate|]. split; [reflexivity|]. split.
  - apply Hm.
    + vm_compute. repeat constructor; discriminate.
    + vm_compute. repeat constructor; discriminate.
    + reflexivity.
  - apply Hy.
    + vm_compute. repeat constructor; discriminate.
    + vm_compute. repeat constructor; discriminate.
    + vm_compute. repeat constructor; discriminate.
    + vm_compute. repeat constructor; discriminate.
    + reflexivity.
Defined.

(** With a colon in the vehicle type the keys of two models requests can
    coincide while their URLs differ: the second request is then answered
    with the payload fetched for the first. *)
Example models_key_collision :
  let r1 := {| Method := "GET";
               Query := list_to_map [("type", ["a:b"]); ("brandId", ["c"])];
               MethodOk := eq_refl |} in
  let r2 := {| Method := "GET";
               Query := list_to_map [("type", ["a"]); ("brandId", ["b:c"])];
               MethodOk := eq_refl |} in
  let net := fun u => if String.eqb u (modelsURL r1)
                      then Replied 200 (Json (JStr "first")) else Failed "down" in
  modelsKey r1 = modelsKey r2 /\ modelsURL r1 <> modelsURL r2 /\
  responseOf (handleGetModels net 1 1 r2)
    (worldAfter (handleGetModels net 0 0 r1) emptyWorld)
  = Some (writeJSON (Json (JStr "first"))).
Proof. split; [|split]; vm_compute; [reflexivity | discriminate | reflexivity]. Qed.

(** ** The shape of a synthesized history *)

Lemma tryCandidates_isJson (net : upstream) (ref : string) (us : list string) (p : payload) :
  jsonUpstream net -> tryCandidates net ref us = Some p -> isJson p = true.
Proof.
  intros Hnet. induction us as [|u us IH]; [discriminate|].
  cbn [tryCandidates].
  destruct (fetchExternal net u) as [e|b] eqn:Hu; [exact IH|].
  destruct (UnmarshalPriceResponse b) as [pr|].
  - destruct (String.eqb (Price _) ""); [exact IH|].
    intros H. injection H as <-. reflexivity.
  - destruct (UnmarshalMap b).
    + intros H. injection H as <-. reflexivity.
    + intros H. injection H as <-. exact (Hnet u b Hu).
Qed.

Lemma collect_length (results : list (option payload)) :
  (length (collect results) <= length results)%nat.
Proof.
  unfold collect.
  induction results as [|[p|] results IH]; [cbn; lia | |].
  - rewrite omap_cons. destruct (nonEmpty p); cbn [length]; lia.
  - rewrite omap_cons. cbn [length]. lia.
Qed.

Lemma collect_Forall (P : payload -> Prop) (results : list (option payload)) :
  Forall (fun slot => forall p, slot = Some p -> P p) results ->
  Forall P (collect results).
Proof.
  unfold collect.
  induction 1 as [|slot results Hs _ IH]; [constructor|].
  rewrite omap_cons.
  destruct slot as [p|]; [|exact IH].
  destruct (nonEmpty p); [constructor; [apply Hs; reflexivity | exact IH] | exact IH].
Qed.

Lemma normalizeEntry_isJson (now : Gotime.date) (i : nat) (p : payload) :
  isJson p = true -> isJson (normalizeEntry now i p) = true.
Proof.
  destruct p as [b|j]; [discriminate|]. intros _.
  destruct (normalizeEntry_json now i j) as [e ->]. reflexivity.
Qed.

Lemma normalizeEntry_raw (now : Gotime.date) (i : nat) (b : string) :
  normalizeEntry now i (Raw b) = Raw b.
Proof. reflexivity. Qed.

Lemma mapM_jsonOf_Some (l : list payload) :
  Forall (fun p => isJson p = true) l ->
  exists js, mapM jsonOf l = Some js /\ length js = length l.
Proof.
  induction 1 as [|p l Hp _ (js & Hjs & Hlen)]; [exists []; split; reflexivity|].
  destruct p as [b|j]; [discriminate|].
  exists (j :: js). split; [|cbn; lia].
  cbn. rewrite Hjs. reflexivity.
Qed.

Lemma mapM_jsonOf_None (l : list payload) :
  Exists (fun p => isJson p = false) l -> mapM jsonOf l = None.
Proof.
  induction 1 as [p l Hp | p l _ IH].
  - destruct p; [reflexivity | discriminate].
  - cbn. destruct (jsonOf p); [|reflexivity]. cbn. rewrite IH. reflexivity.
Qed.

Lemma imap_Forall_isJson (now : Gotime.date) (h : list payload) :
  Forall (fun p => isJson p = true) h ->
  Forall (fun p => isJson p = true) (imap (normalizeEntry now) h).
Proof.
  intros H. apply Forall_lookup. intros i p Hp.
  rewrite list_lookup_imap in Hp.
  destruct (h !! i) as [q|] eqn:Hq; [|discriminate].
  injection Hp as <-. apply normalizeEntry_isJson.
  exact (proj1 (Forall_lookup _ _) H i q Hq).
Qed.

Lemma imap_Exists_raw (now : Gotime.date) (h : list payload) :
  Exists (fun p => isJson p = false) h ->
  Exists (fun p => isJson p = false) (imap (normalizeEntry now) h).
Proof.
  intros H. apply Exists_exists in H. destruct H as (p & Hin & Hp).
  apply list_elem_of_lookup in Hin. destruct Hin as [i Hi].
  apply Exists_exists. exists p. split; [|exact Hp].
  apply list_elem_of_lookup. exists i.
  rewrite list_lookup_imap, Hi. destruct p as [b|j]; [reflexivity | discriminate].
Qed.

Lemma finishHistory_json (now : Gotime.date) (h : list payload) :
  Forall (fun p => isJson p = true) h ->
  exists js, finishHistory now h = writeJSON (Json (JObj [("history", JArr js)]))
             /\ length js = length h.
Proof.
  intros H. destruct (mapM_jsonOf_Some _ (imap_Forall_isJson now h H)) as (js & Hjs & Hlen).
  exists js. split; [|rewrite Hlen; apply length_imap].
  unfold finishHistory, writeHistory, MarshalHistory. rewrite Hjs. reflexivity.
Qed.

Lemma finishHistory_raw (now : Gotime.date) (h : list payload) :
  Exists (fun p => isJson p = false) h -> finishHistory now h = writeJSON nilBytes.
Proof.
  intros H. unfold finishHistory, writeHistory, MarshalHistory.
  rewrite (mapM_jsonOf_None _ (imap_Exists_raw now h H)). reflexivity.
Qed.

Lemma probes_isJson (net : upstream) (now : Gotime.date) (r : Request) (n : nat) :
  jsonUpstream net ->
  Forall (fun p => isJson p = true) (collect (map (probeAt net now r) (seq 0 n))).
Proof.
  intros Hnet. apply collect_Forall, Forall_map, Forall_forall.
  intros offset _ p Hp. exact (tryCandidates_isJson _ _ _ _ Hnet Hp).
Qed.

(** When the native history endpoint fails and every body the upstream sends
    with status 200 is a JSON text, the handler answers either 502 (nothing
    was collected and the fallback fetch failed too) or 200 with an object
    whose only member, "history", is an array of at least one and at most
    [months] elements. *)
Theorem history_synthesis_shape
    (net : upstream) (now : Gotime.date) (r : Request) (w : world) :
  is_ok (fetchExternal net (histURL r)) = false ->
  jsonUpstream net ->
  let resp := responseOf (handleGetPriceHistory net now r) w in
  (Status <$> resp = Some StatusBadGateway /\
   collect (map (probeAt net now r) (seq 0 (Z.to_nat (monthsOf r)))) = [] /\
   is_ok (fetchExternal net (priceURL r)) = false) \/
  (exists js, resp = Some (writeJSON (Json (JObj [("history", JArr js)]))) /\
              (1 <= length js <= Z.to_nat (monthsOf r))%nat).
Proof.
  intros Hhist Hnet resp. subst resp.
  rewrite handleGetPriceHistory_response.
  destruct (fetchExternal net (histURL r)) as [err|d]; [|discriminate].
  pose proof (probes_isJson net now r (Z.to_nat (monthsOf r)) Hnet) as Hjson.
  pose proof (collect_length (map (probeAt net now r) (seq 0 (Z.to_nat (monthsOf r)))))
    as Hlen.
  rewrite length_map, length_seq in Hlen.
  pose proof (monthsOf_pos r) as Hpos.
  destruct (collect _) as [|p h].
  - destruct (fetchExternal net (priceURL r)) as [err2|single] eqn:Hsingle.
    + left. split; [reflexivity|]. split; reflexivity.
    + right. destruct (finishHistory_json now [single]) as (js & -> & Hjs).
      { constructor; [exact (Hnet _ _ Hsingle) | constructor]. }
      exists js. split; [reflexivity|]. rewrite Hjs. cbn. lia.
  - right. destruct (finishHistory_json now (p :: h) Hjson) as (js & -> & Hjs).
    exists js. split; [reflexivity|]. rewrite Hjs. cbn in *. lia.
Qed.

Lemma history_synthesis_shape_witness :
  exists js,
    responseOf (handleGetPriceHistory datedUpstream midMonth historyRequest) emptyWorld
      = Some (writeJSON (Json (JObj [("history", JArr js)])))
    /\ (1 <= length js <= 3)%nat.
Proof.
  destruct (history_synthesis_shape datedUpstream midMonth historyRequest emptyWorld)
    as [(H & _) | H].
  - vm_compute. reflexivity.
  - intros u b. unfold fetchExternal, datedUpstream.
    destruct (Strings.Contains u "?referenceMonth="); cbn;
      intros H; inversion H; reflexivity.
  - vm_compute in H. discriminate H.
  - exact H.
Defined.

(** One body that is not a JSON text spoils the whole history: when the
    native endpoint fails and, for some month, the first candidate that is
    not passed over answers 200 with bytes that are not empty and not JSON,
    the handler answers 200 with an empty body, whatever the other months
    gave. *)
Theorem history_spoiled_by_raw_body
    (net : upstream) (now : Gotime.date) (r : Request) (w : world)
    (k : nat) (pre post : list string) (u b : string) :
  is_ok (fetchExternal net (histURL r)) = false ->
  (k < Z.to_nat (monthsOf r))%nat ->
  candidatesAt now r k = pre ++ u :: post ->
  Forall (passedOver net) pre ->
  fetchExternal net u = Ok (Raw b) ->
  b <> "" ->
  responseOf (handleGetPriceHistory net now r) w = Some (writeJSON nilBytes).
Proof.
  intros Hhist Hk Hcs Hpre Hu Hb.
  assert (Hprobe : probeAt net now r k = Some (Raw b)).
  { unfold probeAt, probeMonth. cbv zeta. fold (refAt now k). fold (candidatesAt now r k).
    rewrite Hcs, tryCandidates_first; [| exact Hpre |].
    - cbn [tryCandidates]. rewrite Hu. reflexivity.
    - unfold passedOver. rewrite Hu. intros (pr & Hpr & _). discriminate. }
  assert (Hin : Raw b ∈ collect (map (probeAt net now r) (seq 0 (Z.to_nat (monthsOf r))))).
  { unfold collect. apply list_elem_of_omap. exists (Some (Raw b)). split.
    - apply list_elem_of_fmap. exists k. split; [symmetry; exact Hprobe|].
      apply elem_of_seq. lia.
    - cbn. destruct (String.eqb_spec b ""); [contradiction | reflexivity]. }
  rewrite handleGetPriceHistory_response.
  destruct (fetchExternal net (histURL r)) as [err|d]; [|discriminate].
  destruct (collect _) as [|p h] eqn:Hc; [inversion Hin|].
  f_equal.
  apply finishHistory_raw, Exists_exists. exists (Raw b). split; [exact Hin | reflexivity].
Qed.

Lemma history_spoiled_by_raw_body_witness :
  responseOf (handleGetPriceHistory pageUpstream midMonth historyRequest) emptyWorld
  = Some (writeJSON nilBytes).
Proof.
  apply (history_spoiled_by_raw_body pageUpstream midMonth historyRequest emptyWorld
           1 [] (tl (candidatesAt midMonth historyRequest 1))
           (hd "" (candidatesAt midMonth historyRequest 1)) "<html>maintenance</html>").
  - vm_compute. reflexivity.
  - vm_compute. lia.
  - vm_compute. reflexivity.
  - constructor.
  - vm_compute. reflexivity.
  - discriminate.
Defined.

(** ** The wrapper around an object that is not a record *)

Lemma wrapRaw_label (ref : string) (raw : gmap string value) :
  exists v, wrapRaw ref raw !! "referenceMonth" = Some v /\ v <> VNil /\
            match raw !! "referenceMonth" with
            | None | Some VNil => v = VStr ref
            | Some v0 => v = v0
            end.
Proof.
  unfold wrapRaw.
  set (raw1 := match raw !! "referenceMonth" with
               | None | Some VNil => <["referenceMonth" := VStr ref]> raw
               | Some _ => raw
               end).
  assert (H1 : exists v, raw1 !! "referenceMonth" = Some v /\ v <> VNil /\
                         match raw !! "referenceMonth" with
                         | None | Some VNil => v = VStr ref
                         | Some v0 => v = v0
                         end).
  { subst raw1. destruct (raw !! "referenceMonth") as [v0|] eqn:H0.
    - destruct v0; try (eexists; split; [exact H0 | split; [discriminate | reflexivity]]).
      eexists. split; [apply lookup_insert_eq | split; [discriminate | reflexivity]].
    - eexists. split; [apply lookup_insert_eq | split; [discriminate | reflexivity]]. }
  destruct H1 as (v & Hv & Hnil & Hcase). exists v.
  split; [|split; assumption].
  destruct (raw1 !! "price"); [exact Hv|].
  destruct (raw1 !! "Valor"); [|exact Hv].
  rewrite lookup_insert_ne by discriminate. exact Hv.
Qed.

Lemma wrapRaw_other (ref : string) (raw : gmap string value) (k : string) :
  k <> "referenceMonth" -> k <> "price" -> wrapRaw ref raw !! k = raw !! k.
Proof.
  intros Hk1 Hk2. unfold wrapRaw.
  set (raw1 := match raw !! "referenceMonth" with
               | None | Some VNil => <["referenceMonth" := VStr ref]> raw
               | Some _ => raw
               end).
  assert (H1 : raw1 !! k = raw !! k).
  { subst raw1. destruct (raw !! "referenceMonth") as [[]|];
      try reflexivity; apply lookup_insert_ne; congruence. }
  destruct (raw1 !! "price"); [exact H1|].
  destruct (raw1 !! "Valor"); [|exact H1].
  rewrite lookup_insert_ne by congruence. exact H1.
Qed.

Lemma wrapRaw_price (ref : string) (raw : gmap string value) :
  wrapRaw ref raw !! "price" =
  match raw !! "price" with
  | Some v => Some v
  | None => raw !! "Valor"
  end.
Proof.
  unfold wrapRaw.
  set (raw1 := match raw !! "referenceMonth" with
               | None | Some VNil => <["referenceMonth" := VStr ref]> raw
               | Some _ => raw
               end).
  assert (Hp : raw1 !! "price" = raw !! "price").
  { subst raw1. destruct (raw !! "referenceMonth") as [[]|];
      try reflexivity; apply lookup_insert_ne; discriminate. }
  assert (Hv : raw1 !! "Valor" = raw !! "Valor").
  { subst raw1. destruct (raw !! "referenceMonth") as [[]|];
      try reflexivity; apply lookup_insert_ne; discriminate. }
  rewrite <- Hp, <- Hv.
  destruct (raw1 !! "price") as [p|] eqn:Hp1; [exact Hp1|].
  destruct (raw1 !! "Valor") as [v|] eqn:Hv1; [apply lookup_insert_eq | exact Hp1].
Qed.

(** The wrapper a probe puts around an object that does not decode as a
    record loses nothing: every member other than "referenceMonth" and "price"
    is kept as it is; "referenceMonth" is set to the probe's reference when
    it is absent or null and kept otherwise, so the result always has one
    that is not null; "price" is kept when present and is otherwise the copy
    of "Valor", when there is one. Wrapping a second time, under whatever
    reference, changes nothing. *)
Theorem wrapRaw_keeps_members (ref : string) (raw : gmap string value) :
  (forall k, k <> "referenceMonth" -> k <> "price" ->
     wrapRaw ref raw !! k = raw !! k) /\
  (exists v, wrapRaw ref raw !! "referenceMonth" = Some v /\ v <> VNil /\
             match raw !! "referenceMonth" with
             | None | Some VNil => v = VStr ref
             | Some v0 => v = v0
             end) /\
  wrapRaw ref raw !! "price" =
    match raw !! "price" with
    | Some v => Some v
    | None => raw !! "Valor"
    end /\
  (forall ref2, wrapRaw ref2 (wrapRaw ref raw) = wrapRaw ref raw).
Proof.
  split; [apply wrapRaw_other|]. split; [apply wrapRaw_label|].
  split; [apply wrapRaw_price|].
  intros ref2. apply map_eq. intros k.
  destruct (decide (k = "referenceMonth")) as [->|Hk1].
  - destruct (wrapRaw_label ref raw) as (v & Hv & Hnil & _).
    destruct (wrapRaw_label ref2 (wrapRaw ref raw)) as (v2 & Hv2 & _ & Hcase).
    rewrite Hv in Hcase. rewrite Hv2, Hv.
    destruct v; congruence.
  - destruct (decide (k = "price")) as [->|Hk2].
    + rewrite (wrapRaw_price ref2), (wrapRaw_price ref raw).
      rewrite (wrapRaw_other ref raw "Valor") by discriminate.
      destruct (raw !! "price") as [p|]; [reflexivity|].
      destruct (raw !! "Valor"); reflexivity.
    + rewrite wrapRaw_other by assumption. reflexivity.
Qed.

Lemma wrapRaw_keeps_members_witness :
  wrapRaw "2025-02" {["Valor" := VStr "R$ 1,00"]} !! "Valor" = Some (VStr "R$ 1,00").
Proof.
  destruct (wrapRaw_keeps_members "2025-02" {["Valor" := VStr "R$ 1,00"]}) as (H & _).
  rewrite H; [reflexivity | discriminate | discriminate].
Defined.

(** ** A month without a result *)

Lemma finishHistory_head (now : Gotime.date) (p : payload) (h : list payload) :
  Forall (fun q => isJson q = true) (p :: h) ->
  exists j0 js,
    normalizeEntry now 0 p = Json j0 /\
    finishHistory now (p :: h) = writeJSON (Json (JObj [("history", JArr (j0 :: js))])) /\
    length js = length h.
Proof.
  intros H.
  destruct (mapM_jsonOf_Some _ (imap_Forall_isJson now _ H)) as (js & Hjs & Hlen).
  rewrite length_imap in Hlen.
  unfold finishHistory, writeHistory, MarshalHistory. rewrite Hjs.
  change (imap (normalizeEntry now) (p :: h))
    with (normalizeEntry now 0 p :: imap (fun i => normalizeEntry now (S i)) h) in Hjs.
  inversion H as [|? ? Hp _]. destruct p as [b|j]; [discriminate|].
  destruct (normalizeEntry_json now 0 j) as [j0 Hj0]. rewrite Hj0 in Hjs.
  cbn in Hjs.
  destruct (mapM jsonOf (imap (fun i => normalizeEntry now (S i)) h)) as [js0|];
    [|discriminate].
  injection Hjs as <-. exists j0, js0.
  split; [exact Hj0|]. split; [reflexivity|]. cbn in Hlen. lia.
Qed.

(** The labels follow the positions, not the months that were probed: when
    the native endpoint fails, the probe of the current month leaves its slot
    empty and the probe of the month before stores a record, that record comes
    first in the history that is encoded and is labelled with the current
    month; it is the first element of the response when every body the
    upstream sends with status 200 is a JSON text. *)
Theorem history_gap_shifts_labels
    (net : upstream) (now : Gotime.date) (r : Request) (w : world)
    (p : payload) (pr : PriceResponse) :
  is_ok (fetchExternal net (histURL r)) = false ->
  2 <= monthsOf r ->
  slotEmpty (probeAt net now r 0) = true ->
  probeAt net now r 1 = Some p ->
  UnmarshalPriceResponse p = Some pr ->
  exists rest,
    responseOf (handleGetPriceHistory net now r) w
      = Some (writeHistory
                (MarshalPriceResponse (withReferenceMonth pr (labelAt now 0)) :: rest)) /\
    (length rest <= Z.to_nat (monthsOf r) - 2)%nat /\
    (jsonUpstream net ->
     exists j0 js,
       responseOf (handleGetPriceHistory net now r) w
         = Some (writeJSON (Json (JObj [("history", JArr (j0 :: js))]))) /\
       Json j0 = MarshalPriceResponse (withReferenceMonth pr (labelAt now 0)) /\
       length js = length rest).
Proof.
  intros Hhist Hmonths H0 H1 Hpr.
  rewrite handleGetPriceHistory_response.
  destruct (fetchExternal net (histURL r)) as [err|d]; [|discriminate].
  pose proof (fun Hnet => probes_isJson net now r (Z.to_nat (monthsOf r)) Hnet) as Hjson.
  destruct (Z.to_nat (monthsOf r)) as [|[|n]] eqn:Hn; [lia | lia |].
  cbn [seq map] in *. rewrite H1 in *.
  assert (Hp : isJson p = true)
    by (destruct p; [discriminate Hpr | reflexivity]).
  assert (Hc : collect (probeAt net now r 0 :: Some p
                          :: map (probeAt net now r) (seq 2 n))
               = p :: collect (map (probeAt net now r) (seq 2 n))).
  { unfold collect. rewrite !omap_cons.
    destruct (probeAt net now r 0) as [q|]; cbn [slotEmpty] in H0.
    - destruct (nonEmpty q); [discriminate H0|].
      destruct p; [discriminate Hp | reflexivity].
    - destruct p; [discriminate Hp | reflexivity]. }
  rewrite Hc in *.
  set (h := collect (map (probeAt net now r) (seq 2 n))) in *.
  exists (imap (fun i => normalizeEntry now (S i)) h).
  split; [|split].
  - unfold finishHistory. rewrite imap_cons.
    rewrite (normalizeEntry_decoded now 0 p pr Hpr). reflexivity.
  - rewrite length_imap. subst h.
    pose proof (collect_length (map (probeAt net now r) (seq 2 n))) as Hl.
    rewrite length_map, length_seq in Hl. lia.
  - intros Hnet.
    destruct (finishHistory_head now _ _ (Hjson Hnet)) as (j0 & js & Hj0 & -> & Hlen).
    exists j0, js. split; [reflexivity|]. split.
    + rewrite <- Hj0. apply normalizeEntry_decoded, Hpr.
    + rewrite length_imap. exact Hlen.
Qed.

Lemma history_gap_shifts_labels_witness :
  exists j0 js,
    responseOf (handleGetPriceHistory gapUpstream midMonth historyRequest) emptyWorld
      = Some (writeJSON (Json (JObj [("history", JArr (j0 :: js))]))) /\
    refMonthOf j0 = Some (JStr "03/2025").
Proof.
  destruct (history_gap_shifts_labels gapUpstream midMonth historyRequest emptyWorld
              (default nilBytes (probeAt gapUpstream midMonth historyRequest 1))
              (default zeroPriceResponse (UnmarshalPriceResponse datedPayload)))
    as (rest & _ & _ & H).
  - vm_compute. reflexivity.
  - vm_compute. discriminate.
  - vm_compute. reflexivity.
  - vm_compute. reflexivity.
  - vm_compute. reflexivity.
  - destruct H as (j0 & js & Hresp & Hj0 & _).
    + intros u b. unfold fetchExternal, gapUpstream.
      destruct (Strings.Contains u "?referenceMonth=2025-02"); cbn;
        intros H; inversion H; reflexivity.
    + exists j0, js. split; [exact Hresp|].
      injection Hj0 as ->. vm_compute. reflexivity.
Defined.

(** The same gap with a month that answers an HTML page: the record is still
    first in the history that is encoded, but the encoding fails and the
    response is empty. *)
Example history_gap_with_raw_body :
  exists rest pr,
    probeAt gapPageUpstream midMonth historyRequest 0 = None /\
    UnmarshalPriceResponse
      (default nilBytes (probeAt gapPageUpstream midMonth historyRequest 1)) = Some pr /\
    responseOf (handleGetPriceHistory gapPageUpstream midMonth historyRequest) emptyWorld
      = Some (writeHistory
                (MarshalPriceResponse (withReferenceMonth pr (labelAt midMonth 0)) :: rest)) /\
    responseOf (handleGetPriceHistory gapPageUpstream midMonth historyRequest) emptyWorld
      = Some (writeJSON nilBytes).
Proof.
  eexists [Raw "<html>maintenance</html>"], _.
  split; [vm_compute; reflexivity|]. split; [vm_compute; reflexivity|].
  split; vm_compute; reflexivity.
Qed.

(** ** The gauges never go negative *)

(** The price handler keeps the gauges non-negative: a gauge is only ever
    set to a price that was parsed, and a parsed price has no sign. *)
Theorem price_gauges_nonneg (net : upstream) (r : Request) (w : world) :
  gaugesNonneg w -> gaugesNonneg (worldAfter (handleGetPrice net r) w).
Proof.
  intros Hw g lvs v. unfold gaugeValue, worldAfter. rewrite handleGetPrice_run.
  destruct (validSearch r) eqn:Hv; cbn [snd];
    [|rewrite counted_gauges; apply Hw].
  destruct (validSearch_labels r Hv) as (_ & _ & Hy).
  destruct (fetchExternal net (priceURL r)) as [err|d]; cbn [snd].
  - rewrite atFetch_gauges. apply Hw.
  - destruct (UnmarshalPriceResponse d) as [pr|] eqn:Hd.
    + rewrite (observePrice_gauges _ _ _ Hy pr g Hd), atFetch_gauges.
      destruct (parsePrice (Price pr)) as [e|f] eqn:Hf; [apply Hw|].
      destruct (decide ([Brand pr; Model pr; QueryGet r "yearId"] = lvs)) as [<-|Hne].
      * rewrite lookup_insert_eq. intros [= <-]. exact (parsePrice_Ok_nonneg _ _ Hf).
      * rewrite lookup_insert_ne by exact Hne. apply Hw.
    + rewrite observePrice_undecoded by exact Hd. rewrite atFetch_gauges. apply Hw.
Qed.

Lemma price_gauges_nonneg_witness :
  gaugesNonneg (worldAfter (handleGetPrice sampleUpstream sampleRequest) emptyWorld).
Proof.
  apply price_gauges_nonneg. intros g lvs v H. discriminate H.
Defined.
